(** * User-namespace root remapping: id maps, daemon root layout,
    devicemapper driver and chrooted layer application

  A shallow embedding of
    - pkg/idtools/idtools.go           (id-map table, MkdirAs / MkdirAllAs)
    - daemon/config_experimental.go    (parseRemappedRoot)
    - daemon/config.go                 (parseRemappedRoot through the file filters)
    - daemon (experimental)            (setupRemappedRoot, setupDaemonRoot)
    - pkg/directory/directory_linux.go (Size, MoveDirToSubdir)
    - daemon/graphdriver/devmapper     (Driver.Remove / Get / Put)
    - pkg/chrootarchive/diff.go        (applyLayer / ApplyLayer)

  Conventions.  Go's [int] is the 64-bit two's complement integer of the
  linux/amd64 build; it is a [Z] and every addition and subtraction of
  the source wraps explicitly.  A Go slice is an [option (list _)]: [None]
  is the nil slice, [Some []] an allocated slice of length 0.  A Go
  [(value, error)] result is a [result]. *)

From Stdlib Require Import ZArith List String Ascii Bool Lia DecimalString Permutation.
From Stdlib Require DecimalZ DecimalPos.
Import ListNotations.
Local Open Scope string_scope.
Local Open Scope list_scope.
Local Open Scope Z_scope.

(** ** Go integers *)

Module GoInt.

Definition min_int : Z := Eval cbv in - 2 ^ 63.
Definition max_int : Z := Eval cbv in 2 ^ 63 - 1.
Definition MaxInt32 : Z := Eval cbv in 2 ^ 31 - 1.
Definition MinInt32 : Z := Eval cbv in - 2 ^ 31.
Definition MaxUint32 : Z := Eval cbv in 2 ^ 32 - 1.

(** Two's complement wrap-around of a 64-bit signed integer. *)
Definition wrap (z : Z) : Z := (z + 2 ^ 63) mod 2 ^ 64 - 2 ^ 63.

Definition add (a b : Z) : Z := wrap (a + b).
Definition sub (a b : Z) : Z := wrap (a - b).

Definition is_int (z : Z) : Prop := min_int <= z <= max_int.

End GoInt.

(** ** Errors and results *)

(** The kernel error numbers the modelled calls can report. *)
Inductive errno : Type :=
| ENOENT | EEXIST | ENOTDIR | ENOTEMPTY | EISDIR | EINVAL | EPERM | EACCES
| EIO | ENOSPC | EROFS | EBUSY.

(** A Go [error].  [Errno] is an [*os.PathError] wrapping a kernel error;
  the other constructors are the [fmt.Errorf] values of the source, one
  per format string, carrying the format's arguments. *)
Inductive error : Type :=
| Errno (e : errno)
| ErrHostIDUnmappable (hostID : Z)
  (* "Host ID %d cannot be mapped to a container ID" *)
| ErrContainerIDUnmappable (contID : Z)
  (* "Container ID %d cannot be mapped to a host ID" *)
| ErrRemapRange
  (* "Cannot create ID maps: uid, gid out of remap range" *)
| ErrInvalidSpec (usergrp : string)
  (* "Invalid user/group specification in --root: %q" *)
| ErrUidLookup (name : string) (cause : error)
  (* "Error during uid lookup for %q: %v" *)
| ErrGidLookup (name : string) (cause : error)
  (* "Error during gid lookup for %q: %v" *)
| ErrNoSuchUser (name : string)
| ErrNoSuchGroup (name : string)
| ErrExecDriver
  (* "User namespace root remapping is only supported with the native execdriver" *)
| ErrWindows
  (* "User namespaces are not supported on Windows" *)
| ErrCreateMappings (cause : error)
  (* "Can't create ID mappings for remapped root: %v" *)
| ErrCreateRoot (cause : error)
  (* "Cannot create daemon root %q: %v" *)
| ErrMigrateRoot (cause : error)
  (* "Cannot migrate current daemon root %q for user namespaces: %v" *)
| ErrCreateDaemonRoot (cause : error)
  (* "Cannot create daemon root: %s: %v" *)
| ErrApplyLayer (cause : error) (stdout stderr : string)
  (* "ApplyLayer %s stdout: %s stderr: %s" *)
| ErrDecodeResponse
| ErrSyntax (num : string)
    (* strconv.ErrSyntax *)
| ErrRange (num : string)
    (* strconv.ErrRange *)
  (* "unable to decode ApplyLayer JSON response: %s" *)
| ErrOther (msg : string).

Inductive result (A : Type) : Type :=
| Ok (a : A)
| Err (e : error).
Arguments Ok {A} a.
Arguments Err {A} e.

(** [os.IsExist] and [os.IsNotExist]. *)
Definition IsExist (e : error) : bool :=
  match e with
  | Errno EEXIST | Errno ENOTEMPTY => true
  | _ => false
  end.

Definition IsNotExist (e : error) : bool :=
  match e with
  | Errno ENOENT => true
  | _ => false
  end.

Definition slice (A : Type) : Type := option (list A).

(** A cleaned absolute path, as [path.Join] and [filepath.Join] return it:
    the list of its components below "/".  Joining is appending. *)
Definition path : Type := list string.

(** ** Calls that change the world

    A Go function that returns an error and may have changed the file
    system or the device set on the way is a function from the world to a
    result and the world it leaves, also when it fails. *)

Definition M (W A : Type) : Type := W -> result A * W.

Definition ret {W A : Type} (a : A) : M W A := fun w => (Ok a, w).

Definition fail {W A : Type} (e : error) : M W A := fun w => (Err e, w).

Definition bind {W A B : Type} (m : M W A) (k : A -> M W B) : M W B :=
  fun w =>
    match m w with
    | (Ok a, w') => k a w'
    | (Err e, w') => (Err e, w')
    end.

(** [err := f()] without the early return: the error becomes a value. *)
Definition try {W A : Type} (m : M W A) : M W (result A) :=
  fun w => let (r, w') := m w in (Ok r, w').

(** [if err != nil { return fmt.Errorf(..., err) }]. *)
Definition wrapErr {W A : Type} (f : error -> error) (m : M W A) : M W A :=
  fun w =>
    match m w with
    | (Ok a, w') => (Ok a, w')
    | (Err e, w') => (Err (f e), w')
    end.

(** [if err != nil && !os.IsExist(err) { return err }]. *)
Definition unlessExists {W : Type} (m : M W unit) : M W unit :=
  fun w =>
    match m w with
    | (Ok _, w') => (Ok tt, w')
    | (Err e, w') => if negb (IsExist e) then (Err e, w') else (Ok tt, w')
    end.

Definition liftR {W A : Type} (r : result A) : M W A := fun w => (r, w).

(** A computation on a part [W] of a larger state [S]. *)
Definition zoom {S W A : Type} (get : S -> W) (set : S -> W -> S)
    (m : M W A) : M S A :=
  fun s => let (r, w') := m (get s) in (r, set s w').

Declare Scope go_scope.
Delimit Scope go_scope with go.
Notation "x <- m ;; k" := (bind m (fun x => k))
  (at level 61, m at next level, right associativity) : go_scope.
Notation "m ;;; k" := (bind m (fun _ => k))
  (at level 61, right associativity) : go_scope.
Local Open Scope go_scope.

(** ** The operating system as the source calls it *)

Module os.

Record FileInfo : Type := mkFileInfo {
  Name : string;
  IsDir : bool;
  Mode : Z;
  Uid : Z;
  Gid : Z
}.

(** The calls of packages os and io/ioutil the source makes.  Modes are
    permission bits, 0755 being 493. *)
Class OS (W : Type) : Type := {
  Stat : path -> M W FileInfo;
  Mkdir : path -> Z -> M W unit;
  MkdirAll : path -> Z -> M W unit;
  Chown : path -> Z -> Z -> M W unit;
  Chmod : path -> Z -> M W unit;
  Rename : path -> path -> M W unit;
  RemoveAll : path -> M W unit;
  ReadDir : path -> M W (list FileInfo);
  WriteFile : path -> string -> Z -> M W unit
}.

Definition mode_0755 : Z := 493.
Definition mode_0700 : Z := 448.
Definition mode_0600 : Z := 384.

(** An instance on a larger state, acting on its part. *)
Definition zoomOS {S W : Type} (get : S -> W) (set : S -> W -> S)
    (O : OS W) : OS S := {|
  Stat p := zoom get set (Stat p);
  Mkdir p m := zoom get set (Mkdir p m);
  MkdirAll p m := zoom get set (MkdirAll p m);
  Chown p u g := zoom get set (Chown p u g);
  Chmod p m := zoom get set (Chmod p m);
  Rename a b := zoom get set (Rename a b);
  RemoveAll p := zoom get set (RemoveAll p);
  ReadDir p := zoom get set (ReadDir p);
  WriteFile p d m := zoom get set (WriteFile p d m)
|}.

End os.

(** ** pkg/idtools: the id-map table *)

Module idtools.
Import GoInt.

Record IDMap : Type := mkIDMap {
  ContainerID : Z;
  HostID : Z;
  Size : Z
}.

(** The loop of [TranslateIDToContainer]. *)
Fixpoint scanToContainer (hostID : Z) (ms : list IDMap) : result Z :=
  match ms with
  | [] => Err (ErrHostIDUnmappable hostID)
  | m :: rest =>
      if (hostID >=? HostID m) && (hostID <=? sub (add (HostID m) (Size m)) 1)
      then Ok (add (ContainerID m) (sub hostID (HostID m)))
      else scanToContainer hostID rest
  end.

Definition TranslateIDToContainer (hostID : Z) (idMap : slice IDMap) : result Z :=
  match idMap with
  | None => Ok hostID
  | Some ms => scanToContainer hostID ms
  end.

(** The loop of [TranslateIDToHost]. *)
Fixpoint scanToHost (contID : Z) (ms : list IDMap) : result Z :=
  match ms with
  | [] => Err (ErrContainerIDUnmappable contID)
  | m :: rest =>
      if (contID >=? ContainerID m)
         && (contID <=? sub (add (ContainerID m) (Size m)) 1)
      then Ok (add (HostID m) (sub contID (ContainerID m)))
      else scanToHost contID rest
  end.

Definition TranslateIDToHost (contID : Z) (idMap : slice IDMap) : result Z :=
  match idMap with
  | None => Ok contID
  | Some ms => scanToHost contID ms
  end.

Definition createIDMap (id : Z) : slice IDMap :=
  Some [ mkIDMap 0 id 1;
         mkIDMap 1 1 (sub id 1);
         mkIDMap (add id 1) (add id 1) (sub MaxInt32 id) ].

Definition CreateIDMapsForRoot (uid gid : Z)
  : result (slice IDMap * slice IDMap) :=
  if (uid <? 1) || (gid <? 1) then Err ErrRemapRange
  else Ok (createIDMap uid, createIDMap gid).

(** [GetRootUIDGID]; on error the source returns (-1, -1, err). *)
Definition GetRootUIDGID (uidMap gidMap : slice IDMap) : result (Z * Z) :=
  match (match uidMap with
         | Some _ => TranslateIDToHost 0 uidMap
         | None => Ok 0
         end) with
  | Err e => Err e
  | Ok uid =>
      match (match gidMap with
             | Some _ => TranslateIDToHost 0 gidMap
             | None => Ok 0
             end) with
      | Err e => Err e
      | Ok gid => Ok (uid, gid)
      end
  end.

(** A container id lies in the container-side interval of some range. *)
Definition covers (m : IDMap) (contID : Z) : bool :=
  (contID >=? ContainerID m)
  && (contID <=? sub (add (ContainerID m) (Size m)) 1).

Definition covered (contID : Z) (idMap : slice IDMap) : bool :=
  match idMap with
  | None => false
  | Some ms => existsb (fun m => covers m contID) ms
  end.

(** The ranges of a table; the nil slice has none. *)
Definition ranges (idMap : slice IDMap) : list IDMap :=
  match idMap with
  | None => []
  | Some ms => ms
  end.

(** The same on the host side. *)
Definition coversHost (m : IDMap) (hostID : Z) : bool :=
  (hostID >=? HostID m) && (hostID <=? sub (add (HostID m) (Size m)) 1).

Definition coveredHost (hostID : Z) (idMap : slice IDMap) : bool :=
  match idMap with
  | None => false
  | Some ms => existsb (fun m => coversHost m hostID) ms
  end.

Section mkdir.
Import os.
Context {W : Type} {O : OS W}.

Definition mkdirAs (path : path) (mode : Z) (ownerUID ownerGID : Z)
    (mkAll : bool) : M W unit :=
  (if mkAll then unlessExists (MkdirAll path mode)
   else unlessExists (Mkdir path mode)) ;;;
  (* even if it existed, we will chown to change ownership as requested *)
  Chown path ownerUID ownerGID.

Definition MkdirAllAs (path : path) (mode : Z) (ownerUID ownerGID : Z) : M W unit :=
  mkdirAs path mode ownerUID ownerGID true.

Definition MkdirAs (path : path) (mode : Z) (ownerUID ownerGID : Z) : M W unit :=
  mkdirAs path mode ownerUID ownerGID false.

End mkdir.

(** The remap targets the properties below range over: the ids from 1
    on for which the source's [id + 1] does not wrap.  Every 32-bit id
    from 1 on is one of them. *)
Definition in_remap_domain (id : Z) : Prop := 1 <= id < max_int.

(** What the table built for one id guarantees: its three ranges, the
    translation of container root, the identity on every other container
    id up to [MaxInt32], ranges that do not overlap, no range for the id
    itself and, for an id up to [MaxInt32], none for a container id above
    [MaxInt32]. *)
Definition remaps_root_to (id : Z) (T : slice IDMap) : Prop :=
  T = Some [ mkIDMap 0 id 1; mkIDMap 1 1 (id - 1);
             mkIDMap (id + 1) (id + 1) (MaxInt32 - id) ]
  /\ TranslateIDToHost 0 T = Ok id
  /\ (forall c, 1 <= c <= MaxInt32 -> c <> id -> TranslateIDToHost c T = Ok c)
  /\ (forall c, (List.length (filter (fun m => covers m c) (ranges T)) <= 1)%nat)
  /\ covered id T = false
  /\ (id <= MaxInt32 -> forall c, MaxInt32 < c -> covered c T = false).

(** A range of ids from 0 on whose bounds the translations compute
    without wrap-around. *)
Definition wellFormed (m : IDMap) : Prop :=
  0 <= ContainerID m /\ 0 <= HostID m
  /\ is_int (ContainerID m + Size m) /\ is_int (ContainerID m + Size m - 1)
  /\ is_int (HostID m + Size m) /\ is_int (HostID m + Size m - 1).

(** No host id lies in the host-side interval of two ranges of the
    table, and no container id in the container-side interval of two. *)
Definition hostDisjoint (ms : list IDMap) : Prop :=
  forall m1 m2 h,
    In m1 ms -> In m2 ms ->
    coversHost m1 h = true -> coversHost m2 h = true -> m1 = m2.

Definition containerDisjoint (ms : list IDMap) : Prop :=
  forall m1 m2 c,
    In m1 ms -> In m2 ms ->
    covers m1 c = true -> covers m2 c = true -> m1 = m2.

End idtools.

(** ** The Go library calls of parseRemappedRoot *)

Module strings.

(** [strings.Split(s, sep)] for a separator of one byte: the pieces between
    the occurrences of [sep], one more than there are occurrences. *)
Fixpoint Split (s : string) (sep : ascii) : list string :=
  match s with
  | EmptyString => [EmptyString]
  | String c rest =>
      if Ascii.eqb c sep then EmptyString :: Split rest sep
      else match Split rest sep with
           | [] => [String c EmptyString]
           | piece :: pieces => String c piece :: pieces
           end
  end.

(** [strings.Count(s, sep)] for a separator of one byte. *)
Fixpoint Count (s : string) (sep : ascii) : nat :=
  match s with
  | EmptyString => 0%nat
  | String c rest =>
      if Ascii.eqb c sep then S (Count rest sep) else Count rest sep
  end.

End strings.

Module strconv.

Definition digit (c : ascii) : option Z :=
  let n := Z.of_nat (nat_of_ascii c) in
  if (48 <=? n) && (n <=? 57) then Some (n - 48) else None.

(** The value of a string of decimal digits, most significant first. *)
Fixpoint digits (s : string) (acc : Z) : option Z :=
  match s with
  | EmptyString => Some acc
  | String c rest =>
      match digit c with
      | Some d => digits rest (10 * acc + d)
      | None => None
      end
  end.

(** [strconv.ParseUint(s, 10, bitSize)]. *)
Definition ParseUint10 (s : string) (bitSize : Z) : result Z :=
  match s with
  | EmptyString => Err (ErrSyntax s)
  | _ =>
      match digits s 0 with
      | None => Err (ErrSyntax s)
      | Some n => if n <=? 2 ^ bitSize - 1 then Ok n else Err (ErrRange s)
      end
  end.

(** [strconv.ParseInt(s, 10, bitSize)]: an optional sign, then decimal
    digits, the value within the signed [bitSize]-bit range. *)
Definition ParseInt10 (s : string) (bitSize : Z) : result Z :=
  match s with
  | EmptyString => Err (ErrSyntax s)
  | String c rest =>
      let neg := Ascii.eqb c "-" in
      let body := if Ascii.eqb c "+" || neg then rest else s in
      let cutoff := 2 ^ (bitSize - 1) in
      match ParseUint10 body bitSize with
      | Err (ErrRange _) => Err (ErrRange s)
      | Err _ => Err (ErrSyntax s)
      | Ok un =>
          if negb neg && (un >=? cutoff) then Err (ErrRange s)
          else if neg && (un >? cutoff) then Err (ErrRange s)
          else Ok (if neg then - un else un)
      end
  end.

End strconv.

(** ** The calls a run makes

    A world that keeps, next to the state of the host, the list of the
    calls made so far, oldest first. *)

Module tracing.
Import os.

Inductive call : Type :=
| CallStat (p : path)
| CallMkdir (p : path) (mode : Z)
| CallMkdirAll (p : path) (mode : Z)
| CallChown (p : path) (uid gid : Z)
| CallChmod (p : path) (mode : Z)
| CallRename (old new : path)
| CallRemoveAll (p : path)
| CallReadDir (p : path)
| CallWriteFile (p : path) (data : string) (mode : Z)
| CallAddDevice (id parent : string)
| CallDeleteDevice (id : string)
| CallHasDevice (id : string)
| CallMountDevice (id : string) (mp : path) (mountLabel : string)
| CallUnmountDevice (id : string).

Record traced (W : Type) : Type := mkTraced {
  world : W;
  calls : list call
}.
Arguments mkTraced {W} world calls.
Arguments world {W} t.
Arguments calls {W} t.

Definition logged {W A : Type} (c : call) (m : M W A) : M (traced W) A :=
  fun s =>
    let (r, w') := m (world s) in (r, mkTraced w' (calls s ++ [c])).

Definition tracedOS {W : Type} (O : OS W) : OS (traced W) := {|
  Stat p := logged (CallStat p) (Stat p);
  Mkdir p m := logged (CallMkdir p m) (Mkdir p m);
  MkdirAll p m := logged (CallMkdirAll p m) (MkdirAll p m);
  Chown p u g := logged (CallChown p u g) (Chown p u g);
  Chmod p m := logged (CallChmod p m) (Chmod p m);
  Rename a b := logged (CallRename a b) (Rename a b);
  RemoveAll p := logged (CallRemoveAll p) (RemoveAll p);
  ReadDir p := logged (CallReadDir p) (ReadDir p);
  WriteFile p d m := logged (CallWriteFile p d m) (WriteFile p d m)
|}.

Definition isMount (c : call) : bool :=
  match c with CallMountDevice _ _ _ => true | _ => false end.

Definition isUnmount (c : call) : bool :=
  match c with CallUnmountDevice _ => true | _ => false end.

Definition isChown (c : call) : bool :=
  match c with CallChown _ _ _ => true | _ => false end.

Definition count (f : call -> bool) (cs : list call) : nat :=
  List.length (filter f cs).

Fixpoint lastCall (cs : list call) : option call :=
  match cs with
  | [] => None
  | [c] => Some c
  | _ :: rest => lastCall rest
  end.

End tracing.

(** ** pkg/directory *)

Module directory.
Import os.

Section move.
Context {W : Type} {O : OS W}.

(** The loop of [MoveDirToSubdir] over the entries read before it. *)
Fixpoint moveEntries (oldpath : path) (subdir : string) (infos : list FileInfo)
  : M W unit :=
  match infos with
  | [] => ret tt
  | info :: rest =>
      (if negb (String.eqb (Name info) subdir) then
         Rename (oldpath ++ [Name info]) (oldpath ++ [subdir; Name info])
       else ret tt) ;;;
      moveEntries oldpath subdir rest
  end.

Definition MoveDirToSubdir (oldpath : path) (subdir : string) : M W unit :=
  infos <- ReadDir oldpath ;;
  moveEntries oldpath subdir infos.

End move.

(** *** Size *)

(** What [filepath.Walk] hands to the function it is given for one path:
    the size of the file, whether it is a directory, and the inode number
    of its [syscall.Stat_t]. *)
Record walked : Type := mkWalked {
  wSize : Z;
  wIsDir : bool;
  wIno : Z
}.

(** The function literal of [Size], on the inodes counted so far and the
    sum so far; a visit without [os.FileInfo] is [None].  The sum is an
    int64. *)
Definition sizeStep (st : list Z * Z) (fileInfo : option walked) : list Z * Z :=
  let (data, size) := st in
  match fileInfo with
  | None => st
  | Some fileInfo =>
      let s := wSize fileInfo in
      (* Ignore directory sizes *)
      if wIsDir fileInfo || (s =? 0) then st
      (* Check inode to handle hard links correctly *)
      else if existsb (Z.eqb (wIno fileInfo)) data then st
      else (wIno fileInfo :: data, GoInt.add size s)
  end.

(** [Size], for a walk that makes the visits [visits] in this order and
    returns [walkErr]. *)
Definition Size (visits : list (option walked)) (walkErr : option error)
  : Z * option error :=
  (snd (fold_left sizeStep visits ([], 0)), walkErr).

(** A visit [Size] counts unless its inode has been counted. *)
Definition countable (v : option walked) : bool :=
  match v with
  | None => false
  | Some fileInfo => negb (wIsDir fileInfo || (wSize fileInfo =? 0))
  end.

(** The names of one inode are the same file: hard links agree on the
    size. *)
Definition linksAgree (visits : list (option walked)) : Prop :=
  forall f g,
    In (Some f) visits -> In (Some g) visits ->
    countable (Some f) = true -> countable (Some g) = true ->
    wIno f = wIno g -> wSize f = wSize g.

(** Two states of the walk that have counted the same inodes and the
    same sum. *)
Definition sameCount (st st' : list Z * Z) : Prop :=
  (forall i, In i (fst st) <-> In i (fst st')) /\ snd st = snd st'.

End directory.

(** ** daemon: the remapped-root option *)

Module daemon.
Import idtools.

Record Config : Type := mkConfig {
  Root : path;
  ExecDriver : string;
  RemappedRoot : string
}.

Section parse.

(** [user.LookupUser(name)] and [user.LookupGroup(name)] of
    runc/libcontainer/user, reduced to the [Uid] and [Gid] field the source
    reads from their result. *)
Variable LookupUser : string -> result Z.
Variable LookupGroup : string -> result Z.

(** [runtime.GOOS]. *)
Variable GOOS : string.

Definition parseRemappedRoot (usergrp : string) : result (Z * Z) :=
  let idparts := strings.Split usergrp ":" in
  if (2 <? List.length idparts)%nat then Err (ErrInvalidSpec usergrp)
  else
    let part0 := nth 0 idparts "" in
    let part1 := nth 1 idparts "" in
    let single := (List.length idparts =? 1)%nat in
    let first :=
      match strconv.ParseInt10 part0 32 with
      | Ok uid =>
          (* must be a uid; take it as valid *)
          Ok (uid, if single then uid else 0)
      | Err _ =>
          match LookupUser part0 with
          | Err e => Err (ErrUidLookup part0 e)
          | Ok userId =>
              if single then
                match LookupGroup part0 with
                | Err e => Err (ErrGidLookup part0 e)
                | Ok groupId => Ok (userId, groupId)
                end
              else Ok (userId, 0)
          end
      end in
    match first with
    | Err e => Err e
    | Ok (userId, groupId) =>
        if (List.length idparts =? 2)%nat then
          match strconv.ParseInt10 part1 32 with
          | Ok gid => Ok (userId, gid)
          | Err _ =>
              match LookupGroup part1 with
              | Err e => Err (ErrGidLookup part1 e)
              | Ok gid => Ok (userId, gid)
              end
          end
        else Ok (userId, groupId)
    end.

Definition setupRemappedRoot (config : Config)
  : result (slice IDMap * slice IDMap) :=
  if negb (String.eqb (ExecDriver config) "native")
     && negb (String.eqb (RemappedRoot config) "")
  then Err ErrExecDriver
  else if String.eqb GOOS "windows" && negb (String.eqb (RemappedRoot config) "")
  then Err ErrWindows
  else if negb (String.eqb (RemappedRoot config) "") then
    match parseRemappedRoot (RemappedRoot config) with
    | Err e => Err e
    | Ok (uid, gid) =>
        match CreateIDMapsForRoot uid gid with
        | Err e => Err (ErrCreateMappings e)
        | Ok maps => Ok maps
        end
    end
  else Ok (None, None).

End parse.

(** [fmt.Sprintf("%d", n)]. *)
Definition itoa (n : Z) : string :=
  DecimalString.NilZero.string_of_int (Z.to_int n).

(** The daemon's configuration together with the host it runs on:
    [setupDaemonRoot] writes [config.Root] and the file system. *)
Record daemonState (W : Type) : Type := mkDaemonState {
  config : Config;
  host : W
}.
Arguments mkDaemonState {W} config host.
Arguments config {W} d.
Arguments host {W} d.

Section root.
Import os.
Context {W : Type} {O : OS W}.

#[local] Instance daemonOS : OS (daemonState W) :=
  zoomOS host (fun s w => mkDaemonState (config s) w) O.

Definition setConfigRoot (root : path) : M (daemonState W) unit :=
  fun s =>
    (Ok tt,
     mkDaemonState
       (mkConfig root (ExecDriver (config s)) (RemappedRoot (config s)))
       (host s)).

Definition getConfig : M (daemonState W) Config :=
  fun s => (Ok (config s), s).

Definition setupDaemonRoot (rootDir : path) (rootUID rootGID : Z)
  : M (daemonState W) unit :=
  let nsRoot := "0.0" in
  st <- try (Stat rootDir) ;;
  match st with
  | Ok _ =>
      (* root current exists; we need to check for a prior migration *)
      st0 <- try (Stat (rootDir ++ [nsRoot])) ;;
      match st0 with
      | Err e =>
          if IsNotExist e then
            (* 1. create non-usernamespaced root as "0.0" *)
            wrapErr ErrCreateRoot (Mkdir (rootDir ++ [nsRoot]) mode_0700) ;;;
            (* 2. move current root content to "0.0" new subroot *)
            wrapErr ErrMigrateRoot (directory.MoveDirToSubdir rootDir nsRoot) ;;;
            (* 3. chmod outer root to 755 *)
            Chmod rootDir mode_0755
          else ret tt
      | Ok _ => ret tt
      end
  | Err e =>
      if IsNotExist e then
        (* no root exists yet, create it 0755 with root:root ownership *)
        MkdirAll rootDir mode_0755 ;;;
        (* create the "0.0" subroot *)
        Mkdir (rootDir ++ [nsRoot]) mode_0700
      else ret tt
  end ;;;
  cfg <- getConfig ;;
  let nsRoot :=
    if negb (String.eqb (RemappedRoot cfg) "")
    then (itoa rootUID ++ "." ++ itoa rootGID)%string
    else nsRoot in
  setConfigRoot (rootDir ++ [nsRoot]) ;;;
  wrapErr ErrCreateDaemonRoot
    (MkdirAllAs (rootDir ++ [nsRoot]) mode_0700 rootUID rootGID).

End root.

(** *** daemon/config.go: the same option, resolved through the filters *)

Module config_go.

(** The fields of [user.User] and [user.Group] the source reads; [GName]
    is the [Name] of a group. *)
Record User : Type := mkUser {
  Name : string;
  Uid : Z
}.

Record Group : Type := mkGroup {
  GName : string;
  Gid : Z
}.

(** The errors of this variant, one per format string. *)
Inductive parseError : Type :=
| InvalidSpec (usergrp : string)
  (* "Invalid user/group specification in --root: %q" *)
| UnableToFindUsername (name : string) (cause : option error)
  (* "Unable to find username %q: %v" *)
| GidLookup (name : string) (cause : error)
  (* "Error during gid lookup for %q: %v" *)
| NoSuchGroup (name : string).
  (* "No such group %q" *)

Inductive parsed : Type :=
| Parsed (userId groupId : Z)
| Failed (e : parseError).

Section parse.

(** [user.ParsePasswdFileFilter("/etc/passwd", filter)] and
    [user.ParseGroupFileFilter("/etc/group", filter)]: the entries the
    filter accepts, in the order of the file, and the error of reading
    it, if any. *)
Variable ParsePasswdFileFilter : (User -> bool) -> list User * option error.
Variable ParseGroupFileFilter : (Group -> bool) -> list Group * option error.

Definition parseRemappedRoot (usergrp : string) : parsed :=
  let idparts := strings.Split usergrp ":" in
  if (2 <? List.length idparts)%nat then Failed (InvalidSpec usergrp)
  else
    let part0 := nth 0 idparts "" in
    let part1 := nth 1 idparts "" in
    let single := (List.length idparts =? 1)%nat in
    let first :=
      match strconv.ParseInt10 part0 32 with
      | Ok uid =>
          (* must be a uid; take it as valid *)
          Parsed uid (if single then uid else 0)
      | Err _ =>
          let (users, err) :=
            ParsePasswdFileFilter (fun usr => String.eqb (Name usr) part0) in
          match err, users with
          | Some _, _ | None, [] => Failed (UnableToFindUsername part0 err)
          | None, usr :: _ =>
              if single then
                (* look up gid from username as group *)
                let (groups, err) :=
                  ParseGroupFileFilter (fun grp => String.eqb (GName grp) part0) in
                match err with
                | Some e => Failed (GidLookup part0 e)
                | None =>
                    match groups with
                    | [] => Failed (NoSuchGroup part0)
                    | grp :: _ => Parsed (Uid usr) (Gid grp)
                    end
                end
              else Parsed (Uid usr) 0
          end
      end in
    match first with
    | Failed e => Failed e
    | Parsed userId groupId =>
        if (List.length idparts =? 2)%nat then
          match strconv.ParseInt10 part1 32 with
          | Ok gid => Parsed userId gid
          | Err _ =>
              (* not a number; attempt a lookup *)
              let (groups, err) :=
                ParseGroupFileFilter (fun grp => String.eqb (GName grp) part1) in
              match err with
              | Some e => Failed (GidLookup part1 e)
              | None =>
                  match groups with
                  | [] => Failed (NoSuchGroup part1)
                  | grp :: _ => Parsed userId (Gid grp)
                  end
              end
          end
        else Parsed userId groupId
    end.

End parse.

(** How [user.LookupUser] and [user.LookupGroup] answer on the same
    files: the id of the first entry with the name, when the file is
    read without error and has one. *)
Definition lookupsRead
    (ParsePasswdFileFilter : (User -> bool) -> list User * option error)
    (ParseGroupFileFilter : (Group -> bool) -> list Group * option error)
    (LookupUser LookupGroup : string -> result Z) : Prop :=
  (forall name uid,
     LookupUser name = Ok uid
     <-> exists usr rest,
           ParsePasswdFileFilter (fun usr => String.eqb (Name usr) name)
           = (usr :: rest, None) /\ Uid usr = uid)
  /\ (forall name gid,
        LookupGroup name = Ok gid
        <-> exists grp rest,
              ParseGroupFileFilter (fun grp => String.eqb (GName grp) name)
              = (grp :: rest, None) /\ Gid grp = gid).

End config_go.

End daemon.

(** ** daemon/graphdriver/devmapper: the driver *)

Module devmapper.
Import os idtools tracing.

(** The calls of [DeviceSet] the driver makes. *)
Class DeviceSet (W : Type) : Type := {
  AddDevice : string -> string -> M W unit;
  DeleteDevice : string -> M W unit;
  HasDevice : string -> W -> bool * W;
  MountDevice : string -> path -> string -> M W unit;
  UnmountDevice : string -> M W unit
}.

Record Driver : Type := mkDriver {
  home : path;
  uidMaps : slice IDMap;
  gidMaps : slice IDMap
}.

(** [path.Join(d.home, "mnt", id)] is [home d ++ ["mnt"; id]] when [id]
    is one element of a path: not empty, neither "." nor "..", and
    without a '/'; other ids [path.Join] cleans away or splits. *)
Definition isElement (id : string) : bool :=
  negb (String.eqb id "") && negb (String.eqb id ".")
  && negb (String.eqb id "..") && (strings.Count id "/" =? 0)%nat.

Section driver.
Context {W : Type} {O : OS W} {D : DeviceSet W}.

Definition Create (d : Driver) (id parent : string) : M W unit :=
  AddDevice id parent.

Definition Remove (d : Driver) (id : string) : M W unit :=
  has <- (fun w => let (b, w') := HasDevice id w in (Ok b, w')) ;;
  if negb has then
    (* Consider removing a non-existing device a no-op *)
    ret tt
  else
    DeleteDevice id ;;;
    let mp := home d ++ ["mnt"; id] in
    r <- try (RemoveAll mp) ;;
    match r with
    | Err e => if negb (IsNotExist e) then fail e else ret tt
    | Ok _ => ret tt
    end.

Definition Get (d : Driver) (id mountLabel : string) : M W path :=
  let mp := home d ++ ["mnt"; id] in
  ids <- liftR (GetRootUIDGID (uidMaps d) (gidMaps d)) ;;
  let '(uid, gid) := ids in
  (* Create the target directories if they don't exist *)
  unlessExists (MkdirAllAs (home d ++ ["mnt"]) mode_0755 uid gid) ;;;
  unlessExists (MkdirAs mp mode_0755 uid gid) ;;;
  (* Mount the device *)
  MountDevice id mp mountLabel ;;;
  let rootFs := mp ++ ["rootfs"] in
  r <- try (MkdirAllAs rootFs mode_0755 uid gid) ;;
  match r with
  | Err e =>
      if negb (IsExist e) then
        try (UnmountDevice id) ;;; fail e
      else ret tt
  | Ok _ => ret tt
  end ;;;
  let idFile := mp ++ ["id"] in
  st <- try (Stat idFile) ;;
  match st with
  | Err e =>
      if IsNotExist e then
        r <- try (WriteFile idFile id mode_0600) ;;
        match r with
        | Err e' => try (UnmountDevice id) ;;; fail e'
        | Ok _ => ret tt
        end
      else ret tt
  | Ok _ => ret tt
  end ;;;
  ret rootFs.

(** The steps of [Get] that follow the mount, for the root ids [Get] has
    resolved. *)
Definition afterMount (d : Driver) (id : string) (uid gid : Z) : M W path :=
  let mp := home d ++ ["mnt"; id] in
  let rootFs := mp ++ ["rootfs"] in
  r <- try (MkdirAllAs rootFs mode_0755 uid gid) ;;
  match r with
  | Err e =>
      if negb (IsExist e) then
        try (UnmountDevice id) ;;; fail e
      else ret tt
  | Ok _ => ret tt
  end ;;;
  let idFile := mp ++ ["id"] in
  st <- try (Stat idFile) ;;
  match st with
  | Err e =>
      if IsNotExist e then
        r <- try (WriteFile idFile id mode_0600) ;;
        match r with
        | Err e' => try (UnmountDevice id) ;;; fail e'
        | Ok _ => ret tt
        end
      else ret tt
  | Ok _ => ret tt
  end ;;;
  ret rootFs.

Definition Put (d : Driver) (id : string) : M W unit :=
  UnmountDevice id.

Definition Exists (d : Driver) (id : string) : W -> bool * W :=
  HasDevice id.

End driver.

Definition tracedDeviceSet {W : Type} (D : DeviceSet W) : DeviceSet (traced W) := {|
  AddDevice id parent := logged (CallAddDevice id parent) (AddDevice id parent);
  DeleteDevice id := logged (CallDeleteDevice id) (DeleteDevice id);
  HasDevice id := fun s =>
    let (b, w') := HasDevice id (world s) in
    (b, mkTraced w' (calls s ++ [CallHasDevice id]));
  MountDevice id mp l := logged (CallMountDevice id mp l) (MountDevice id mp l);
  UnmountDevice id := logged (CallUnmountDevice id) (UnmountDevice id)
|}.

(** What the calls [cs] of a run of [Get] that returned [r] look like;
    [mounted a] says that [a] is what [MountDevice] answered to the run. *)
Definition GetOutcome (d : Driver) (id mountLabel : string)
    (mounted : result unit -> Prop) (r : result path) (cs : list call) : Prop :=
  let mp := home d ++ ["mnt"; id] in
  match r with
  | Ok rootFs =>
      rootFs = home d ++ ["mnt"; id; "rootfs"]
      /\ count isMount cs = 1%nat /\ count isUnmount cs = 0%nat
  | Err e =>
      (* the run stopped before the mount *)
      (count isMount cs = 0%nat /\ count isUnmount cs = 0%nat)
      (* the mount itself failed *)
      \/ (count isMount cs = 1%nat /\ count isUnmount cs = 0%nat
          /\ lastCall cs = Some (CallMountDevice id mp mountLabel)
          /\ mounted (Err e))
      (* a step after the mount failed: the device is unmounted, last *)
      \/ (count isMount cs = 1%nat /\ count isUnmount cs = 1%nat
          /\ lastCall cs = Some (CallUnmountDevice id)
          /\ mounted (Ok tt))
  end.

End devmapper.

(** ** A file system in memory

    The host the daemon runs on, for the properties that depend on what the
    calls of package os do: a tree of directories and files with owner and
    permission bits.  The process is root, so no call fails for lack of
    permission; there are no symbolic links. *)

Module memfs.
Import os.

Record attrs : Type := mkAttrs {
  a_mode : Z;
  a_uid : Z;
  a_gid : Z
}.

Inductive node : Type :=
| File (a : attrs) (data : string)
| Dir (a : attrs) (entries : list (string * node)).

Definition nodeAttrs (n : node) : attrs :=
  match n with
  | File a _ => a
  | Dir a _ => a
  end.

Definition isDir (n : node) : bool :=
  match n with
  | File _ _ => false
  | Dir _ _ => true
  end.

(** *** Directory entries *)

Fixpoint assoc (x : string) (es : list (string * node)) : option node :=
  match es with
  | [] => None
  | (y, n) :: rest => if String.eqb x y then Some n else assoc x rest
  end.

(** Replaces the entry named [x] where it stands. *)
Fixpoint setEntry (x : string) (n : node) (es : list (string * node))
  : list (string * node) :=
  match es with
  | [] => []
  | (y, m) :: rest =>
      if String.eqb x y then (y, n) :: rest else (y, m) :: setEntry x n rest
  end.

Definition delEntry (x : string) (es : list (string * node))
  : list (string * node) :=
  filter (fun e => negb (String.eqb x (fst e))) es.

Definition names (es : list (string * node)) : list string := map fst es.

(** *** Walking the tree *)

(** The node a path leads to. *)
Fixpoint lookup (p : path) (n : node) : result node :=
  match p with
  | [] => Ok n
  | x :: q =>
      match n with
      | File _ _ => Err (Errno ENOTDIR)
      | Dir _ es =>
          match assoc x es with
          | None => Err (Errno ENOENT)
          | Some c => lookup q c
          end
      end
  end.

(** The tree with the node a path leads to replaced by what [f] makes of
    it. *)
Fixpoint update (p : path) (f : node -> result node) (n : node) : result node :=
  match p with
  | [] => f n
  | x :: q =>
      match n with
      | File _ _ => Err (Errno ENOTDIR)
      | Dir a es =>
          match assoc x es with
          | None => Err (Errno ENOENT)
          | Some c =>
              match update q f c with
              | Ok c' => Ok (Dir a (setEntry x c' es))
              | Err e => Err e
              end
          end
      end
  end.

(** A path split into its directory and its last component. *)
Fixpoint unsnoc (p : path) : option (path * string) :=
  match p with
  | [] => None
  | [x] => Some ([], x)
  | x :: q =>
      match unsnoc q with
      | Some (d, l) => Some (x :: d, l)
      | None => None
      end
  end.

Fixpoint isPrefix (p q : path) : bool :=
  match p, q with
  | [], _ => true
  | x :: p', y :: q' => String.eqb x y && isPrefix p' q'
  | _ :: _, [] => false
  end.

Fixpoint path_eqb (p q : path) : bool :=
  match p, q with
  | [], [] => true
  | x :: p', y :: q' => String.eqb x y && path_eqb p' q'
  | _, _ => false
  end.

(** The tree with [c] at the end of the path [p], for a path that leads
    somewhere. *)
Definition plug (p : path) (c : node) (t : node) : node :=
  match update p (fun _ => Ok c) t with
  | Ok t' => t'
  | Err _ => t
  end.

(** What is seen of the node at a path without descending further: its
    attributes, its content if it is a file, the names in it if it is a
    directory. *)
Definition view (p : path) (t : node)
  : result (attrs * option string * list string) :=
  match lookup p t with
  | Err e => Err e
  | Ok (File a data) => Ok (a, Some data, [])
  | Ok (Dir a es) => Ok (a, None, names es)
  end.

(** *** What a call does to the node it reaches *)

Definition mkdirAt (x : string) (a : attrs) (n : node) : result node :=
  match n with
  | File _ _ => Err (Errno ENOTDIR)
  | Dir d es =>
      match assoc x es with
      | Some _ => Err (Errno EEXIST)
      | None => Ok (Dir d (es ++ [(x, Dir a [])]))
      end
  end.

(** chown(2): an id of -1 leaves that id as it is. *)
Definition chownNode (uid gid : Z) (n : node) : result node :=
  let a := nodeAttrs n in
  let a' := mkAttrs (a_mode a)
              (if uid =? -1 then a_uid a else uid)
              (if gid =? -1 then a_gid a else gid) in
  Ok (match n with
      | File _ data => File a' data
      | Dir _ es => Dir a' es
      end).

Definition chmodNode (mode : Z) (n : node) : result node :=
  let a := nodeAttrs n in
  let a' := mkAttrs mode (a_uid a) (a_gid a) in
  Ok (match n with
      | File _ data => File a' data
      | Dir _ es => Dir a' es
      end).

Definition removeAt (x : string) (n : node) : result node :=
  match n with
  | File _ _ => Err (Errno ENOTDIR)
  | Dir d es => Ok (Dir d (delEntry x es))
  end.

(** Puts [src] under the name [x], over what is there if rename(2) allows
    it. *)
Definition placeAt (x : string) (src : node) (n : node) : result node :=
  match n with
  | File _ _ => Err (Errno ENOTDIR)
  | Dir d es =>
      match assoc x es with
      | None => Ok (Dir d (es ++ [(x, src)]))
      | Some (File _ _) =>
          if isDir src then Err (Errno ENOTDIR) else Ok (Dir d (setEntry x src es))
      | Some (Dir _ []) =>
          if isDir src then Ok (Dir d (setEntry x src es)) else Err (Errno EISDIR)
      | Some (Dir _ (_ :: _)) =>
          if isDir src then Err (Errno ENOTEMPTY) else Err (Errno EISDIR)
      end
  end.

Definition writeAt (x : string) (a : attrs) (data : string) (n : node)
  : result node :=
  match n with
  | File _ _ => Err (Errno ENOTDIR)
  | Dir d es =>
      match assoc x es with
      | None => Ok (Dir d (es ++ [(x, File a data)]))
      | Some (File old _) => Ok (Dir d (setEntry x (File old data) es))
      | Some (Dir _ _) => Err (Errno EISDIR)
      end
  end.

(** *** The calls, on a tree *)

Definition mkdir (p : path) (a : attrs) (t : node) : result node :=
  match unsnoc p with
  | None => Err (Errno EEXIST)
  | Some (d, x) => update d (mkdirAt x a) t
  end.

(** os.MkdirAll: the directories of the path that are missing are made,
    outermost first; a file on the way is ENOTDIR. *)
Fixpoint mkdirAll (p : path) (a : attrs) (t : node) : result node :=
  match t with
  | File _ _ => Err (Errno ENOTDIR)
  | Dir d es =>
      match p with
      | [] => Ok t
      | x :: q =>
          match assoc x es with
          | Some c =>
              match mkdirAll q a c with
              | Ok c' => Ok (Dir d (setEntry x c' es))
              | Err e => Err e
              end
          | None =>
              match mkdirAll q a (Dir a []) with
              | Ok c' => Ok (Dir d (es ++ [(x, c')]))
              | Err e => Err e
              end
          end
      end
  end.

Definition rename (old new : path) (t : node) : result node :=
  match unsnoc old, unsnoc new with
  | Some (od, ox), Some (nd, nx) =>
      match lookup old t with
      | Err e => Err e
      | Ok src =>
          if path_eqb old new then Ok t
          else if isPrefix old new then Err (Errno EINVAL)
          else
            match update nd (placeAt nx src) t with
            | Err e => Err e
            | Ok t1 => update od (removeAt ox) t1
            end
      end
  | _, _ => Err (Errno EBUSY)
  end.

(** os.RemoveAll: nothing to do, and no error, when the path leads
    nowhere. *)
Definition removeAll (p : path) (t : node) : result node :=
  match unsnoc p with
  | None => Err (Errno EBUSY)
  | Some (d, x) =>
      match lookup p t with
      | Err _ => Ok t
      | Ok _ => update d (removeAt x) t
      end
  end.

Definition writeFile (p : path) (a : attrs) (data : string) (t : node)
  : result node :=
  match unsnoc p with
  | None => Err (Errno EISDIR)
  | Some (d, x) => update d (writeAt x a data) t
  end.

Definition lastName (p : path) : string :=
  match unsnoc p with
  | None => "/"
  | Some (_, x) => x
  end.

Definition infoOf (name : string) (n : node) : FileInfo :=
  let a := nodeAttrs n in
  mkFileInfo name (isDir n) (a_mode a) (a_uid a) (a_gid a).

Definition stat (p : path) (t : node) : result FileInfo :=
  match lookup p t with
  | Err e => Err e
  | Ok n => Ok (infoOf (lastName p) n)
  end.

(** ioutil.ReadDir lists the entries sorted by name. *)
Fixpoint insertByName (i : FileInfo) (l : list FileInfo) : list FileInfo :=
  match l with
  | [] => [i]
  | j :: rest =>
      if String.leb (Name i) (Name j) then i :: l else j :: insertByName i rest
  end.

Definition sortByName (l : list FileInfo) : list FileInfo :=
  fold_right insertByName [] l.

Definition readDir (p : path) (t : node) : result (list FileInfo) :=
  match lookup p t with
  | Err e => Err e
  | Ok (File _ _) => Err (Errno ENOTDIR)
  | Ok (Dir _ es) => Ok (sortByName (map (fun e => infoOf (fst e) (snd e)) es))
  end.

(** *** The migration seen from the directory it happens in *)

(** The renames of [directory.MoveDirToSubdir] for the names [l], on the
    directory itself. *)
Fixpoint localMoves (subdir : string) (l : list string) (c : node) : result node :=
  match l with
  | [] => Ok c
  | x :: rest =>
      if String.eqb x subdir then localMoves subdir rest c
      else
        match rename [x] [subdir; x] c with
        | Ok c1 => localMoves subdir rest c1
        | Err e => Err e
        end
  end.

(** The entries of [es] the names [l] other than [subdir] stand for, in
    the order of [l]. *)
Definition moved (subdir : string) (l : list string) (es : list (string * node))
  : list (string * node) :=
  flat_map
    (fun x =>
       if String.eqb x subdir then []
       else match assoc x es with
            | Some n => [(x, n)]
            | None => []
            end) l.

(** *** The process *)

Record proc : Type := mkProc {
  tree : node;
  euid : Z;
  egid : Z;
  umask : Z
}.

(** The attributes of what the process creates with permission bits
    [mode]. *)
Definition created (w : proc) (mode : Z) : attrs :=
  mkAttrs (Z.ldiff mode (umask w)) (euid w) (egid w).

Definition withTree (w : proc) (t : node) : proc :=
  mkProc t (euid w) (egid w) (umask w).

(** A call that only changes the tree, and leaves it alone when it
    fails. *)
Definition onTree (f : node -> result node) : M proc unit :=
  fun w =>
    match f (tree w) with
    | Ok t' => (Ok tt, withTree w t')
    | Err e => (Err e, w)
    end.

Definition query {A : Type} (f : node -> result A) : M proc A :=
  fun w => (f (tree w), w).

#[export] Instance memOS : OS proc := {|
  Stat p := query (stat p);
  Mkdir p mode := fun w => onTree (mkdir p (created w mode)) w;
  MkdirAll p mode := fun w => onTree (mkdirAll p (created w mode)) w;
  Chown p uid gid := onTree (update p (chownNode uid gid));
  Chmod p mode := onTree (update p (chmodNode mode));
  Rename old new := onTree (rename old new);
  RemoveAll p := onTree (removeAll p);
  ReadDir p := query (readDir p);
  WriteFile p data mode := fun w => onTree (writeFile p (created w mode) data) w
|}.

End memfs.

(** ** pkg/chrootarchive: applying a layer in a child that chroots *)

Module chrootarchive.
Import os memfs.

(** *** What the source takes from elsewhere *)

(** Modelled from the spec: [archive.TarOptions] is missing; the spec gives
    it the field of exclude patterns. *)
Record TarOptions : Type := mkTarOptions {
  ExcludePatterns : slice string
}.

(** Modelled from the spec: the archive stream is missing.  An entry has
    its name as the archive spells it, its permission bits, and is a
    regular file with its content or a directory. *)
Inductive entryBody : Type :=
| RegularFile (data : string)
| Directory.

Record entry : Type := mkEntry {
  entryName : string;
  entryMode : Z;
  body : entryBody
}.

(** A stream as ApplyLayer receives it: an archive, an archive in the
    compression envelope, or bytes that are neither. *)
Inductive ArchiveReader : Type :=
| Plain (es : list entry)
| Compressed (es : list entry)
| Garbled.

(** Modelled from the spec: [archive.DecompressStream] is missing; it
    opens the compression envelope and passes an uncompressed stream
    through. *)
Definition DecompressStream (layer : ArchiveReader) : result (list entry) :=
  match layer with
  | Plain es => Ok es
  | Compressed es => Ok es
  | Garbled => Err (ErrOther "unsupported archive stream")
  end.

Record applyLayerResponse : Type := mkApplyLayerResponse {
  LayerSize : Z
}.

(** The child process: a process of the host whose paths start at the
    directory [jail], with the environment variables the source reads and
    writes.  What json.Marshal writes into OPT is kept as the value
    json.Unmarshal reads back from it. *)
Record child : Type := mkChild {
  process : proc;
  jail : path;
  OPT : option TarOptions;
  TMPDIR : option path
}.

(** Name resolution below the root of a process: "." and the empty
    component stay, ".." goes up and stays at the root. *)
Fixpoint resolveFrom (acc : path) (p : list string) : path :=
  match p with
  | [] => acc
  | x :: rest =>
      if String.eqb x "" || String.eqb x "." then resolveFrom acc rest
      else if String.eqb x ".." then resolveFrom (removelast acc) rest
      else resolveFrom (acc ++ [x]) rest
  end.

Definition resolve (p : list string) : path := resolveFrom [] p.

(** A call of the child on a path: the call of the file system in memory
    on the directory the child is confined to. *)
Definition inJail (f : proc -> node -> result node) : M child unit :=
  fun c =>
    match update (jail c) (f (process c)) (tree (process c)) with
    | Ok t' =>
        (Ok tt, mkChild (withTree (process c) t') (jail c) (OPT c) (TMPDIR c))
    | Err e => (Err e, c)
    end.

Definition askJail {A : Type} (f : node -> result A) : M child A :=
  fun c =>
    (match lookup (jail c) (tree (process c)) with
     | Ok n => f n
     | Err e => Err e
     end, c).

#[export] Instance childOS : OS child := {|
  Stat p := askJail (stat (resolve p));
  Mkdir p mode := inJail (fun w => mkdir (resolve p) (created w mode));
  MkdirAll p mode := inJail (fun w => mkdirAll (resolve p) (created w mode));
  Chown p uid gid := inJail (fun _ => update (resolve p) (chownNode uid gid));
  Chmod p mode := inJail (fun _ => update (resolve p) (chmodNode mode));
  Rename old new := inJail (fun _ => rename (resolve old) (resolve new));
  RemoveAll p := inJail (fun _ => removeAll (resolve p));
  ReadDir p := askJail (readDir (resolve p));
  WriteFile p data mode :=
    inJail (fun w => writeFile (resolve p) (created w mode) data)
|}.

(** Modelled from the spec: [chroot] of this package is missing; it makes
    the directory the root of the process and "/" its working directory,
    and fails if the directory cannot be entered. *)
Definition chroot (p : path) : M child unit :=
  fun c =>
    let target := jail c ++ resolve p in
    match lookup target (tree (process c)) with
    | Ok (Dir _ _) => (Ok tt, mkChild (process c) target (OPT c) (TMPDIR c))
    | Ok (File _ _) => (Err (Errno ENOTDIR), c)
    | Err e => (Err e, c)
    end.

(** syscall.Umask: sets the mask, returns the old one. *)
Definition Umask (mask : Z) : M child Z :=
  fun c =>
    let w := process c in
    (Ok (umask w),
     mkChild (mkProc (tree w) (euid w) (egid w) mask) (jail c) (OPT c) (TMPDIR c)).

Definition Setenv_TMPDIR (dir : path) : M child unit :=
  fun c => (Ok tt, mkChild (process c) (jail c) (OPT c) (Some dir)).

Definition Getenv_OPT : M child (option TarOptions) :=
  fun c => (Ok (OPT c), c).

Section applyLayer.

(** The names ioutil.TempDir draws, in the order it tries them. *)
Variable randomNames : list string.

(** ioutil.TempDir: the first drawn name that is not taken. *)
Fixpoint tryTempDir (dir : path) (prefix : string) (draws : list string)
  : M child path :=
  match draws with
  | [] => fail (Errno EEXIST)
  | suffix :: rest =>
      let name := dir ++ [(prefix ++ suffix)%string] in
      r <- try (Mkdir name mode_0700) ;;
      match r with
      | Ok _ => ret name
      | Err e => if IsExist e then tryTempDir dir prefix rest else fail e
      end
  end.

Definition TempDir (dir : path) (prefix : string) : M child path :=
  tryTempDir dir prefix randomNames.

(** Modelled from the spec: [archive.UnpackLayer] is missing; it unpacks
    the entries under the root path it is given, the names taken as the
    archive spells them, and returns the bytes unpacked.  The directory of
    a regular file is made when it is missing. *)
Fixpoint unpackEntries (dest : path) (es : list entry) (size : Z) : M child Z :=
  match es with
  | [] => ret size
  | e :: rest =>
      let target := dest ++ strings.Split (entryName e) "/" in
      n <- match body e with
           | Directory =>
               unlessExists (MkdirAll target (entryMode e)) ;;; ret 0
           | RegularFile data =>
               unlessExists (MkdirAll (removelast target) mode_0755) ;;;
               WriteFile target data (entryMode e) ;;;
               ret (Z.of_nat (String.length data))
           end ;;
      unpackEntries dest rest (size + n)
  end.

Definition UnpackLayer (dest : path) (layer : list entry) (options : TarOptions)
  : M child Z :=
  unpackEntries dest layer 0.

(** The child.  [fatal(err)] is the error of the computation: the child
    exits with a status other than 0 and [err] on its standard error; a
    result is the response the child writes to its standard output before
    it exits with status 0. *)
Definition applyLayer (arg0 : path) (stdin : list entry)
  : M child applyLayerResponse :=
  opt <- Getenv_OPT ;;
  options <- match opt with
             | Some o => ret o
             | None => fail (ErrOther "unexpected end of JSON input")
             end ;;
  chroot arg0 ;;;
  (* We need to be able to set any perms *)
  _ <- Umask 0 ;;
  tmpDir <- TempDir [] "temp-docker-extract" ;;
  Setenv_TMPDIR tmpDir ;;;
  r <- try (UnpackLayer [] stdin options) ;;
  try (RemoveAll tmpDir) ;;;
  match r with
  | Err e => fail e
  | Ok size => ret (mkApplyLayerResponse size)
  end.

(** Modelled from the spec: [reexec.Command] and [cmd.Run] are missing;
    the command is this program started again as a child with the given
    argument, environment and standard input, on the file system of the
    host.  The parent waits, and takes the file system as the child left
    it. *)
Definition Run (arg0 : path) (env : option TarOptions) (stdin : list entry)
  : M proc applyLayerResponse :=
  fun w =>
    let (r, c) := applyLayer arg0 stdin (mkChild w [] env None) in
    (r, withTree w (tree (process c))).

Definition ApplyLayer (dest : path) (layer : ArchiveReader)
    (options : option TarOptions) : M proc Z :=
  let dest := resolve dest in
  decompressed <- liftR (DecompressStream layer) ;;
  let options :=
    match options with
    | None => mkTarOptions None
    | Some o => o
    end in
  let options :=
    match ExcludePatterns options with
    | None => mkTarOptions (Some [])
    | Some _ => options
    end in
  r <- try (Run dest (Some options) decompressed) ;;
  match r with
  | Err e => fail (ErrApplyLayer e "" "")
  | Ok response => ret (LayerSize response)
  end.

End applyLayer.

(** The child after its chroot into [dest], on a host whose tree is [t0]
    but for the directory [cur] at [dest]. *)
Definition jailed (dest : path) (t0 : node) (eu eg um : Z)
    (o : option TarOptions) (cur : node) (tm : option path) : child :=
  mkChild (mkProc (plug dest cur t0) eu eg um) dest o tm.

(** A name that name resolution takes as it is. *)
Definition plainName (x : string) : bool :=
  negb (String.eqb x "" || String.eqb x "." || String.eqb x "..").

(** The child stays where it is confined to and changes nothing a path
    from outside can see. *)
Definition confined {A : Type} (m : M child A) : Prop :=
  forall c r c',
    m c = (r, c') ->
    jail c' = jail c
    /\ forall q, isPrefix (jail c) q = false ->
                 view q (tree (process c')) = view q (tree (process c)).

(** The child is confined to a directory, and a computation leaves it
    so. *)
Definition jailIsDir (c : child) : Prop :=
  exists a es, lookup (jail c) (tree (process c)) = Ok (Dir a es).

Definition keepsJail {A : Type} (m : M child A) : Prop :=
  forall c r c',
    m c = (r, c') -> jail c' = jail c /\ (jailIsDir c -> jailIsDir c').

End chrootarchive.

(** ** The daemon root on the file system in memory *)

Module layout.
Import os memfs daemon.

(** The name of the subdirectory [setupDaemonRoot] settles on. *)
Definition nsName (cfg : Config) (uid gid : Z) : string :=
  if negb (String.eqb (RemappedRoot cfg) "")
  then (itoa uid ++ "." ++ itoa gid)%string else "0.0".

(** A node after chown(2). *)
Definition chowned (uid gid : Z) (n : node) : node :=
  match chownNode uid gid n with Ok n' => n' | Err _ => n end.

(** The names [ioutil.ReadDir] lists for a directory with the entries [es]. *)
Definition listing (es : list (string * node)) : list string :=
  map Name (sortByName (map (fun e => infoOf (fst e) (snd e)) es)).

(** [MkdirAllAs] of the name [ns], seen from the directory it is made in. *)
Definition withNsRoot (ns : string) (a0 : attrs) (uid gid : Z) (c : node)
  : result node :=
  match mkdirAll [ns] a0 c with
  | Err e => Err e
  | Ok c1 =>
      match lookup [ns] c1 with
      | Err e => Err e
      | Ok n => Ok (plug [ns] (chowned uid gid n) c1)
      end
  end.

(** The names in the root directory after a run. *)
Definition nsNames (ns : string) : list string :=
  "0.0" :: (if String.eqb ns "0.0" then [] else [ns]).

(** Two paths none of which leads through the other. *)
Definition apart (p q : path) : Prop :=
  isPrefix p q = false /\ isPrefix q p = false.

(** A computation of the daemon that leaves alone what is apart from the
    path [p]. *)
Definition leavesApart {A : Type} (p : path) (m : M (daemonState proc) A) : Prop :=
  forall s r s',
    m s = (r, s') ->
    forall q, apart p q -> lookup q (tree (host s')) = lookup q (tree (host s)).

End layout.

(** ** Sample inputs *)

Module Samples.

(** Lookups that know one user and one group, both under a
    numeric name, so that a lookup tried first would be seen. *)
Definition sampleLookupUser (name : string) : result Z :=
  if String.eqb name "1000" then Ok 7 else Err (ErrNoSuchUser name).

Definition sampleLookupGroup (name : string) : result Z :=
  if String.eqb name "2000" then Ok 8 else Err (ErrNoSuchGroup name).

(** The files /etc/passwd and /etc/group of a host, and the lookups on
    them. *)
Definition samplePasswd : list daemon.config_go.User :=
  [ daemon.config_go.mkUser "root" 0; daemon.config_go.mkUser "dockremap" 1000 ].

Definition sampleGroups : list daemon.config_go.Group :=
  [ daemon.config_go.mkGroup "root" 0; daemon.config_go.mkGroup "docker" 999;
    daemon.config_go.mkGroup "dockremap" 1001 ].

Definition fileLookup {A : Type} (entries : list A) (name : A -> string) (id : A -> Z)
    (missing : string -> error) (x : string) : result Z :=
  match filter (fun e => String.eqb (name e) x) entries with
  | e :: _ => Ok (id e)
  | [] => Err (missing x)
  end.

Definition passwdLookupUser : string -> result Z :=
  fileLookup samplePasswd daemon.config_go.Name daemon.config_go.Uid ErrNoSuchUser.

Definition groupLookupGroup : string -> result Z :=
  fileLookup sampleGroups daemon.config_go.GName daemon.config_go.Gid ErrNoSuchGroup.

(** A host with a flat daemon root /var/lib/docker holding the file [a]
    and the directory [b], run by root with umask 022. *)
Definition rootAttrs : memfs.attrs := memfs.mkAttrs os.mode_0755 0 0.

Definition flatRoot : list (string * memfs.node) :=
  [ ("b", memfs.Dir rootAttrs [("x", memfs.File rootAttrs "hi")]);
    ("a", memfs.File rootAttrs "A") ].

Definition sampleTree : memfs.node :=
  memfs.Dir rootAttrs
    [ ("var",
       memfs.Dir rootAttrs
         [("lib",
           memfs.Dir rootAttrs
             [("docker", memfs.Dir (memfs.mkAttrs os.mode_0700 0 0) flatRoot)])]);
      ("etc", memfs.Dir rootAttrs []) ].

Definition sampleHost : memfs.proc := memfs.mkProc sampleTree 0 0 18.

(** The same host after the migration of its daemon root. *)
Definition migratedHost : memfs.proc :=
  memfs.mkProc
    (memfs.Dir rootAttrs
       [ ("var",
          memfs.Dir rootAttrs
            [("lib",
              memfs.Dir rootAttrs
                [("docker",
                  memfs.Dir rootAttrs
                    [("0.0", memfs.Dir (memfs.mkAttrs os.mode_0700 0 0) flatRoot)])])]);
         ("etc", memfs.Dir rootAttrs []) ])
    0 0 18.

(** A host whose daemon root holds the directory [b], the subdirectory
    [0.0] with the file [old] in it, and the file [a], in this order. *)
Definition startedHost : memfs.proc :=
  memfs.mkProc
    (memfs.Dir rootAttrs
       [ ("var",
          memfs.Dir rootAttrs
            [("lib",
              memfs.Dir rootAttrs
                [("docker",
                  memfs.Dir rootAttrs
                    [ ("b", memfs.Dir rootAttrs [("x", memfs.File rootAttrs "hi")]);
                      ("0.0",
                       memfs.Dir (memfs.mkAttrs os.mode_0700 0 0)
                         [("old", memfs.File rootAttrs "O")]);
                      ("a", memfs.File rootAttrs "A") ])])]);
         ("etc", memfs.Dir rootAttrs []) ])
    0 0 18.

Definition unmapped : daemon.Config :=
  daemon.mkConfig [] "native" "".

Definition remapped : daemon.Config :=
  daemon.mkConfig [] "native" "1000:1000".

(** A host with a device set: the devices it knows and the mounts that
    are active, most recent first. *)
Record deviceHost : Type := mkDeviceHost {
  files : memfs.proc;
  devices : list string;
  mounts : list string
}.

Definition hasDevice (id : string) (h : deviceHost) : bool :=
  existsb (String.eqb id) (devices h).

Definition removeOne (id : string) (l : list string) : list string :=
  filter (fun x => negb (String.eqb id x)) l.

Definition sampleOS : os.OS deviceHost :=
  os.zoomOS files (fun h f => mkDeviceHost f (devices h) (mounts h)) memfs.memOS.

Definition sampleDeviceSet : devmapper.DeviceSet deviceHost := {|
  devmapper.AddDevice id parent := fun h =>
    (Ok tt, mkDeviceHost (files h) (id :: devices h) (mounts h));
  devmapper.DeleteDevice id := fun h =>
    if hasDevice id h
    then (Ok tt, mkDeviceHost (files h) (removeOne id (devices h)) (mounts h))
    else (Err (ErrOther "unknown device"), h);
  devmapper.HasDevice id := fun h => (hasDevice id h, h);
  devmapper.MountDevice id mp mountLabel := fun h =>
    if hasDevice id h
    then (Ok tt, mkDeviceHost (files h) (devices h) (id :: mounts h))
    else (Err (ErrOther "unknown device"), h);
  devmapper.UnmountDevice id := fun h =>
    (Ok tt, mkDeviceHost (files h) (devices h) (removeOne id (mounts h)))
|}.

Definition sampleDriver : devmapper.Driver :=
  devmapper.mkDriver ["var"; "lib"; "docker"] None None.

(** A host on which the driver has mounted the devices [layer1] and
    [layer2] before: each has its mountpoint below /var/lib/docker/mnt,
    with the directory rootfs and the file id in it. *)
Definition mountpoint (id : string) : memfs.node :=
  memfs.Dir rootAttrs
    [ ("rootfs", memfs.Dir rootAttrs [("bin", memfs.Dir rootAttrs [])]);
      ("id", memfs.File (memfs.mkAttrs os.mode_0600 0 0) id) ].

Definition usedTree : memfs.node :=
  memfs.Dir rootAttrs
    [ ("var",
       memfs.Dir rootAttrs
         [("lib",
           memfs.Dir rootAttrs
             [("docker",
               memfs.Dir (memfs.mkAttrs os.mode_0700 0 0)
                 [ ("mnt",
                    memfs.Dir rootAttrs
                      [ ("layer1", mountpoint "layer1");
                        ("layer2", mountpoint "layer2") ]);
                   ("a", memfs.File rootAttrs "A") ])])]);
      ("etc", memfs.Dir rootAttrs []) ].

Definition usedHost : deviceHost :=
  mkDeviceHost (memfs.mkProc usedTree 0 0 18) ["layer1"; "layer2"] [].

Definition sampleDeviceHost : tracing.traced deviceHost :=
  tracing.mkTraced (mkDeviceHost sampleHost ["layer1"] []) [].

End Samples.

(** * Properties *)

(** ** Go integers *)

Module GoIntFacts.
Import GoInt.

Lemma wrap_small (z : Z) : is_int z -> wrap z = z.
Proof.
  unfold is_int, min_int, max_int, wrap. intros H.
  change (2 ^ 63) with 9223372036854775808.
  change (2 ^ 64) with 18446744073709551616.
  rewrite Z.mod_small by lia. lia.
Qed.

Lemma add_small (a b : Z) : is_int (a + b) -> add a b = a + b.
Proof. apply wrap_small. Qed.

Lemma sub_small (a b : Z) : is_int (a - b) -> sub a b = a - b.
Proof. apply wrap_small. Qed.

Lemma wrap_is_int (z : Z) : is_int (wrap z).
Proof.
  unfold is_int, min_int, max_int, wrap.
  change (2 ^ 63) with 9223372036854775808.
  change (2 ^ 64) with 18446744073709551616.
  pose proof (Z.mod_pos_bound (z + 9223372036854775808) 18446744073709551616).
  lia.
Qed.

End GoIntFacts.

(** Normalises the wrapping arithmetic whose operands stay inside [int]. *)
Ltac int_bounds :=
unfold GoInt.is_int, GoInt.min_int, GoInt.max_int, GoInt.MaxInt32 in *; lia.

Ltac int_norm :=
repeat match goal with
| |- context [GoInt.add ?a ?b] => rewrite (GoIntFacts.add_small a b) by int_bounds
| |- context [GoInt.sub ?a ?b] => rewrite (GoIntFacts.sub_small a b) by int_bounds
end.

(** Decides the interval tests of the translation loops. *)
Ltac range_test :=
repeat match goal with
| |- context [?a >=? ?b] => rewrite (Z.geb_leb a b)
| |- context [?a <=? ?b] => destruct (Z.leb_spec a b)
end; cbn [andb]; try lia.

(** ** The id-map table *)

Module idtoolsFacts.
Import GoInt idtools.

Lemma createIDMap_ranges (id : Z) :
  in_remap_domain id ->
  createIDMap id =
    Some [ mkIDMap 0 id 1; mkIDMap 1 1 (id - 1);
           mkIDMap (id + 1) (id + 1) (MaxInt32 - id) ].
Proof.
  unfold in_remap_domain, createIDMap. intros H. int_norm. reflexivity.
Qed.

Lemma toHost_root (id : Z) :
  in_remap_domain id -> TranslateIDToHost 0 (createIDMap id) = Ok id.
Proof.
  intros H. rewrite createIDMap_ranges by assumption.
  unfold in_remap_domain in H. cbn. int_norm. f_equal. lia.
Qed.

Lemma toHost_identity (id c : Z) :
  in_remap_domain id -> 1 <= c <= MaxInt32 -> c <> id ->
  TranslateIDToHost c (createIDMap id) = Ok c.
Proof.
  intros H Hc Hne. rewrite createIDMap_ranges by assumption.
  unfold in_remap_domain, MaxInt32 in *.
  cbn [TranslateIDToHost scanToHost ContainerID HostID Size].
  int_norm. range_test; f_equal; lia.
Qed.

Lemma toContainer_root (id : Z) :
  in_remap_domain id -> TranslateIDToContainer id (createIDMap id) = Ok 0.
Proof.
  intros H. rewrite createIDMap_ranges by assumption.
  unfold in_remap_domain in H.
  cbn [TranslateIDToContainer scanToContainer ContainerID HostID Size].
  int_norm. range_test; f_equal; lia.
Qed.

Lemma toContainer_identity (id h : Z) :
  in_remap_domain id -> 1 <= h <= MaxInt32 -> h <> id ->
  TranslateIDToContainer h (createIDMap id) = Ok h.
Proof.
  intros H Hh Hne. rewrite createIDMap_ranges by assumption.
  unfold in_remap_domain, MaxInt32 in *.
  cbn [TranslateIDToContainer scanToContainer ContainerID HostID Size].
  int_norm. range_test; f_equal; lia.
Qed.

(** The container ids some range of the root-remap table covers. *)
Lemma covered_createIDMap (id c : Z) :
  in_remap_domain id ->
  covered c (createIDMap id) = true ->
  c = 0 \/ (1 <= c <= MaxInt32 /\ c <> id) \/ (1 <= c < id).
Proof.
  intros H. rewrite createIDMap_ranges by assumption.
  unfold in_remap_domain, MaxInt32, covered, covers in *.
  cbn [existsb ContainerID Size]. int_norm.
  range_test; cbn; intros; try discriminate; lia.
Qed.

Lemma toHost_below (id c : Z) :
  in_remap_domain id -> 1 <= c < id ->
  TranslateIDToHost c (createIDMap id) = Ok c.
Proof.
  intros H Hc. rewrite createIDMap_ranges by assumption.
  unfold in_remap_domain in *.
  cbn [TranslateIDToHost scanToHost ContainerID HostID Size].
  int_norm. range_test; f_equal; lia.
Qed.

Lemma toContainer_below (id h : Z) :
  in_remap_domain id -> 1 <= h < id ->
  TranslateIDToContainer h (createIDMap id) = Ok h.
Proof.
  intros H Hh. rewrite createIDMap_ranges by assumption.
  unfold in_remap_domain in *.
  cbn [TranslateIDToContainer scanToContainer ContainerID HostID Size].
  int_norm. range_test; f_equal; lia.
Qed.

Lemma roundtrip_createIDMap (id c : Z) :
  in_remap_domain id ->
  covered c (createIDMap id) = true ->
  exists h, TranslateIDToHost c (createIDMap id) = Ok h
            /\ TranslateIDToContainer h (createIDMap id) = Ok c.
Proof.
  intros H Hc.
  destruct (covered_createIDMap id c H Hc) as [-> | [[Hr Hne] | Hr]].
  - exists id. split; [apply toHost_root | apply toContainer_root]; assumption.
  - exists c. split; [apply toHost_identity | apply toContainer_identity]; assumption.
  - exists c. split; [apply toHost_below | apply toContainer_below]; assumption.
Qed.

Lemma toHost_self_unmappable (id : Z) :
  in_remap_domain id ->
  TranslateIDToHost id (createIDMap id) = Err (ErrContainerIDUnmappable id).
Proof.
  intros H. rewrite createIDMap_ranges by assumption.
  unfold in_remap_domain, MaxInt32 in *.
  cbn [TranslateIDToHost scanToHost ContainerID HostID Size].
  int_norm. range_test; reflexivity.
Qed.

Lemma toContainer_zero_unmappable (id : Z) :
  in_remap_domain id ->
  TranslateIDToContainer 0 (createIDMap id) = Err (ErrHostIDUnmappable 0).
Proof.
  intros H. rewrite createIDMap_ranges by assumption.
  unfold in_remap_domain, MaxInt32 in *.
  cbn [TranslateIDToContainer scanToContainer ContainerID HostID Size].
  int_norm. range_test; reflexivity.
Qed.

Lemma self_not_covered (id : Z) :
  in_remap_domain id ->
  covered id (createIDMap id) = false /\ coveredHost 0 (createIDMap id) = false.
Proof.
  intros H. rewrite createIDMap_ranges by assumption.
  unfold in_remap_domain, MaxInt32, covered, coveredHost, covers, coversHost in *.
  cbn [existsb ContainerID HostID Size]. int_norm.
  split; range_test; reflexivity.
Qed.

Lemma CreateIDMapsForRoot_ok (uid gid : Z) :
  1 <= uid -> 1 <= gid ->
  CreateIDMapsForRoot uid gid = Ok (createIDMap uid, createIDMap gid).
Proof.
  intros Hu Hg. unfold CreateIDMapsForRoot.
  destruct (Z.ltb_spec uid 1); [lia |].
  destruct (Z.ltb_spec gid 1); [lia | reflexivity].
Qed.

Lemma CreateIDMapsForRoot_inv (uid gid : Z) (um gm : slice IDMap) :
  CreateIDMapsForRoot uid gid = Ok (um, gm) ->
  1 <= uid /\ 1 <= gid /\ um = createIDMap uid /\ gm = createIDMap gid.
Proof.
  unfold CreateIDMapsForRoot.
  destruct (Z.ltb_spec uid 1); [discriminate |].
  destruct (Z.ltb_spec gid 1); [discriminate |].
  cbn. intros E. injection E as <- <-. auto.
Qed.

(** A scan that no range accepts ends in the loop's final error. *)
Lemma scanToHost_none (c : Z) (ms : list IDMap) :
  existsb (fun m => covers m c) ms = false ->
  scanToHost c ms = Err (ErrContainerIDUnmappable c).
Proof.
  induction ms as [| m ms IH]; cbn; [reflexivity |].
  unfold covers at 1. intros E. apply orb_false_iff in E as [E1 E2].
  rewrite E1. auto.
Qed.

Lemma scanToContainer_none (h : Z) (ms : list IDMap) :
  existsb (fun m => coversHost m h) ms = false ->
  scanToContainer h ms = Err (ErrHostIDUnmappable h).
Proof.
  induction ms as [| m ms IH]; cbn; [reflexivity |].
  unfold coversHost at 1. intros E. apply orb_false_iff in E as [E1 E2].
  rewrite E1. auto.
Qed.

Lemma createIDMap_no_overlap (id c : Z) :
  in_remap_domain id ->
  (List.length (filter (fun m => covers m c) (ranges (createIDMap id))) <= 1)%nat.
Proof.
  intros H. rewrite createIDMap_ranges by assumption.
  unfold in_remap_domain, MaxInt32, covers in *.
  cbn [ranges filter ContainerID Size]. int_norm.
  range_test; cbn; lia.
Qed.

Lemma above_MaxInt32_not_covered (id c : Z) :
  in_remap_domain id -> id <= MaxInt32 -> MaxInt32 < c ->
  covered c (createIDMap id) = false.
Proof.
  intros H Hid Hc. rewrite createIDMap_ranges by assumption.
  unfold in_remap_domain, MaxInt32, covered, covers in *.
  cbn [existsb ContainerID Size]. int_norm.
  range_test; reflexivity.
Qed.

(** C1 (as amended): for every uid >= 1 and gid >= 1 (below the largest
    int), CreateIDMapsForRoot builds for each of them the three ranges
    {0, id, 1}, {1, 1, id-1}, {id+1, id+1, MaxInt32-id}; container id 0
    translates to id, every container id c with 1 <= c <= 2^31-1 other
    than id itself translates to c, and no container id lies in two
    ranges.  The container id equal to id has no range, and for an id
    up to 2^31-1 no container id above 2^31-1 has one. *)
Theorem CreateIDMapsForRoot_table (uid gid : Z) :
  in_remap_domain uid -> in_remap_domain gid ->
  exists uidMap gidMap,
    CreateIDMapsForRoot uid gid = Ok (uidMap, gidMap)
    /\ remaps_root_to uid uidMap /\ remaps_root_to gid gidMap.
Proof.
  intros Hu Hg. exists (createIDMap uid), (createIDMap gid).
  split; [apply CreateIDMapsForRoot_ok; unfold in_remap_domain in *; lia |].
  split; (split; [apply createIDMap_ranges; assumption |]);
    (split; [apply toHost_root; assumption |]);
    (split; [intros c Hc Hne; apply toHost_identity; assumption |]);
    (split; [intros c; apply createIDMap_no_overlap; assumption |]);
    (split; [apply self_not_covered; assumption |]);
    intros Hid c Hc; apply above_MaxInt32_not_covered; assumption.
Qed.

Lemma CreateIDMapsForRoot_table_witness :
  exists uidMap gidMap,
    CreateIDMapsForRoot 1000 2000 = Ok (uidMap, gidMap)
    /\ remaps_root_to 1000 uidMap /\ remaps_root_to 2000 gidMap.
Proof.
  apply (CreateIDMapsForRoot_table 1000 2000);
    unfold in_remap_domain, max_int; lia.
Defined.

(** C1 as the specification words it fails on the code: the third range
    stops at MaxInt32, not at the largest 32-bit unsigned id, and the
    container id equal to the remap target has no range. *)
Lemma CreateIDMapsForRoot_not_total_uint32 :
  exists uidMap gidMap,
    CreateIDMapsForRoot 1000 1000 = Ok (uidMap, gidMap)
    /\ uidMap <> Some [ mkIDMap 0 1000 1; mkIDMap 1 1 999;
                        mkIDMap 1001 1001 (MaxUint32 - 1000) ]
    /\ TranslateIDToHost 1000 uidMap <> Ok 1000
    /\ TranslateIDToHost MaxUint32 uidMap <> Ok MaxUint32
    /\ TranslateIDToHost 1000 gidMap <> Ok 1000.
Proof.
  exists (createIDMap 1000), (createIDMap 1000).
  repeat split; vm_compute; discriminate.
Qed.

(** C3 (as amended): on the nil table both translations return their
    input; on every allocated table, the one of length 0 included, an id
    that no range covers fails with the loop's unmappable-id error. *)
Theorem Translate_nil_identity_else_unmappable (id : Z) (idMap : slice IDMap) :
  (idMap = None ->
     TranslateIDToHost id idMap = Ok id
     /\ TranslateIDToContainer id idMap = Ok id)
  /\ (idMap <> None -> covered id idMap = false ->
       TranslateIDToHost id idMap = Err (ErrContainerIDUnmappable id))
  /\ (idMap <> None -> coveredHost id idMap = false ->
       TranslateIDToContainer id idMap = Err (ErrHostIDUnmappable id)).
Proof.
  destruct idMap as [ms |]; cbn.
  - split; [discriminate |].
    split; intros _; [apply scanToHost_none | apply scanToContainer_none].
  - split; [auto |]. split; intros H; contradiction H; reflexivity.
Qed.

Lemma Translate_nil_identity_else_unmappable_witness :
  (TranslateIDToHost 7 None = Ok 7 /\ TranslateIDToContainer 7 None = Ok 7)
  /\ TranslateIDToHost 1000 (createIDMap 1000)
      = Err (ErrContainerIDUnmappable 1000)
  /\ TranslateIDToContainer 0 (createIDMap 1000) = Err (ErrHostIDUnmappable 0).
Proof.
  split; [| split].
  - apply (proj1 (Translate_nil_identity_else_unmappable 7 None)). reflexivity.
  - apply (proj1 (proj2 (Translate_nil_identity_else_unmappable
                           1000 (createIDMap 1000))));
      [discriminate | reflexivity].
  - apply (proj2 (proj2 (Translate_nil_identity_else_unmappable
                           0 (createIDMap 1000))));
      [discriminate | reflexivity].
Defined.

(** C3 as the specification words it fails on the code: an allocated
    table with no range is not the identity. *)
Lemma Translate_empty_table_not_identity :
  TranslateIDToHost 5 (Some []) = Err (ErrContainerIDUnmappable 5)
  /\ TranslateIDToContainer 5 (Some []) = Err (ErrHostIDUnmappable 5)
  /\ TranslateIDToHost 5 (Some []) <> Ok 5
  /\ TranslateIDToContainer 5 (Some []) <> Ok 5.
Proof. repeat split; discriminate. Qed.

(** C4: for the tables CreateIDMapsForRoot returns and every container
    id some range of the table covers, translating to the host and back
    gives the container id again. *)
Theorem Translate_roundtrip (uid gid : Z) (uidMap gidMap : slice IDMap) (c : Z) :
  in_remap_domain uid -> in_remap_domain gid ->
  CreateIDMapsForRoot uid gid = Ok (uidMap, gidMap) ->
  (covered c uidMap = true ->
     exists h, TranslateIDToHost c uidMap = Ok h
               /\ TranslateIDToContainer h uidMap = Ok c)
  /\ (covered c gidMap = true ->
       exists h, TranslateIDToHost c gidMap = Ok h
                 /\ TranslateIDToContainer h gidMap = Ok c).
Proof.
  intros Hu Hg E.
  apply CreateIDMapsForRoot_inv in E as (_ & _ & -> & ->).
  split; apply roundtrip_createIDMap; assumption.
Qed.

Lemma Translate_roundtrip_witness :
  (exists h, TranslateIDToHost 0 (createIDMap 1000) = Ok h
             /\ TranslateIDToContainer h (createIDMap 1000) = Ok 0)
  /\ (exists h, TranslateIDToHost 70000 (createIDMap 2000) = Ok h
                /\ TranslateIDToContainer h (createIDMap 2000) = Ok 70000).
Proof.
  assert (D1 : in_remap_domain 1000) by (unfold in_remap_domain, max_int; lia).
  assert (D2 : in_remap_domain 2000) by (unfold in_remap_domain, max_int; lia).
  split.
  - apply (proj1 (Translate_roundtrip 1000 2000 (createIDMap 1000)
                    (createIDMap 2000) 0 D1 D2 eq_refl)).
    reflexivity.
  - apply (proj2 (Translate_roundtrip 1000 2000 (createIDMap 1000)
                    (createIDMap 2000) 70000 D1 D2 eq_refl)).
    reflexivity.
Defined.

(** C9: in the tables CreateIDMapsForRoot returns, the container id
    equal to the remap target lies in no range and its translation to
    the host fails, and host id 0 lies in no range and its translation
    to the container fails. *)
Theorem remap_target_and_host_root_unmapped
    (uid gid : Z) (uidMap gidMap : slice IDMap) :
  in_remap_domain uid -> in_remap_domain gid ->
  CreateIDMapsForRoot uid gid = Ok (uidMap, gidMap) ->
  (covered uid uidMap = false
   /\ TranslateIDToHost uid uidMap = Err (ErrContainerIDUnmappable uid)
   /\ coveredHost 0 uidMap = false
   /\ TranslateIDToContainer 0 uidMap = Err (ErrHostIDUnmappable 0))
  /\ (covered gid gidMap = false
      /\ TranslateIDToHost gid gidMap = Err (ErrContainerIDUnmappable gid)
      /\ coveredHost 0 gidMap = false
      /\ TranslateIDToContainer 0 gidMap = Err (ErrHostIDUnmappable 0)).
Proof.
  intros Hu Hg E.
  apply CreateIDMapsForRoot_inv in E as (_ & _ & -> & ->).
  split.
  - destruct (self_not_covered uid Hu) as [A B].
    auto using toHost_self_unmappable, toContainer_zero_unmappable.
  - destruct (self_not_covered gid Hg) as [A B].
    auto using toHost_self_unmappable, toContainer_zero_unmappable.
Qed.

Lemma remap_target_and_host_root_unmapped_witness :
  TranslateIDToHost 9999 (createIDMap 9999) = Err (ErrContainerIDUnmappable 9999)
  /\ TranslateIDToContainer 0 (createIDMap 9999) = Err (ErrHostIDUnmappable 0).
Proof.
  assert (D : in_remap_domain 9999) by (unfold in_remap_domain, max_int; lia).
  pose proof (remap_target_and_host_root_unmapped 9999 9999
                (createIDMap 9999) (createIDMap 9999) D D eq_refl) as H.
  split; [exact (proj1 (proj2 (proj1 H))) | exact (proj2 (proj2 (proj2 (proj1 H))))].
Defined.

(** At the largest int the source's [id + 1] wraps to the smallest int and
    the third range's bounds wrap with it: this is the one uid the domain
    above leaves out. *)
Remark createIDMap_wraps_at_max_int :
  createIDMap max_int
  = Some [ mkIDMap 0 max_int 1; mkIDMap 1 1 (max_int - 1);
           mkIDMap min_int min_int (MaxInt32 - max_int) ]
  /\ TranslateIDToContainer 0 (createIDMap max_int) = Ok 0.
Proof. split; vm_compute; reflexivity. Qed.

End idtoolsFacts.

(** ** The remapped-root option *)

Module daemonFacts.
Import idtools daemon Samples.

Section parse.

Variable LookupUser : string -> result Z.
Variable LookupGroup : string -> result Z.
Variable GOOS : string.

Lemma parse_too_many_parts (usergrp : string) :
  (2 < List.length (strings.Split usergrp ":"))%nat ->
  parseRemappedRoot LookupUser LookupGroup usergrp = Err (ErrInvalidSpec usergrp).
Proof.
  intros H. unfold parseRemappedRoot.
  apply Nat.ltb_lt in H. rewrite H. reflexivity.
Qed.

Lemma parse_numeric_uid (usergrp a : string) (A : Z) :
  strings.Split usergrp ":" = [a] ->
  strconv.ParseInt10 a 32 = Ok A ->
  parseRemappedRoot LookupUser LookupGroup usergrp = Ok (A, A).
Proof.
  intros Hs Ha. unfold parseRemappedRoot. rewrite Hs. cbn.
  rewrite Ha. reflexivity.
Qed.

Lemma parse_numeric_uid_gid (usergrp a b : string) (A B : Z) :
  strings.Split usergrp ":" = [a; b] ->
  strconv.ParseInt10 a 32 = Ok A ->
  strconv.ParseInt10 b 32 = Ok B ->
  parseRemappedRoot LookupUser LookupGroup usergrp = Ok (A, B).
Proof.
  intros Hs Ha Hb. unfold parseRemappedRoot. rewrite Hs. cbn.
  rewrite Ha, Hb. reflexivity.
Qed.

Lemma setup_empty_spec (config : Config) :
  RemappedRoot config = "" ->
  setupRemappedRoot LookupUser LookupGroup GOOS config = Ok (None, None).
Proof.
  intros H. unfold setupRemappedRoot. rewrite H. cbn.
  rewrite !andb_false_r. reflexivity.
Qed.

(** A string of decimal digits with a value up to [MaxInt32] is a number
    for the parse of the source. *)
Lemma ParseInt10_of_unsigned (s : string) (n : Z) :
  strconv.ParseUint10 s 32 = Ok n -> n <= GoInt.MaxInt32 ->
  strconv.ParseInt10 s 32 = Ok n.
Proof.
  unfold strconv.ParseInt10. destruct s as [| c rest]; [discriminate |].
  intros H Hn. cbv zeta.
  assert (Hc : Ascii.eqb c "+" = false /\ Ascii.eqb c "-" = false).
  { unfold strconv.ParseUint10 in H. cbn [strconv.digits] in H.
    destruct (strconv.digit c) eqn:D; [| discriminate].
    split; [destruct (Ascii.eqb_spec c "+") as [-> | _]
           | destruct (Ascii.eqb_spec c "-") as [-> | _]];
      try reflexivity; vm_compute in D; discriminate D. }
  destruct Hc as [-> ->]. cbn [orb negb andb]. rewrite H.
  change (2 ^ (32 - 1)) with 2147483648. rewrite Z.geb_leb.
  destruct (Z.leb_spec 2147483648 n); [unfold GoInt.MaxInt32 in Hn; lia | reflexivity].
Qed.

Lemma parse_empty_spec :
  parseRemappedRoot LookupUser LookupGroup ""
  = match LookupUser "" with
    | Err e => Err (ErrUidLookup "" e)
    | Ok userId =>
        match LookupGroup "" with
        | Err e => Err (ErrGidLookup "" e)
        | Ok groupId => Ok (userId, groupId)
        end
    end.
Proof.
  unfold parseRemappedRoot. cbn.
  destruct (LookupUser ""); [| reflexivity].
  destruct (LookupGroup ""); reflexivity.
Qed.

(** C6 (as amended): with an empty remap option no remap is set up: the
    caller setupRemappedRoot returns nil tables whatever the lookups
    know, and parseRemappedRoot, were it given the empty string, would
    look the empty name up as a user and then as a group.
    parseRemappedRoot rejects an option that splits on ':' into more than
    two pieces as an invalid specification; one piece that is a base-10
    integer A with 0 <= A <= 2^31-1 resolves to (A, A), two pieces that
    are such integers A and B resolve to (A, B); and this holds whatever
    the user and group lookups would answer, the integer parse being
    tried first. *)
Theorem parseRemappedRoot_resolution (config : Config) (usergrp a b : string) (A B : Z) :
  (RemappedRoot config = "" ->
     setupRemappedRoot LookupUser LookupGroup GOOS config = Ok (None, None))
  /\ parseRemappedRoot LookupUser LookupGroup ""
     = match LookupUser "" with
       | Err e => Err (ErrUidLookup "" e)
       | Ok userId =>
           match LookupGroup "" with
           | Err e => Err (ErrGidLookup "" e)
           | Ok groupId => Ok (userId, groupId)
           end
       end
  /\ ((2 < List.length (strings.Split usergrp ":"))%nat ->
      parseRemappedRoot LookupUser LookupGroup usergrp
      = Err (ErrInvalidSpec usergrp))
  /\ (strings.Split usergrp ":" = [a] ->
      strconv.ParseUint10 a 32 = Ok A -> A <= GoInt.MaxInt32 ->
      parseRemappedRoot LookupUser LookupGroup usergrp = Ok (A, A))
  /\ (strings.Split usergrp ":" = [a; b] ->
      strconv.ParseUint10 a 32 = Ok A -> A <= GoInt.MaxInt32 ->
      strconv.ParseUint10 b 32 = Ok B -> B <= GoInt.MaxInt32 ->
      parseRemappedRoot LookupUser LookupGroup usergrp = Ok (A, B)).
Proof.
  split; [apply setup_empty_spec |].
  split; [apply parse_empty_spec |].
  split; [apply parse_too_many_parts |].
  split.
  - intros Hs Ha HA. apply (parse_numeric_uid usergrp a A Hs).
    apply ParseInt10_of_unsigned; assumption.
  - intros Hs Ha HA Hb HB. apply (parse_numeric_uid_gid usergrp a b A B Hs).
    + apply ParseInt10_of_unsigned; assumption.
    + apply ParseInt10_of_unsigned; assumption.
Qed.

End parse.

Lemma parseRemappedRoot_resolution_witness :
  setupRemappedRoot sampleLookupUser sampleLookupGroup "linux"
    (mkConfig ["var"; "lib"; "docker"] "native" "") = Ok (None, None)
  /\ parseRemappedRoot sampleLookupUser sampleLookupGroup "a:b:c"
     = Err (ErrInvalidSpec "a:b:c")
  /\ parseRemappedRoot sampleLookupUser sampleLookupGroup "1000" = Ok (1000, 1000)
  /\ parseRemappedRoot sampleLookupUser sampleLookupGroup "1000:2000"
     = Ok (1000, 2000).
Proof.
  split; [| split; [| split]].
  - apply (proj1 (parseRemappedRoot_resolution sampleLookupUser sampleLookupGroup
                    "linux" (mkConfig ["var"; "lib"; "docker"] "native" "")
                    "" "" "" 0 0)).
    reflexivity.
  - apply (proj1 (proj2 (proj2 (parseRemappedRoot_resolution sampleLookupUser
                                  sampleLookupGroup "linux"
                                  (mkConfig [] "native" "") "a:b:c" "" "" 0 0)))).
    vm_compute. reflexivity.
  - apply (proj1 (proj2 (proj2 (proj2 (parseRemappedRoot_resolution
                                         sampleLookupUser sampleLookupGroup "linux"
                                         (mkConfig [] "native" "")
                                         "1000" "1000" "" 1000 0)))));
      [reflexivity | reflexivity | unfold GoInt.MaxInt32; lia].
  - apply (proj2 (proj2 (proj2 (proj2 (parseRemappedRoot_resolution
                                         sampleLookupUser sampleLookupGroup "linux"
                                         (mkConfig [] "native" "") "1000:2000"
                                         "1000" "2000" 1000 2000)))));
      [reflexivity | reflexivity | unfold GoInt.MaxInt32; lia
       | reflexivity | unfold GoInt.MaxInt32; lia].
Defined.

(** C6 as the specification words it fails on the code: given the empty
    string parseRemappedRoot does not answer "no remap" but looks the
    empty name up, failing or resolving as the lookups have it; and
    4294967295, a base-10 32-bit unsigned integer, is not resolved to
    itself but looked up as a name. *)
Lemma parseRemappedRoot_not_as_specified :
  parseRemappedRoot sampleLookupUser sampleLookupGroup ""
  = Err (ErrUidLookup "" (ErrNoSuchUser ""))
  /\ parseRemappedRoot (fun _ => Ok 7) (fun _ => Ok 8) "" = Ok (7, 8)
  /\ strconv.ParseUint10 "4294967295" 32 = Ok 4294967295
  /\ parseRemappedRoot sampleLookupUser sampleLookupGroup "4294967295"
     = Err (ErrUidLookup "4294967295" (ErrNoSuchUser "4294967295"))
  /\ parseRemappedRoot sampleLookupUser sampleLookupGroup "4294967295"
     <> Ok (4294967295, 4294967295).
Proof. repeat split; vm_compute; discriminate || reflexivity. Qed.

(** A name that is not a number and that no lookup knows is reported as a
    failed uid lookup. *)
Example parse_unknown_user :
  parseRemappedRoot sampleLookupUser sampleLookupGroup "nonexistentuser"
  = Err (ErrUidLookup "nonexistentuser" (ErrNoSuchUser "nonexistentuser")).
Proof. reflexivity. Qed.

(** The parse is the signed one: the largest 32-bit unsigned id is out of
    its range and goes to the user lookup. *)
Example parse_above_MaxInt32 :
  strconv.ParseInt10 "4294967295" 32 = Err (ErrRange "4294967295")
  /\ strconv.ParseInt10 "2147483647" 32 = Ok 2147483647
  /\ strconv.ParseInt10 "-5" 32 = Ok (-5).
Proof. repeat split. Qed.

End daemonFacts.

(** ** The file system in memory *)

Module memfsFacts.
Import os memfs.

Lemma assoc_setEntry_same (x : string) (n c : node) (es : list (string * node)) :
  assoc x es = Some c -> assoc x (setEntry x n es) = Some n.
Proof.
  induction es as [| [y m] es IH]; cbn; [discriminate |].
  destruct (String.eqb x y) eqn:E; cbn; rewrite E; auto.
Qed.

Lemma assoc_setEntry_other (x y : string) (n : node) (es : list (string * node)) :
  x <> y -> assoc y (setEntry x n es) = assoc y es.
Proof.
  intros Hne. induction es as [| [z m] es IH]; cbn; [reflexivity |].
  destruct (String.eqb x z) eqn:E; cbn.
  - apply String.eqb_eq in E. subst z.
    destruct (String.eqb y x) eqn:E'; [| reflexivity].
    apply String.eqb_eq in E'. congruence.
  - rewrite IH. reflexivity.
Qed.

Lemma setEntry_same (x : string) (c : node) (es : list (string * node)) :
  assoc x es = Some c -> setEntry x c es = es.
Proof.
  induction es as [| [y m] es IH]; cbn; [reflexivity |].
  destruct (String.eqb x y) eqn:E.
  - intros H. injection H as ->. reflexivity.
  - intros H. rewrite IH by assumption. reflexivity.
Qed.

Lemma setEntry_setEntry (x : string) (n m : node) (es : list (string * node)) :
  setEntry x m (setEntry x n es) = setEntry x m es.
Proof.
  induction es as [| [y k] es IH]; cbn; [reflexivity |].
  destruct (String.eqb x y) eqn:E; cbn; rewrite E; [reflexivity |].
  rewrite IH. reflexivity.
Qed.

Lemma names_setEntry (x : string) (n : node) (es : list (string * node)) :
  names (setEntry x n es) = names es.
Proof.
  unfold names. induction es as [| [y k] es IH]; cbn; [reflexivity |].
  destruct (String.eqb x y); cbn; [reflexivity |]. rewrite IH. reflexivity.
Qed.

Lemma assoc_None_names (x : string) (es : list (string * node)) :
  assoc x es = None <-> ~ In x (names es).
Proof.
  unfold names. induction es as [| [y k] es IH]; cbn; [tauto |].
  destruct (String.eqb x y) eqn:E.
  - apply String.eqb_eq in E. subst. split; [discriminate | tauto].
  - apply String.eqb_neq in E. rewrite IH. split; [| tauto].
    intros H [H1 | H1]; [congruence | tauto].
Qed.

Lemma assoc_app (x : string) (es fs : list (string * node)) :
  assoc x (es ++ fs)
  = match assoc x es with Some n => Some n | None => assoc x fs end.
Proof.
  induction es as [| [y k] es IH]; cbn; [reflexivity |].
  destruct (String.eqb x y); auto.
Qed.

(** *** Paths that extend a path *)

Lemma lookup_app (p q : path) (t : node) :
  lookup (p ++ q) t
  = match lookup p t with Ok c => lookup q c | Err e => Err e end.
Proof.
  revert t. induction p as [| x p IH]; intros t; cbn; [reflexivity |].
  destruct t as [a d | a es]; [reflexivity |].
  destruct (assoc x es); [apply IH | reflexivity].
Qed.

Lemma update_app (p q : path) (f : node -> result node) (t : node) :
  update (p ++ q) f t = update p (update q f) t.
Proof.
  revert t. induction p as [| x p IH]; intros t; cbn; [reflexivity |].
  destruct t as [a d | a es]; [reflexivity |].
  destruct (assoc x es); [rewrite IH |]; reflexivity.
Qed.

(** An update acts on the node the path leads to, and only there. *)
Lemma update_plug (p : path) (f : node -> result node) (t c : node) :
  lookup p t = Ok c ->
  update p f t
  = match f c with Ok c' => Ok (plug p c' t) | Err e => Err e end.
Proof.
  unfold plug. revert f t. induction p as [| x p IH]; intros f t; cbn.
  - intros H. injection H as ->. destruct (f c); reflexivity.
  - destruct t as [a d | a es]; [discriminate |].
    destruct (assoc x es) as [k |]; [| discriminate].
    intros H. rewrite (IH f k H).
    destruct (f c) as [c' |]; [| reflexivity].
    rewrite (IH (fun _ => Ok c') k H). reflexivity.
Qed.

Lemma update_lookup_err (p : path) (f : node -> result node) (t : node) (e : error) :
  lookup p t = Err e -> update p f t = Err e.
Proof.
  revert t. induction p as [| x p IH]; intros t; cbn; [discriminate |].
  destruct t as [a d | a es]; [auto |].
  destruct (assoc x es) as [k |]; [| auto].
  intros H. rewrite (IH k H). reflexivity.
Qed.

Lemma lookup_plug (p : path) (t c c' : node) :
  lookup p t = Ok c -> lookup p (plug p c' t) = Ok c'.
Proof.
  unfold plug. revert t. induction p as [| x p IH]; intros t; cbn; [reflexivity |].
  destruct t as [a d | a es]; [discriminate |].
  destruct (assoc x es) as [k |] eqn:E; [| discriminate].
  intros H. specialize (IH k H).
  rewrite (update_plug p (fun _ => Ok c') k c H) in *.
  cbn. rewrite (assoc_setEntry_same x _ k es E). exact IH.
Qed.

Lemma plug_plug (p : path) (t c c1 c2 : node) :
  lookup p t = Ok c -> plug p c2 (plug p c1 t) = plug p c2 t.
Proof.
  unfold plug. revert t. induction p as [| x p IH]; intros t; cbn; [reflexivity |].
  destruct t as [a d | a es]; [discriminate |].
  destruct (assoc x es) as [k |] eqn:E; [| discriminate].
  intros H. specialize (IH k H).
  rewrite !(update_plug p _ k c H) in *.
  cbn. rewrite (assoc_setEntry_same x _ k es E).
  rewrite (update_plug p _ (plug p c1 k) c1 (lookup_plug p k c c1 H)) in *.
  rewrite IH, setEntry_setEntry. reflexivity.
Qed.

Lemma plug_same (p : path) (t c : node) :
  lookup p t = Ok c -> plug p c t = t.
Proof.
  unfold plug. revert t. induction p as [| x p IH]; intros t; cbn.
  - intros H. injection H as ->. reflexivity.
  - destruct t as [a d | a es]; [discriminate |].
    destruct (assoc x es) as [k |] eqn:E; [| discriminate].
    intros H. specialize (IH k H).
    rewrite (update_plug p _ k c H) in *.
    rewrite IH, (setEntry_same x k es E). reflexivity.
Qed.

(** Replacing the node at [p] shows nowhere but under [p]. *)
Lemma view_plug (p q : path) (t c c' : node) :
  lookup p t = Ok c -> isPrefix p q = false ->
  view q (plug p c' t) = view q t.
Proof.
  unfold plug, view. revert q t.
  induction p as [| x p IH]; intros q t; cbn; [discriminate |].
  destruct t as [a d | a es]; [discriminate |].
  destruct (assoc x es) as [k |] eqn:E; [| discriminate].
  intros H Hq. specialize (IH (tl q) k H).
  rewrite (update_plug p _ k c H) in *.
  destruct q as [| y q]; cbn.
  - rewrite names_setEntry. reflexivity.
  - cbn in Hq. destruct (String.eqb x y) eqn:Exy; cbn in Hq.
    + apply String.eqb_eq in Exy. subst y.
      rewrite (assoc_setEntry_same x _ k es E), E. cbn in IH. auto.
    + apply String.eqb_neq in Exy.
      rewrite (assoc_setEntry_other x y _ es Exy). reflexivity.
Qed.

(** *** The calls on paths that extend a path *)

Lemma unsnoc_snoc (p : path) (x : string) : unsnoc (p ++ [x]) = Some (p, x).
Proof.
  induction p as [| y p IH]; cbn; [reflexivity |].
  rewrite IH. destruct p; reflexivity.
Qed.

Lemma mkdir_snoc (p : path) (x : string) (a : attrs) (t : node) :
  mkdir (p ++ [x]) a t = update p (mkdirAt x a) t.
Proof. unfold mkdir. rewrite unsnoc_snoc. reflexivity. Qed.

Lemma plug_cons (x : string) (p : path) (a : attrs) (es : list (string * node))
    (k c c' : node) :
  assoc x es = Some k -> lookup p k = Ok c ->
  plug (x :: p) c' (Dir a es) = Dir a (setEntry x (plug p c' k) es).
Proof.
  intros E H. unfold plug at 1. cbn. rewrite E.
  rewrite (update_plug p _ k c H). reflexivity.
Qed.

Lemma mkdirAll_app (p q : path) (a : attrs) (t c : node) :
  lookup p t = Ok c ->
  mkdirAll (p ++ q) a t
  = match mkdirAll q a c with Ok c' => Ok (plug p c' t) | Err e => Err e end.
Proof.
  revert t. induction p as [| x p IH]; intros t; cbn [app lookup].
  - intros H. injection H as ->. unfold plug. cbn.
    destruct (mkdirAll q a c); reflexivity.
  - destruct t as [d dat | d es]; [discriminate |].
    destruct (assoc x es) as [k |] eqn:E; [| discriminate].
    intros H. cbn [mkdirAll]. rewrite E, (IH k H).
    destruct (mkdirAll q a c) as [c' |]; [| reflexivity].
    rewrite (plug_cons x p d es k c c' E H). reflexivity.
Qed.

Lemma mkdirAll_existing (p : path) (a d : attrs) (t : node)
    (es : list (string * node)) :
  lookup p t = Ok (Dir d es) -> mkdirAll p a t = Ok t.
Proof.
  intros H. rewrite <- (app_nil_r p), (mkdirAll_app p [] a t (Dir d es) H).
  cbn. rewrite (plug_same p t _ H). reflexivity.
Qed.

(** A path that leads nowhere because a name is missing can be made. *)
Lemma mkdirAll_fresh (p : path) (a : attrs) (t : node) :
  lookup p t = Err (Errno ENOENT) ->
  exists t', mkdirAll p a t = Ok t' /\ lookup p t' = Ok (Dir a []).
Proof.
  revert t. induction p as [| x p IH]; intros t; cbn [lookup]; [discriminate |].
  destruct t as [d dat | d es]; [discriminate |].
  cbn [mkdirAll].
  destruct (assoc x es) as [k |] eqn:E.
  - intros H. destruct (IH k H) as (k' & Hk & Hl). rewrite Hk.
    eexists. split; [reflexivity |]. cbn.
    rewrite (assoc_setEntry_same x k' k es E). exact Hl.
  - intros _.
    assert (Hnew : forall q, exists c,
               mkdirAll q a (Dir a []) = Ok c /\ lookup q c = Ok (Dir a [])).
    { clear. induction q as [| y q IHq]; cbn.
      - eexists. split; reflexivity.
      - destruct IHq as (c & Hc & Hl). rewrite Hc.
        eexists. split; [reflexivity |]. cbn. rewrite String.eqb_refl. exact Hl. }
    destruct (Hnew p) as (c & Hc & Hl). rewrite Hc.
    eexists. split; [reflexivity |]. cbn.
    rewrite assoc_app, E. cbn. rewrite String.eqb_refl. exact Hl.
Qed.

Lemma path_eqb_snoc (p : path) (x s : string) :
  path_eqb (p ++ [x]) (p ++ [s; x]) = false.
Proof.
  induction p as [| y p IH]; cbn.
  - apply andb_false_r.
  - rewrite IH. apply andb_false_r.
Qed.

Lemma isPrefix_app (p q r : path) : isPrefix (p ++ q) (p ++ r) = isPrefix q r.
Proof.
  induction p as [| y p IH]; cbn; [reflexivity |].
  rewrite String.eqb_refl. exact IH.
Qed.

(** A rename inside a directory is a rename on that directory. *)
Lemma rename_into_subdir (p : path) (x s : string) (t c : node) :
  lookup p t = Ok c ->
  rename (p ++ [x]) (p ++ [s; x]) t
  = match rename [x] [s; x] c with
    | Ok c' => Ok (plug p c' t)
    | Err e => Err e
    end.
Proof.
  intros H. unfold rename.
  change (p ++ [s; x]) with (p ++ [s] ++ [x]) at 1.
  rewrite app_assoc, !unsnoc_snoc. cbn [unsnoc].
  rewrite lookup_app, H, path_eqb_snoc, isPrefix_app.
  destruct (lookup [x] c) as [src |]; [| reflexivity].
  replace (path_eqb [x] [s; x]) with false by (cbn; rewrite andb_false_r; reflexivity).
  destruct (isPrefix [x] [s; x]); [reflexivity |].
  rewrite update_app, (update_plug p _ t c H).
  destruct (update [s] (placeAt x src) c) as [c1 |]; [| reflexivity].
  rewrite (update_plug p _ (plug p c1 t) c1 (lookup_plug p t c c1 H)).
  cbn [update].
  destruct (removeAt x c1) as [c2 |]; [| reflexivity].
  rewrite (plug_plug p t c c1 c2 H). reflexivity.
Qed.

(** *** The migration on the directory itself *)

Lemma setEntry_app_last (x : string) (n m : node) (es : list (string * node)) :
  ~ In x (names es) ->
  setEntry x n (es ++ [(x, m)]) = es ++ [(x, n)].
Proof.
  unfold names. induction es as [| [y k] es IH]; cbn; intros H.
  - rewrite String.eqb_refl. reflexivity.
  - destruct (String.eqb x y) eqn:E.
    + apply String.eqb_eq in E. subst. tauto.
    + rewrite IH by tauto. reflexivity.
Qed.

Lemma delEntry_app_other (x y : string) (n : node) (es : list (string * node)) :
  x <> y -> delEntry x (es ++ [(y, n)]) = delEntry x es ++ [(y, n)].
Proof.
  intros H. unfold delEntry. rewrite filter_app. cbn.
  apply String.eqb_neq in H. rewrite H. reflexivity.
Qed.

Lemma assoc_delEntry_other (x y : string) (es : list (string * node)) :
  x <> y -> assoc y (delEntry x es) = assoc y es.
Proof.
  intros H. unfold delEntry. induction es as [| [z k] es IH]; cbn; [reflexivity |].
  destruct (String.eqb x z) eqn:E; cbn.
  - apply String.eqb_eq in E. subst z.
    apply not_eq_sym, String.eqb_neq in H. rewrite H. exact IH.
  - rewrite IH. reflexivity.
Qed.

Lemma names_delEntry (x y : string) (es : list (string * node)) :
  In y (names (delEntry x es)) <-> In y (names es) /\ x <> y.
Proof.
  unfold names, delEntry. rewrite !in_map_iff. split.
  - intros ([z k] & <- & Hin). apply filter_In in Hin as [Hin Hne]. cbn in *.
    apply negb_true_iff, String.eqb_neq in Hne. split; [| assumption].
    exists (z, k). auto.
  - intros (([z k] & <- & Hin) & Hne). exists (z, k). split; [reflexivity |].
    apply filter_In. split; [assumption |]. cbn in *.
    apply negb_true_iff, String.eqb_neq. assumption.
Qed.

Lemma moved_delEntry (s x : string) (l : list string) (es : list (string * node)) :
  ~ In x l -> moved s l (delEntry x es) = moved s l es.
Proof.
  unfold moved. induction l as [| y l IH]; cbn; [reflexivity |].
  intros H. rewrite IH by tauto.
  rewrite assoc_delEntry_other by (intros E; apply H; left; congruence).
  reflexivity.
Qed.

Lemma filter_delEntry (x : string) (l : list string) (es : list (string * node)) :
  filter (fun e => negb (existsb (String.eqb (fst e)) l)) (delEntry x es)
  = filter (fun e => negb (existsb (String.eqb (fst e)) (x :: l))) es.
Proof.
  unfold delEntry. induction es as [| [z k] es IH]; [reflexivity |].
  cbn [filter fst existsb]. rewrite (String.eqb_sym z x).
  destruct (String.eqb x z); cbn [negb orb filter fst]; rewrite IH; reflexivity.
Qed.

Lemma filter_skip_absent (s : string) (l : list string) (es : list (string * node)) :
  ~ In s (names es) ->
  filter (fun e => negb (existsb (String.eqb (fst e)) (s :: l))) es
  = filter (fun e => negb (existsb (String.eqb (fst e)) l)) es.
Proof.
  intros H. apply filter_ext_in. intros [z k] Hin. cbn.
  destruct (String.eqb z s) eqn:E; [| reflexivity].
  apply String.eqb_eq in E. subst z. exfalso. apply H.
  unfold names. apply in_map_iff. exists (s, k). auto.
Qed.

(** The renames move the entries the names stand for into the
    subdirectory, which is the last entry, and leave the others. *)
Lemma localMoves_spec (s : string) (a a0 : attrs) (l : list string) :
  forall (es acc : list (string * node)),
    NoDup l ->
    (forall x, In x l -> x <> s -> In x (names es)) ->
    ~ In s (names es) ->
    (forall x, In x l -> ~ In x (names acc)) ->
    localMoves s l (Dir a (es ++ [(s, Dir a0 acc)]))
    = Ok (Dir a (filter (fun e => negb (existsb (String.eqb (fst e)) l)) es
                 ++ [(s, Dir a0 (acc ++ moved s l es))])).
Proof.
  induction l as [| x l IH]; intros es acc Hnd Hin Hs Hacc.
  - cbn. rewrite app_nil_r.
    replace (filter (fun _ => true) es) with es; [reflexivity |].
    clear. induction es as [| e es IH]; cbn; congruence.
  - cbn [localMoves]. inversion Hnd as [| ? ? Hx Hl]; subst.
    destruct (String.eqb x s) eqn:E.
    + apply String.eqb_eq in E. subst x.
      rewrite IH; auto with datatypes.
      rewrite filter_skip_absent by assumption.
      unfold moved. cbn. rewrite String.eqb_refl. reflexivity.
    + apply String.eqb_neq in E.
      assert (Hxin : In x (names es)) by auto with datatypes.
      destruct (assoc x es) as [n |] eqn:En;
        [| apply assoc_None_names in En; contradiction].
      assert (Hxacc : assoc x acc = None)
        by (apply assoc_None_names; auto with datatypes).
      assert (Hsx : assoc s es = None) by (apply assoc_None_names; assumption).
      unfold rename. cbn [unsnoc lookup path_eqb isPrefix].
      rewrite assoc_app, En.
      replace (String.eqb x s) with false by (symmetry; apply String.eqb_neq; exact E).
      cbn [andb update]. rewrite assoc_app, Hsx. cbn [assoc].
      rewrite String.eqb_refl. cbn [placeAt]. rewrite Hxacc.
      rewrite setEntry_app_last by assumption.
      cbn [removeAt]. rewrite delEntry_app_other by assumption.
      rewrite IH.
      * rewrite filter_delEntry, moved_delEntry by assumption.
        unfold moved at 2. cbn [flat_map].
        replace (String.eqb x s) with false
          by (symmetry; apply String.eqb_neq; exact E).
        rewrite En. cbn [app]. rewrite <- app_assoc. reflexivity.
      * assumption.
      * intros y Hy Hys. apply names_delEntry. split; [auto with datatypes |].
        intros ->. contradiction.
      * intros H. apply names_delEntry in H. tauto.
      * intros y Hy H. unfold names in H. rewrite map_app in H.
        apply in_app_or in H as [H | H].
        -- apply (Hacc y); auto with datatypes.
        -- cbn in H. destruct H as [-> | []]. contradiction.
Qed.

Lemma filter_all_listed (l : list string) (es : list (string * node)) :
  (forall x, In x (names es) -> In x l) ->
  filter (fun e => negb (existsb (String.eqb (fst e)) l)) es = [].
Proof.
  unfold names. induction es as [| [z k] es IH]; cbn; [reflexivity |].
  intros H.
  assert (Hz : existsb (String.eqb z) l = true).
  { apply existsb_exists. exists z. split; [auto | apply String.eqb_refl]. }
  rewrite Hz. cbn. apply IH. auto.
Qed.

Lemma assoc_moved (s x : string) (l : list string) (es : list (string * node)) :
  NoDup l ->
  (In x (names es) -> In x l /\ x <> s) ->
  assoc x (moved s l es) = assoc x es.
Proof.
  intros Hnd Hx.
  destruct (assoc x es) as [n |] eqn:En.
  - assert (Hin : In x (names es)).
    { destruct (in_dec string_dec x (names es)) as [H | H]; [exact H |].
      apply assoc_None_names in H. congruence. }
    destruct (Hx Hin) as [Hl Hs]. clear Hx Hin.
    unfold moved. induction l as [| y l IH]; [destruct Hl |].
    inversion Hnd as [| ? ? Hy Hnd']; subst. cbn.
    destruct (string_dec y x) as [-> | Hne].
    + replace (String.eqb x s) with false
        by (symmetry; apply String.eqb_neq; exact Hs).
      rewrite En. cbn. rewrite String.eqb_refl. reflexivity.
    + destruct Hl as [Hl | Hl]; [contradiction |].
      rewrite assoc_app.
      assert (Hy' : assoc x (if String.eqb y s then []
                             else match assoc y es with
                                  | Some n0 => [(y, n0)]
                                  | None => []
                                  end) = None).
      { destruct (String.eqb y s); [reflexivity |].
        destruct (assoc y es); [| reflexivity]. cbn.
        apply not_eq_sym, String.eqb_neq in Hne. rewrite Hne. reflexivity. }
      rewrite Hy'. apply IH; assumption.
  - clear Hx Hnd. unfold moved. induction l as [| y l IH]; [reflexivity |].
    cbn. rewrite assoc_app, IH.
    destruct (String.eqb y s); [reflexivity |].
    destruct (assoc y es) eqn:Ey; [| reflexivity]. cbn.
    destruct (String.eqb x y) eqn:Exy; [| reflexivity].
    apply String.eqb_eq in Exy. congruence.
Qed.

(** The listing of ReadDir names every entry once. *)
Lemma sortByName_perm (l : list FileInfo) : Permutation (sortByName l) l.
Proof.
  assert (Hins : forall i r, Permutation (insertByName i r) (i :: r)).
  { intros i r. induction r as [| j r IH]; cbn; [reflexivity |].
    destruct (String.leb (Name i) (Name j)); [reflexivity |].
    rewrite IH. apply perm_swap. }
  induction l as [| i l IH]; cbn; [reflexivity |].
  rewrite Hins, IH. reflexivity.
Qed.

Lemma listing_names (es : list (string * node)) :
  Permutation
    (map Name (sortByName (map (fun e => infoOf (fst e) (snd e)) es)))
    (names es).
Proof.
  rewrite sortByName_perm, map_map. unfold names. cbn. reflexivity.
Qed.

End memfsFacts.

(** ** The daemon root *)

Module daemonRootFacts.
Import os memfs daemon directory layout memfsFacts.

Lemma withTree_same w : withTree w (tree w) = w.
Proof. destruct w; reflexivity. Qed.

Lemma bind_ok {W A B} (m : M W A) (k : A -> M W B) (s s1 : W) (a : A) :
  m s = (Ok a, s1) -> bind m k s = k a s1.
Proof. intros H. unfold bind. rewrite H. reflexivity. Qed.

Ltac os_unfold :=
  cbn [Stat Mkdir MkdirAll Chown Chmod Rename RemoveAll ReadDir WriteFile
       daemonOS zoomOS memOS];
  unfold zoom; cbn [host config].

#[local] Existing Instance daemonOS.

Section steps.
Variable cfg : Config.

Lemma run_onTree_update (p : path) (f : node -> result node) (w : proc) (c c' : node) :
  lookup p (tree w) = Ok c -> f c = Ok c' ->
  onTree (update p f) w = (Ok tt, withTree w (plug p c' (tree w))).
Proof.
  intros Hl Hf. unfold onTree. rewrite (update_plug p f (tree w) c Hl), Hf.
  reflexivity.
Qed.

Lemma run_Stat (p : path) (w : proc) :
  Stat p (mkDaemonState cfg w) = (stat p (tree w), mkDaemonState cfg w).
Proof. reflexivity. Qed.

Lemma run_Mkdir (p : path) (x : string) (mode : Z) (w : proc) (c c' : node) :
  lookup p (tree w) = Ok c ->
  mkdirAt x (created w mode) c = Ok c' ->
  Mkdir (p ++ [x]) mode (mkDaemonState cfg w) = (Ok tt, mkDaemonState cfg (withTree w (plug p c' (tree w)))).
Proof.
  intros Hl Hf. os_unfold. unfold onTree. rewrite mkdir_snoc.
  rewrite (update_plug p _ (tree w) c Hl), Hf. reflexivity.
Qed.

Lemma run_Chmod (p : path) (mode : Z) (w : proc) (c c' : node) :
  lookup p (tree w) = Ok c ->
  chmodNode mode c = Ok c' ->
  Chmod p mode (mkDaemonState cfg w) = (Ok tt, mkDaemonState cfg (withTree w (plug p c' (tree w)))).
Proof.
  intros Hl Hf. os_unfold. rewrite (run_onTree_update p _ w c c' Hl Hf). reflexivity.
Qed.

Lemma run_moveEntries (p : path) (s : string) (infos : list FileInfo) :
  forall (w : proc) (c c' : node),
    lookup p (tree w) = Ok c ->
    localMoves s (map Name infos) c = Ok c' ->
    moveEntries p s infos (mkDaemonState cfg w) = (Ok tt, mkDaemonState cfg (withTree w (plug p c' (tree w)))).
Proof.
  induction infos as [| info infos IH]; intros w c c' Hl Hm.
  - cbn in *. injection Hm as <-. rewrite (plug_same p _ c Hl), withTree_same.
    reflexivity.
  - cbn [map localMoves] in Hm. cbn [moveEntries]. unfold bind.
    destruct (String.eqb (Name info) s) eqn:E; cbn [negb].
    + unfold ret. apply (IH w c c' Hl Hm).
    + os_unfold. unfold onTree.
      rewrite (rename_into_subdir p (Name info) s (tree w) c Hl).
      destruct (rename [Name info] [s; Name info] c) as [c1 |]; [| discriminate].
      rewrite (IH (withTree w (plug p c1 (tree w))) c1 c').
      * cbn [tree withTree]. rewrite (plug_plug p (tree w) c c1 c' Hl). reflexivity.
      * cbn [tree withTree]. apply (lookup_plug p (tree w) c c1 Hl).
      * exact Hm.
Qed.

Lemma run_MoveDirToSubdir (p : path) (s : string) (w : proc) (a : attrs)
    (es : list (string * node)) (c' : node) :
  lookup p (tree w) = Ok (Dir a es) ->
  localMoves s (listing es) (Dir a es) = Ok c' ->
  MoveDirToSubdir p s (mkDaemonState cfg w) = (Ok tt, mkDaemonState cfg (withTree w (plug p c' (tree w)))).
Proof.
  intros Hl Hm. unfold MoveDirToSubdir.
  rewrite (bind_ok _ _ (mkDaemonState cfg w) (mkDaemonState cfg w)
             (sortByName (map (fun e => infoOf (fst e) (snd e)) es))).
  - apply (run_moveEntries p s _ w (Dir a es) c' Hl Hm).
  - os_unfold. unfold query, readDir. rewrite Hl. reflexivity.
Qed.

(** MkdirAllAs of a name in a directory that exists. *)
Lemma run_MkdirAllAs (p : path) (x : string) (mode uid gid : Z) (w : proc)
    (c c1 n n' : node) :
  lookup p (tree w) = Ok c ->
  mkdirAll [x] (created w mode) c = Ok c1 ->
  lookup [x] c1 = Ok n ->
  chownNode uid gid n = Ok n' ->
  idtools.MkdirAllAs (p ++ [x]) mode uid gid (mkDaemonState cfg w)
  = (Ok tt, mkDaemonState cfg (withTree w (plug p (plug [x] n' c1) (tree w)))).
Proof.
  intros Hl Hm Hn Hc. unfold idtools.MkdirAllAs, idtools.mkdirAs.
  rewrite (bind_ok _ _ (mkDaemonState cfg w) (mkDaemonState cfg (withTree w (plug p c1 (tree w)))) tt).
  - os_unfold. unfold onTree. cbn [tree withTree].
    rewrite update_app.
    rewrite (update_plug p _ _ c1 (lookup_plug p (tree w) c c1 Hl)).
    rewrite (update_plug [x] _ c1 n Hn), Hc.
    rewrite (plug_plug p (tree w) c c1 _ Hl). reflexivity.
  - unfold unlessExists. os_unfold. unfold onTree.
    rewrite (mkdirAll_app p [x] _ (tree w) c Hl), Hm. reflexivity.
Qed.

End steps.

Lemma try_run {W A} (m : M W A) (s s1 : W) (r : result A) :
  m s = (r, s1) -> try m s = (Ok r, s1).
Proof. intros H. unfold try. rewrite H. reflexivity. Qed.

Lemma wrapErr_ok {W A} (f : error -> error) (m : M W A) (s s1 : W) (a : A) :
  m s = (Ok a, s1) -> wrapErr f m s = (Ok a, s1).
Proof. intros H. unfold wrapErr. rewrite H. reflexivity. Qed.

Lemma names_app (es fs : list (string * node)) :
  names (es ++ fs) = names es ++ names fs.
Proof. apply map_app. Qed.

Lemma localMoves_all (s : string) (a a0 : attrs) (es : list (string * node)) :
  assoc s es = None -> NoDup (names es) ->
  let l := listing (es ++ [(s, Dir a0 [])]) in
  localMoves s l (Dir a (es ++ [(s, Dir a0 [])]))
  = Ok (Dir a [(s, Dir a0 (moved s l es))]).
Proof.
  intros Hs Hnd l.
  assert (Hp : Permutation l (names es ++ [s])).
  { unfold l, listing. rewrite listing_names, names_app. reflexivity. }
  apply assoc_None_names in Hs.
  rewrite (localMoves_spec s a a0 l es []).
  - rewrite filter_all_listed; [reflexivity |].
    intros x Hx. apply (Permutation_in x (Permutation_sym Hp)).
    apply in_or_app. auto.
  - apply (Permutation_NoDup (Permutation_sym Hp)).
    apply NoDup_app; [assumption | repeat constructor; intros [] |].
    intros x Hx [<- | []]. contradiction.
  - intros x Hx Hne. apply (Permutation_in x Hp) in Hx.
    apply in_app_or in Hx as [Hx | [<- | []]]; [assumption | congruence].
  - assumption.
  - intros x _ [].
Qed.

Lemma run_final (cfg : Config) (w : proc) (rootDir : path) (uid gid : Z)
    (c c' : node) :
  lookup rootDir (tree w) = Ok c ->
  withNsRoot (nsName cfg uid gid) (created w mode_0700) uid gid c = Ok c' ->
  (cfg0 <- getConfig;;
   setConfigRoot
     (rootDir ++
      [if negb (RemappedRoot cfg0 =? "")%string
       then (itoa uid ++ "." ++ itoa gid)%string
       else "0.0"]);;;
   wrapErr ErrCreateDaemonRoot
     (idtools.MkdirAllAs
        (rootDir ++
         [if negb (RemappedRoot cfg0 =? "")%string
          then (itoa uid ++ "." ++ itoa gid)%string
          else "0.0"])
        mode_0700 uid gid))%go
    (mkDaemonState cfg w)
  = (Ok tt,
     mkDaemonState
       (mkConfig (rootDir ++ [nsName cfg uid gid]) (ExecDriver cfg) (RemappedRoot cfg))
       (withTree w (plug rootDir c' (tree w)))).
Proof.
  intros Hl Hns. unfold withNsRoot in Hns.
  destruct (mkdirAll [nsName cfg uid gid] (created w mode_0700) c) as [c1 |] eqn:Hm;
    [| discriminate].
  destruct (lookup [nsName cfg uid gid] c1) as [n |] eqn:Hn; [| discriminate].
  injection Hns as <-.
  rewrite (bind_ok _ _ _ (mkDaemonState cfg w) cfg) by reflexivity.
  fold (nsName cfg uid gid).
  rewrite (bind_ok _ _ _
             (mkDaemonState
                (mkConfig (rootDir ++ [nsName cfg uid gid]) (ExecDriver cfg)
                   (RemappedRoot cfg)) w) tt) by reflexivity.
  apply wrapErr_ok.
  apply (run_MkdirAllAs _ rootDir _ mode_0700 uid gid w c c1 n _ Hl Hm Hn).
  reflexivity.
Qed.

Lemma run_migration (cfg : Config) (w : proc) (rootDir : path) (uid gid : Z)
    (a : attrs) (es : list (string * node)) :
  lookup rootDir (tree w) = Ok (Dir a es) ->
  assoc "0.0" es = None ->
  NoDup (names es) ->
  let a0 := created w mode_0700 in
  let sub := moved "0.0" (listing (es ++ [("0.0", Dir a0 [])])) es in
  let a' := mkAttrs mode_0755 (a_uid a) (a_gid a) in
  let ns := nsName cfg uid gid in
  let c' :=
    if String.eqb ns "0.0"
    then Dir a' [("0.0", chowned uid gid (Dir a0 sub))]
    else Dir a' [("0.0", Dir a0 sub); (ns, chowned uid gid (Dir a0 []))] in
  setupDaemonRoot rootDir uid gid (mkDaemonState cfg w)
  = (Ok tt,
     mkDaemonState (mkConfig (rootDir ++ [ns]) (ExecDriver cfg) (RemappedRoot cfg))
       (withTree w (plug rootDir c' (tree w)))).
Proof.
  intros Hl H0 Hnd. cbv zeta.
  set (a0 := created w mode_0700).
  set (l := listing (es ++ [("0.0", Dir a0 [])])).
  set (a' := mkAttrs mode_0755 (a_uid a) (a_gid a)).
  set (t := tree w) in *.
  pose (c3 := Dir a' [("0.0", Dir a0 (moved "0.0" l es))]).
  cbv beta zeta delta [setupDaemonRoot].
  rewrite (bind_ok _ _ _ (mkDaemonState cfg w)
             (Ok (infoOf (lastName rootDir) (Dir a es)))).
  2:{ apply try_run. rewrite run_Stat. unfold stat. fold t. rewrite Hl.
      reflexivity. }
  cbv beta iota.
  rewrite (bind_ok _ _ (mkDaemonState cfg w)
             (mkDaemonState cfg (withTree w (plug rootDir c3 t))) tt).
  2:{ rewrite (bind_ok _ _ _ (mkDaemonState cfg w) (Err (Errno ENOENT))).
      2:{ apply try_run. rewrite run_Stat. unfold stat. fold t.
          rewrite lookup_app, Hl. cbn [lookup]. rewrite H0. reflexivity. }
      cbn [IsNotExist].
      rewrite (bind_ok _ _ _
                 (mkDaemonState cfg
                    (withTree w (plug rootDir (Dir a (es ++ [("0.0", Dir a0 [])])) t)))
                 tt).
      2:{ apply wrapErr_ok. apply (run_Mkdir cfg rootDir "0.0" mode_0700 w _ _ Hl).
          cbn [mkdirAt]. rewrite H0. reflexivity. }
      rewrite (bind_ok _ _ _
                 (mkDaemonState cfg
                    (withTree w (plug rootDir
                                   (Dir a [("0.0", Dir a0 (moved "0.0" l es))]) t)))
                 tt).
      2:{ apply wrapErr_ok.
          rewrite (run_MoveDirToSubdir cfg rootDir "0.0" _ a
                     (es ++ [("0.0", Dir a0 [])])
                     (Dir a [("0.0", Dir a0 (moved "0.0" l es))])).
          - cbn [tree withTree]. rewrite (plug_plug rootDir t _ _ _ Hl). reflexivity.
          - cbn [tree withTree]. apply (lookup_plug rootDir t _ _ Hl).
          - apply localMoves_all; assumption. }
      rewrite (run_Chmod cfg rootDir mode_0755 _
                 (Dir a [("0.0", Dir a0 (moved "0.0" l es))]) c3).
      - cbn [tree withTree]. rewrite (plug_plug rootDir t _ _ _ Hl). reflexivity.
      - cbn [tree withTree]. apply (lookup_plug rootDir t _ _ Hl).
      - reflexivity. }
  rewrite (run_final cfg (withTree w (plug rootDir c3 t)) rootDir uid gid c3
             (if String.eqb (nsName cfg uid gid) "0.0"
              then Dir a' [("0.0", chowned uid gid (Dir a0 (moved "0.0" l es)))]
              else Dir a' [("0.0", Dir a0 (moved "0.0" l es));
                           (nsName cfg uid gid, chowned uid gid (Dir a0 []))])).
  - unfold withTree. cbn [tree euid egid umask]. fold (withTree w).
    rewrite (plug_plug rootDir t _ _ _ Hl). reflexivity.
  - cbn [tree withTree]. apply (lookup_plug rootDir t _ _ Hl).
  - change (created (withTree w (plug rootDir c3 t)) mode_0700) with a0.
    unfold withNsRoot, c3.
    cbn [mkdirAll assoc].
    destruct (String.eqb (nsName cfg uid gid) "0.0") eqn:E.
    + cbn [mkdirAll setEntry lookup assoc]. rewrite E. cbn [setEntry lookup assoc].
      rewrite E. unfold plug. cbn [update assoc]. rewrite E. cbn [setEntry].
      rewrite E. reflexivity.
    + cbn [mkdirAll app lookup assoc]. rewrite E, String.eqb_refl.
      unfold plug. cbn [update assoc]. rewrite E, String.eqb_refl.
      cbn [setEntry]. rewrite E, String.eqb_refl. reflexivity.
Qed.

Lemma run_existing (cfg : Config) (w : proc) (rootDir : path) (uid gid : Z)
    (d : attrs) (es : list (string * node)) (n0 c' : node) :
  lookup rootDir (tree w) = Ok (Dir d es) ->
  assoc "0.0" es = Some n0 ->
  withNsRoot (nsName cfg uid gid) (created w mode_0700) uid gid (Dir d es) = Ok c' ->
  setupDaemonRoot rootDir uid gid (mkDaemonState cfg w)
  = (Ok tt,
     mkDaemonState
       (mkConfig (rootDir ++ [nsName cfg uid gid]) (ExecDriver cfg) (RemappedRoot cfg))
       (withTree w (plug rootDir c' (tree w)))).
Proof.
  intros Hl H0 Hns.
  cbv beta zeta delta [setupDaemonRoot].
  rewrite (bind_ok _ _ _ (mkDaemonState cfg w)
             (Ok (infoOf (lastName rootDir) (Dir d es)))).
  2:{ apply try_run. rewrite run_Stat. unfold stat. rewrite Hl. reflexivity. }
  cbv beta iota.
  rewrite (bind_ok _ _ (mkDaemonState cfg w) (mkDaemonState cfg w) tt).
  2:{ rewrite (bind_ok _ _ _ (mkDaemonState cfg w)
                 (Ok (infoOf (lastName (rootDir ++ ["0.0"])) n0))).
      - reflexivity.
      - apply try_run. rewrite run_Stat. unfold stat.
        rewrite lookup_app, Hl. cbn [lookup]. rewrite H0. reflexivity. }
  apply (run_final cfg w rootDir uid gid (Dir d es) c' Hl Hns).
Qed.

Lemma chowned_chowned (uid gid : Z) (n : node) :
  chowned uid gid (chowned uid gid n) = chowned uid gid n.
Proof.
  unfold chowned, chownNode.
  destruct n as [[m u g] dat | [m u g] es]; cbn;
    destruct (uid =? -1) eqn:Eu, (gid =? -1) eqn:Eg; cbn; rewrite ?Eu, ?Eg;
    reflexivity.
Qed.

Lemma run_fresh (cfg : Config) (w : proc) (rootDir : path) (uid gid : Z) (t1 : node) :
  lookup rootDir (tree w) = Err (Errno ENOENT) ->
  mkdirAll rootDir (created w mode_0755) (tree w) = Ok t1 ->
  lookup rootDir t1 = Ok (Dir (created w mode_0755) []) ->
  let a0 := created w mode_0700 in
  let ns := nsName cfg uid gid in
  let c' :=
    if String.eqb ns "0.0"
    then Dir (created w mode_0755) [("0.0", chowned uid gid (Dir a0 []))]
    else Dir (created w mode_0755)
           [("0.0", Dir a0 []); (ns, chowned uid gid (Dir a0 []))] in
  setupDaemonRoot rootDir uid gid (mkDaemonState cfg w)
  = (Ok tt,
     mkDaemonState (mkConfig (rootDir ++ [ns]) (ExecDriver cfg) (RemappedRoot cfg))
       (withTree w (plug rootDir c' t1))).
Proof.
  intros Hl Hm Hl1. cbv zeta.
  set (a0 := created w mode_0700). set (a1 := created w mode_0755) in *.
  pose (c2 := Dir a1 [("0.0", Dir a0 [])]).
  cbv beta zeta delta [setupDaemonRoot].
  rewrite (bind_ok _ _ _ (mkDaemonState cfg w) (Err (Errno ENOENT))).
  2:{ apply try_run. rewrite run_Stat. unfold stat. rewrite Hl. reflexivity. }
  cbv beta iota. cbn [IsNotExist].
  rewrite (bind_ok _ _ (mkDaemonState cfg w)
             (mkDaemonState cfg (withTree w (plug rootDir c2 t1))) tt).
  2:{ rewrite (bind_ok _ _ _ (mkDaemonState cfg (withTree w t1)) tt).
      2:{ os_unfold. unfold onTree. fold a1. rewrite Hm. reflexivity. }
      rewrite (run_Mkdir cfg rootDir "0.0" mode_0700 (withTree w t1)
                 (Dir a1 []) c2).
      - reflexivity.
      - exact Hl1.
      - reflexivity. }
  rewrite (run_final cfg (withTree w (plug rootDir c2 t1)) rootDir uid gid c2
             (if String.eqb (nsName cfg uid gid) "0.0"
              then Dir a1 [("0.0", chowned uid gid (Dir a0 []))]
              else Dir a1 [("0.0", Dir a0 []);
                           (nsName cfg uid gid, chowned uid gid (Dir a0 []))])).
  - unfold withTree. cbn [tree euid egid umask]. fold (withTree w).
    rewrite (plug_plug rootDir t1 _ _ _ Hl1). reflexivity.
  - cbn [tree withTree]. apply (lookup_plug rootDir t1 _ _ Hl1).
  - change (created (withTree w (plug rootDir c2 t1)) mode_0700) with a0.
    unfold withNsRoot, c2.
    cbn [mkdirAll assoc].
    destruct (String.eqb (nsName cfg uid gid) "0.0") eqn:E.
    + cbn [mkdirAll setEntry lookup assoc]. rewrite E. cbn [setEntry lookup assoc].
      rewrite E. unfold plug. cbn [update assoc]. rewrite E. cbn [setEntry].
      rewrite E. reflexivity.
    + cbn [mkdirAll app lookup assoc]. rewrite E, String.eqb_refl.
      unfold plug. cbn [update assoc]. rewrite E, String.eqb_refl.
      cbn [setEntry]. rewrite E, String.eqb_refl. reflexivity.
Qed.

Lemma chowned_dir (uid gid : Z) (a : attrs) (es : list (string * node)) :
  exists a', chowned uid gid (Dir a es) = Dir a' es.
Proof. eexists. reflexivity. Qed.

(** The two shapes the root directory has after a first run. *)
Lemma withNsRoot_settled (ns : string) (a0 d : attrs) (uid gid : Z)
    (es0 es1 : list (string * node)) (a00 a11 : attrs) :
  let c := if String.eqb ns "0.0"
           then Dir d [("0.0", chowned uid gid (Dir a00 es0))]
           else Dir d [("0.0", Dir a00 es0); (ns, chowned uid gid (Dir a11 es1))] in
  withNsRoot ns a0 uid gid c = Ok c.
Proof.
  cbv zeta. unfold withNsRoot.
  pose proof (chowned_chowned uid gid (Dir a00 es0)) as H0.
  pose proof (chowned_chowned uid gid (Dir a11 es1)) as H1.
  destruct (chowned_dir uid gid a00 es0) as [b0 E0].
  destruct (chowned_dir uid gid a11 es1) as [b1 E1].
  rewrite E0 in *. rewrite E1 in *.
  destruct (String.eqb ns "0.0") eqn:E.
  - cbn [mkdirAll assoc]. rewrite E.
    cbn [mkdirAll setEntry lookup assoc]. rewrite E. cbn [lookup assoc]. rewrite E.
    unfold plug. cbn [update assoc]. rewrite E. cbn [setEntry]. rewrite E.
    rewrite H0. reflexivity.
  - cbn [mkdirAll assoc]. rewrite E, String.eqb_refl.
    cbn [mkdirAll setEntry lookup assoc]. rewrite E, String.eqb_refl.
    cbn [lookup assoc]. rewrite E, String.eqb_refl.
    unfold plug. cbn [update assoc]. rewrite E, String.eqb_refl.
    cbn [setEntry]. rewrite E, String.eqb_refl.
    rewrite H1. reflexivity.
Qed.

Lemma run_again (cfg : Config) (w : proc) (rootDir : path) (uid gid : Z)
    (T : node) (d a00 a11 : attrs) (es0 es1 : list (string * node)) :
  let ns := nsName cfg uid gid in
  let s' := mkDaemonState
              (mkConfig (rootDir ++ [ns]) (ExecDriver cfg) (RemappedRoot cfg))
              (withTree w T) in
  lookup rootDir T
  = Ok (if String.eqb ns "0.0"
        then Dir d [("0.0", chowned uid gid (Dir a00 es0))]
        else Dir d [("0.0", Dir a00 es0); (ns, chowned uid gid (Dir a11 es1))]) ->
  setupDaemonRoot rootDir uid gid s' = (Ok tt, s').
Proof.
  cbv zeta. intros Hl.
  pose proof (withNsRoot_settled (nsName cfg uid gid) (created w mode_0700) d
                uid gid es0 es1 a00 a11) as Hs.
  cbv zeta in Hs.
  set (cfg' := mkConfig _ _ _).
  assert (Hn : nsName cfg' uid gid = nsName cfg uid gid) by reflexivity.
  destruct (String.eqb (nsName cfg uid gid) "0.0") eqn:E.
  - rewrite (run_existing cfg' (withTree w T) rootDir uid gid d
               [("0.0", chowned uid gid (Dir a00 es0))]
               (chowned uid gid (Dir a00 es0))
               (Dir d [("0.0", chowned uid gid (Dir a00 es0))]) Hl).
    + rewrite Hn. change (tree (withTree w T)) with T.
      rewrite (plug_same rootDir T _ Hl). reflexivity.
    + reflexivity.
    + rewrite Hn. exact Hs.
  - rewrite (run_existing cfg' (withTree w T) rootDir uid gid d
               [("0.0", Dir a00 es0);
                (nsName cfg uid gid, chowned uid gid (Dir a11 es1))]
               (Dir a00 es0)
               (Dir d [("0.0", Dir a00 es0);
                       (nsName cfg uid gid, chowned uid gid (Dir a11 es1))]) Hl).
    + rewrite Hn. change (tree (withTree w T)) with T.
      rewrite (plug_same rootDir T _ Hl). reflexivity.
    + reflexivity.
    + rewrite Hn. exact Hs.
Qed.

(** C5: on the file system in memory, for a root directory that does not
    exist, setupDaemonRoot makes it with mode 0755 and in it the empty
    directory "0.0"; for a root directory that exists without "0.0" (its
    entries under distinct names) it makes "0.0", moves every entry of the
    root directory into it, sets the mode of the root directory to 0755
    and leaves its owner and everything outside it as they were; in both
    cases the root directory then holds "0.0" and the directory of the
    configured remapping and nothing else, and a second run right after
    changes nothing. *)
Theorem setupDaemonRoot_layout (cfg : Config) (w : proc) (rootDir : path)
    (uid gid : Z) :
  let s := mkDaemonState cfg w in
  let ns := nsName cfg uid gid in
  (lookup rootDir (tree w) = Err (Errno ENOENT) ->
   exists s',
     setupDaemonRoot rootDir uid gid s = (Ok tt, s')
     /\ Root (config s') = rootDir ++ [ns]
     /\ view rootDir (tree (host s'))
        = Ok (created w mode_0755, None, nsNames ns)
     /\ (exists a0, lookup (rootDir ++ ["0.0"]) (tree (host s')) = Ok (Dir a0 [])
                    /\ a_mode a0 = a_mode (created w mode_0700))
     /\ setupDaemonRoot rootDir uid gid s' = (Ok tt, s'))
  /\ (forall a es,
        lookup rootDir (tree w) = Ok (Dir a es) ->
        assoc "0.0" es = None ->
        NoDup (names es) ->
        exists s',
          setupDaemonRoot rootDir uid gid s = (Ok tt, s')
          /\ Root (config s') = rootDir ++ [ns]
          /\ view rootDir (tree (host s'))
             = Ok (mkAttrs mode_0755 (a_uid a) (a_gid a), None, nsNames ns)
          /\ (forall x q,
                lookup (rootDir ++ "0.0" :: x :: q) (tree (host s'))
                = lookup (rootDir ++ x :: q) (tree w))
          /\ (forall q, isPrefix rootDir q = false ->
                        view q (tree (host s')) = view q (tree w))
          /\ setupDaemonRoot rootDir uid gid s' = (Ok tt, s')).
Proof.
  cbv zeta. split.
  - intros Hl.
    destruct (mkdirAll_fresh rootDir (created w mode_0755) (tree w) Hl)
      as (t1 & Hm & Hl1).
    pose proof (run_fresh cfg w rootDir uid gid t1 Hl Hm Hl1) as Hrun.
    cbv zeta in Hrun. eexists. split; [exact Hrun |].
    cbn [config host Root tree withTree].
    split; [reflexivity |]. split; [| split].
    + unfold view. rewrite (lookup_plug rootDir t1 _ _ Hl1). unfold nsNames.
      destruct (String.eqb (nsName cfg uid gid) "0.0"); reflexivity.
    + rewrite lookup_app, (lookup_plug rootDir t1 _ _ Hl1).
      destruct (chowned_dir uid gid (created w mode_0700) []) as [b Hb].
      destruct (String.eqb (nsName cfg uid gid) "0.0").
      * rewrite Hb. exists b. split; [reflexivity |].
        unfold chowned, chownNode in Hb. cbn in Hb. injection Hb as <-. reflexivity.
      * eexists. split; reflexivity.
    + apply run_again with (d := created w mode_0755) (a00 := created w mode_0700)
                           (es0 := []) (a11 := created w mode_0700) (es1 := []).
      apply (lookup_plug rootDir t1 _ _ Hl1).
  - intros a es Hl H0 Hnd.
    pose proof (run_migration cfg w rootDir uid gid a es Hl H0 Hnd) as Hrun.
    cbv zeta in Hrun. eexists. split; [exact Hrun |].
    cbn [config host Root tree withTree].
    set (l := listing _) in *.
    assert (Hsub : forall x, assoc x (moved "0.0" l es) = assoc x es).
    { intros x. apply assoc_moved.
      - unfold l, listing.
        apply (Permutation_NoDup (Permutation_sym (listing_names _))).
        rewrite names_app. apply NoDup_app; [assumption | repeat constructor; intros [] |].
        intros y Hy [<- | []]. apply assoc_None_names in H0. contradiction.
      - intros Hx. split.
        + unfold l, listing.
          apply (Permutation_in x (Permutation_sym (listing_names _))).
          rewrite names_app. apply in_or_app. auto.
        + intros ->. apply assoc_None_names in H0. contradiction. }
    split; [reflexivity |]. split; [| split; [| split]].
    + unfold view. rewrite (lookup_plug rootDir (tree w) _ _ Hl). unfold nsNames.
      destruct (String.eqb (nsName cfg uid gid) "0.0"); reflexivity.
    + intros x q. rewrite !lookup_app, Hl, (lookup_plug rootDir (tree w) _ _ Hl).
      destruct (chowned_dir uid gid (created w mode_0700) (moved "0.0" l es))
        as [b Hb].
      destruct (String.eqb (nsName cfg uid gid) "0.0");
        rewrite ?Hb; cbn [lookup assoc]; rewrite String.eqb_refl;
        cbn [lookup]; rewrite Hsub; reflexivity.
    + intros q Hq. apply (view_plug rootDir q (tree w) _ _ Hl Hq).
    + apply run_again with (d := mkAttrs mode_0755 (a_uid a) (a_gid a))
                           (a00 := created w mode_0700) (es0 := moved "0.0" l es)
                           (a11 := created w mode_0700) (es1 := []).
      apply (lookup_plug rootDir (tree w) _ _ Hl).
Qed.

Lemma setupDaemonRoot_layout_witness :
  (exists s',
     setupDaemonRoot ["srv"; "docker"] 1000 1000
       (mkDaemonState Samples.remapped Samples.sampleHost) = (Ok tt, s')
     /\ Root (config s') = ["srv"; "docker"; "1000.1000"]
     /\ view ["srv"; "docker"] (tree (host s'))
        = Ok (mkAttrs mode_0755 0 0, None, ["0.0"; "1000.1000"]))
  /\ (exists s',
        setupDaemonRoot ["var"; "lib"; "docker"] 0 0
          (mkDaemonState Samples.unmapped Samples.sampleHost) = (Ok tt, s')
        /\ view ["var"; "lib"; "docker"] (tree (host s'))
           = Ok (mkAttrs mode_0755 0 0, None, ["0.0"])
        /\ lookup ["var"; "lib"; "docker"; "0.0"; "a"] (tree (host s'))
           = Ok (File Samples.rootAttrs "A")
        /\ setupDaemonRoot ["var"; "lib"; "docker"] 0 0 s' = (Ok tt, s')).
Proof.
  split.
  - destruct (proj1 (setupDaemonRoot_layout Samples.remapped Samples.sampleHost
                       ["srv"; "docker"] 1000 1000) eq_refl)
      as (s' & Hrun & Hroot & Hview & _).
    exists s'. auto.
  - assert (Hnd : NoDup (names Samples.flatRoot)).
    { repeat constructor; cbn; intuition discriminate. }
    destruct (proj2 (setupDaemonRoot_layout Samples.unmapped Samples.sampleHost
                       ["var"; "lib"; "docker"] 0 0)
                (mkAttrs mode_0700 0 0) Samples.flatRoot eq_refl eq_refl Hnd)
      as (s' & Hrun & Hroot & Hview & Hmoved & _ & Hagain).
    exists s'. repeat split; try assumption.
    exact (eq_trans (Hmoved "a" []) eq_refl).
Defined.

(** The run on the sample host, computed. *)
Example migrate_flat_root :
  setupDaemonRoot ["var"; "lib"; "docker"] 0 0
    (mkDaemonState Samples.unmapped Samples.sampleHost)
  = (Ok tt,
     mkDaemonState (mkConfig ["var"; "lib"; "docker"; "0.0"] "native" "")
       (mkProc
          (Dir Samples.rootAttrs
             [ ("var",
                Dir Samples.rootAttrs
                  [("lib",
                    Dir Samples.rootAttrs
                      [("docker",
                        Dir (mkAttrs mode_0755 0 0)
                          [("0.0",
                            Dir (mkAttrs mode_0700 0 0)
                              [ ("a", File Samples.rootAttrs "A");
                                ("b", Dir Samples.rootAttrs
                                        [("x", File Samples.rootAttrs "hi")]) ])])])]);
               ("etc", Dir Samples.rootAttrs []) ])
          0 0 18)).
Proof. vm_compute. reflexivity. Qed.

End daemonRootFacts.

(** ** Directories made with an owner *)

Module mkdirAsFacts.
Import os memfs idtools tracing memfsFacts layout daemonRootFacts.

Lemma mkdirAll_top (r : path) (a d : attrs) (es : list (string * node)) (t' : node) :
  mkdirAll r a (Dir d es) = Ok t' -> exists es', t' = Dir d es'.
Proof.
  destruct r as [| x r]; cbn [mkdirAll].
  - intros H. injection H as <-. eauto.
  - destruct (assoc x es) as [k |].
    + destruct (mkdirAll r a k); [| discriminate].
      intros H. injection H as <-. eauto.
    + destruct (mkdirAll r a (Dir a [])); [| discriminate].
      intros H. injection H as <-. eauto.
Qed.

(** MkdirAll gives the directories it makes the attributes of the calling
    process and leaves those of the directories it finds. *)
Lemma mkdirAll_prefix_attrs (q r : path) (a : attrs) :
  forall (t t' : node),
    mkdirAll (q ++ r) a t = Ok t' ->
    exists es',
      lookup q t'
      = Ok (Dir (match lookup q t with Ok n => nodeAttrs n | Err _ => a end) es').
Proof.
  induction q as [| x q IH]; intros t t' H.
  - cbn [app] in H. destruct t as [d dat | d es].
    + destruct r; discriminate.
    + destruct (mkdirAll_top r a d es t' H) as [es' ->]. exists es'. reflexivity.
  - cbn [app] in H. destruct t as [d dat | d es]; [discriminate |].
    cbn [mkdirAll] in H. cbn [lookup].
    destruct (assoc x es) as [k |] eqn:E.
    + destruct (mkdirAll (q ++ r) a k) as [k' |] eqn:Hk; [| discriminate].
      injection H as <-. cbn [lookup].
      rewrite (assoc_setEntry_same x k' k es E). apply (IH k k' Hk).
    + destruct (mkdirAll (q ++ r) a (Dir a [])) as [c' |] eqn:Hc; [| discriminate].
      injection H as <-. cbn [lookup]. rewrite assoc_app, E. cbn [assoc].
      rewrite String.eqb_refl.
      destruct (IH (Dir a []) c' Hc) as [es' He]. exists es'. rewrite He.
      destruct q; cbn; reflexivity.
Qed.

Lemma isPrefix_proper (q r : path) : r <> [] -> isPrefix (q ++ r) q = false.
Proof.
  intros Hr. induction q as [| x q IH]; cbn.
  - destruct r; [contradiction | reflexivity].
  - rewrite String.eqb_refl. exact IH.
Qed.

Lemma mkdirAll_leaf (p : path) (a : attrs) (t t' : node) :
  mkdirAll p a t = Ok t' -> exists d es, lookup p t' = Ok (Dir d es).
Proof.
  intros H. rewrite <- (app_nil_r p) in H.
  destruct (mkdirAll_prefix_attrs p [] a t t' H) as [es' He]. eauto.
Qed.

Lemma chowned_dir_attrs (uid gid : Z) (a : attrs) (es : list (string * node)) :
  exists b, chowned uid gid (Dir a es) = Dir b es /\ a_mode b = a_mode a.
Proof. eexists. split; reflexivity. Qed.

Lemma isPrefix_true (p q : path) :
  isPrefix p q = true -> exists r, q = p ++ r.
Proof.
  revert q. induction p as [| x p IH]; intros q; cbn.
  - eauto.
  - destruct q as [| y q]; [discriminate |].
    intros H. apply andb_true_iff in H as [Hx Hp].
    apply String.eqb_eq in Hx. subst y.
    destruct (IH q Hp) as [r ->]. eauto.
Qed.

Lemma mkdir_exists (p : path) (a : attrs) (t n : node) :
  lookup p t = Ok n -> mkdir p a t = Err (Errno EEXIST).
Proof.
  destruct p as [| y p0]; [reflexivity |].
  destruct (@exists_last _ (y :: p0) ltac:(discriminate)) as (d & x & ->).
  rewrite lookup_app, mkdir_snoc.
  destruct (lookup d t) as [c |] eqn:Hd; [| discriminate].
  rewrite (update_plug d _ t c Hd).
  destruct c as [b dat | b es]; [discriminate |]. cbn.
  destruct (assoc x es); [reflexivity | discriminate].
Qed.

Lemma mkdirAll_err (p : path) (a : attrs) (t : node) (e : error) :
  mkdirAll p a t = Err e -> e = Errno ENOTDIR.
Proof.
  revert t. induction p as [| x p IH]; intros t.
  - destruct t; cbn; [| discriminate]. intros H. injection H as <-. reflexivity.
  - destruct t as [d dat | d es]; cbn [mkdirAll].
    + intros H. injection H as <-. reflexivity.
    + destruct (assoc x es) as [k |].
      * destruct (mkdirAll p a k) eqn:Hk; [discriminate |].
        intros H. injection H as <-. apply (IH k Hk).
      * destruct (mkdirAll p a (Dir a [])) eqn:Hk; [discriminate |].
        intros H. injection H as <-. apply (IH _ Hk).
Qed.

Section calls.
Context {W : Type} (O : OS W).
#[local] Existing Instance O.
Let TO : OS (traced W) := tracedOS O.
#[local] Existing Instance TO.

(** The calls of mkdirAs: the directory call, then at most the one chown
    of the path itself. *)
Lemma mkdirAs_calls (p : path) (mode uid gid : Z) (mkAll : bool) (s : traced W) :
  let first := if mkAll then CallMkdirAll p mode else CallMkdir p mode in
  let s' := snd (mkdirAs p mode uid gid mkAll s) in
  calls s' = calls s ++ [first]
  \/ calls s' = calls s ++ [first; CallChown p uid gid].
Proof.
  cbv zeta. unfold mkdirAs, bind, unlessExists.
  destruct mkAll; cbn; unfold logged; cbn.
  - destruct (MkdirAll p mode (world s)) as [[u | e] w1]; cbn.
    + destruct (Chown p uid gid w1) as [r w2]. cbn.
      rewrite <- app_assoc. auto.
    + destruct (IsExist e); cbn; [| auto].
      destruct (Chown p uid gid w1) as [r w2]. cbn.
      rewrite <- app_assoc. auto.
  - destruct (Mkdir p mode (world s)) as [[u | e] w1]; cbn.
    + destruct (Chown p uid gid w1) as [r w2]. cbn.
      rewrite <- app_assoc. auto.
    + destruct (IsExist e); cbn; [| auto].
      destruct (Chown p uid gid w1) as [r w2]. cbn.
      rewrite <- app_assoc. auto.
Qed.

End calls.

Lemma run_mkdirAs_existing (p : path) (mode uid gid : Z) (mkAll : bool)
    (w : proc) (a : attrs) (es : list (string * node)) :
  lookup p (tree w) = Ok (Dir a es) ->
  mkdirAs p mode uid gid mkAll w
  = (Ok tt, withTree w (plug p (chowned uid gid (Dir a es)) (tree w))).
Proof.
  intros Hl. unfold mkdirAs.
  rewrite (bind_ok _ _ w w tt).
  - cbn [Chown memOS]. apply (run_onTree_update p _ w _ _ Hl).
    reflexivity.
  - destruct mkAll; unfold unlessExists; cbn [MkdirAll Mkdir memOS]; unfold onTree.
    + rewrite (mkdirAll_existing p _ a (tree w) es Hl).
      rewrite withTree_same. reflexivity.
    + rewrite (mkdir_exists p _ (tree w) _ Hl). reflexivity.
Qed.

Lemma lookup_under_dir (r : path) (a a0 : attrs) (es : list (string * node)) :
  r <> [] -> lookup r (Dir a0 es) = lookup r (Dir a es).
Proof. destruct r; [contradiction | reflexivity]. Qed.

(** C10: mkdirAs makes one directory call and then at most one chown, of
    the path it was given; after a MkdirAllAs that succeeds, every
    directory above the last component has the attributes it had before,
    or, if MkdirAllAs made it, the owner and group of the calling process;
    and when the path already leads to a directory, MkdirAs and MkdirAllAs
    change the owner of that directory and nothing else on the file
    system. *)
Theorem mkdirAs_chowns_leaf_only (p : path) (mode uid gid : Z) (w : proc) :
  (forall (mkAll : bool) (cs : list call),
     let first := if mkAll then CallMkdirAll p mode else CallMkdir p mode in
     let s' := snd (@mkdirAs _ (tracedOS memOS) p mode uid gid mkAll (mkTraced w cs)) in
     calls s' = cs ++ [first] \/ calls s' = cs ++ [first; CallChown p uid gid])
  /\ (forall w' q r,
        MkdirAllAs p mode uid gid w = (Ok tt, w') ->
        p = q ++ r -> r <> [] ->
        exists ns,
          view q (tree w')
          = Ok (match lookup q (tree w) with
                | Ok n => nodeAttrs n
                | Err _ => created w mode
                end, None, ns))
  /\ (forall mkAll a es,
        lookup p (tree w) = Ok (Dir a es) ->
        exists w',
          mkdirAs p mode uid gid mkAll w = (Ok tt, w')
          /\ view p (tree w')
             = Ok (nodeAttrs (chowned uid gid (Dir a es)), None, names es)
          /\ a_mode (nodeAttrs (chowned uid gid (Dir a es))) = a_mode a
          /\ (forall q, q <> p -> view q (tree w') = view q (tree w))).
Proof.
  split; [| split].
  - intros mkAll cs. apply (mkdirAs_calls memOS p mode uid gid mkAll (mkTraced w cs)).
  - intros w' q r Hrun -> Hr.
    unfold MkdirAllAs, mkdirAs, bind, unlessExists in Hrun.
    cbn [MkdirAll Chown memOS] in Hrun. unfold onTree in Hrun.
    destruct (mkdirAll (q ++ r) (created w mode) (tree w)) as [t1 | e] eqn:Hm.
    2:{ rewrite (mkdirAll_err _ _ _ _ Hm) in Hrun. discriminate Hrun. }
    cbn [tree withTree] in Hrun.
    destruct (mkdirAll_leaf (q ++ r) _ _ _ Hm) as (d & es & Hleaf).
    rewrite (update_plug (q ++ r) _ t1 _ Hleaf) in Hrun.
    change (chownNode uid gid (Dir d es)) with (Ok (chowned uid gid (Dir d es))) in Hrun.
    injection Hrun as <-. cbn [tree withTree].
    rewrite (view_plug (q ++ r) q t1 _ _ Hleaf (isPrefix_proper q r Hr)).
    destruct (mkdirAll_prefix_attrs q r _ _ _ Hm) as [es' He].
    exists (names es'). unfold view. rewrite He. reflexivity.
  - intros mkAll a es Hl. eexists. split; [apply (run_mkdirAs_existing _ _ _ _ _ _ _ _ Hl) |].
    cbn [tree withTree].
    destruct (chowned_dir_attrs uid gid a es) as (b & Hb & Hmode).
    rewrite Hb. cbn [nodeAttrs]. split; [| split].
    + unfold view. rewrite (lookup_plug p (tree w) _ _ Hl). reflexivity.
    + exact Hmode.
    + intros q Hq. destruct (isPrefix p q) eqn:Hpq.
      * destruct (isPrefix_true p q Hpq) as [r ->].
        assert (Hr : r <> []) by (intros ->; rewrite app_nil_r in Hq; auto).
        unfold view. rewrite !lookup_app, Hl, (lookup_plug p (tree w) _ _ Hl).
        rewrite (lookup_under_dir r a b es Hr). reflexivity.
      * apply (view_plug p q (tree w) _ _ Hl Hpq).
Qed.

Lemma mkdirAs_chowns_leaf_only_witness :
  (exists ns,
     view ["srv"] (tree (snd (MkdirAllAs ["srv"; "docker"] mode_0700 1000 1000
                                Samples.sampleHost)))
     = Ok (mkAttrs (Z.ldiff mode_0700 18) 0 0, None, ns))
  /\ (exists w',
        MkdirAs ["etc"] mode_0700 1000 1000 Samples.sampleHost = (Ok tt, w')
        /\ view ["etc"] (tree w') = Ok (mkAttrs mode_0755 1000 1000, None, [])
        /\ view ["var"] (tree w') = view ["var"] Samples.sampleTree).
Proof.
  split.
  - apply (proj1 (proj2 (mkdirAs_chowns_leaf_only ["srv"; "docker"] mode_0700
                           1000 1000 Samples.sampleHost))
             _ ["srv"] ["docker"]);
      [reflexivity | reflexivity | discriminate].
  - destruct (proj2 (proj2 (mkdirAs_chowns_leaf_only ["etc"] mode_0700
                              1000 1000 Samples.sampleHost))
                false Samples.rootAttrs [] eq_refl)
      as (w' & Hrun & Hview & _ & Hframe).
    exists w'. split; [exact Hrun |]. split; [exact Hview |].
    apply Hframe. discriminate.
Defined.

End mkdirAsFacts.

(** ** Applying a layer *)

Module chrootarchiveFacts.
Import os memfs chrootarchive memfsFacts daemonRootFacts.

Lemma update_confined (p q : path) (f : node -> result node) (t t' : node) :
  update p f t = Ok t' -> isPrefix p q = false -> view q t' = view q t.
Proof.
  intros H Hq. destruct (lookup p t) as [c |] eqn:Hl.
  - rewrite (update_plug p f t c Hl) in H.
    destruct (f c) as [c' |]; [| discriminate]. injection H as <-.
    apply (view_plug p q t c c' Hl Hq).
  - rewrite (update_lookup_err p f t e Hl) in H. discriminate.
Qed.

Lemma confined_ret {A} (a : A) : confined (ret a).
Proof. intros c r c' H. injection H as <- <-. auto. Qed.

Lemma confined_fail {A} (e : error) : confined (@fail child A e).
Proof. intros c r c' H. injection H as <- <-. auto. Qed.

Lemma confined_bind {A B} (m : M child A) (k : A -> M child B) :
  confined m -> (forall a, confined (k a)) -> confined (bind m k).
Proof.
  intros Hm Hk c r c' H. unfold bind in H.
  destruct (m c) as [[a | e] c1] eqn:E.
  - destruct (Hm c _ c1 E) as [Hj Hv]. destruct (Hk a c1 r c' H) as [Hj' Hv'].
    split; [congruence |]. intros q Hq. rewrite Hv' by (rewrite Hj; exact Hq).
    apply Hv, Hq.
  - injection H as <- <-. apply (Hm c _ c1 E).
Qed.

Lemma confined_try {A} (m : M child A) : confined m -> confined (try m).
Proof.
  intros Hm c r c' H. unfold try in H.
  destruct (m c) as [r1 c1] eqn:E. injection H as <- <-. apply (Hm c _ c1 E).
Qed.

Lemma confined_unlessExists (m : M child unit) :
  confined m -> confined (unlessExists m).
Proof.
  intros Hm c r c' H. unfold unlessExists in H.
  destruct (m c) as [[u | e] c1] eqn:E.
  - injection H as <- <-. apply (Hm c _ c1 E).
  - destruct (negb (IsExist e)); injection H as <- <-; apply (Hm c _ c1 E).
Qed.

Lemma confined_inJail (f : proc -> node -> result node) : confined (inJail f).
Proof.
  intros c r c' H. unfold inJail in H.
  destruct (update (jail c) (f (process c)) (tree (process c))) as [t' |] eqn:E.
  - injection H as <- <-. cbn. split; [reflexivity |].
    intros q Hq. apply (update_confined _ q _ _ _ E Hq).
  - injection H as <- <-. auto.
Qed.

Lemma confined_tryTempDir (dir : path) (prefix : string) (draws : list string) :
  confined (tryTempDir dir prefix draws).
Proof.
  induction draws as [| x draws IH]; cbn [tryTempDir].
  - apply confined_fail.
  - apply confined_bind.
    + apply confined_try. apply confined_inJail.
    + intros [u | e]; [apply confined_ret |].
      destruct (IsExist e); [exact IH | apply confined_fail].
Qed.

Lemma confined_unpackEntries (dest : path) (es : list entry) :
  forall size, confined (unpackEntries dest es size).
Proof.
  induction es as [| e es IH]; intros size; cbn [unpackEntries].
  - apply confined_ret.
  - apply confined_bind; [| intros n; apply IH].
    destruct (body e).
    + apply confined_bind;
        [apply confined_unlessExists, confined_inJail | intros _].
      apply confined_bind; [apply confined_inJail | intros _; apply confined_ret].
    + apply confined_bind;
        [apply confined_unlessExists, confined_inJail | intros _; apply confined_ret].
Qed.

(** After its chroot the child is confined. *)
Lemma confined_after_chroot (randomNames : list string) (stdin : list entry)
    (options : TarOptions) :
  confined
    (_ <- Umask 0 ;;
     tmpDir <- TempDir randomNames [] "temp-docker-extract" ;;
     Setenv_TMPDIR tmpDir ;;;
     r <- try (UnpackLayer [] stdin options) ;;
     try (RemoveAll tmpDir) ;;;
     match r with
     | Err e => fail e
     | Ok size => ret (mkApplyLayerResponse size)
     end).
Proof.
  apply confined_bind.
  { intros c r c' H. injection H as <- <-. cbn. auto. }
  intros _. apply confined_bind; [apply confined_tryTempDir |].
  intros tmpDir. apply confined_bind.
  { intros c r c' H. injection H as <- <-. cbn. auto. }
  intros _. apply confined_bind.
  { apply confined_try. apply confined_unpackEntries. }
  intros r. apply confined_bind.
  { apply confined_try. apply confined_inJail. }
  intros _. destruct r; [apply confined_ret | apply confined_fail].
Qed.

Lemma applyLayer_outside (randomNames : list string) (dest : path)
    (stdin : list entry) (c c' : child) (r : result applyLayerResponse) :
  jail c = [] ->
  applyLayer randomNames dest stdin c = (r, c') ->
  forall q, isPrefix (resolve dest) q = false ->
            view q (tree (process c')) = view q (tree (process c)).
Proof.
  intros Hj H q Hq. unfold applyLayer in H.
  unfold bind at 1 in H. cbn [Getenv_OPT] in H.
  destruct (OPT c) as [o |].
  2:{ cbn in H. injection H as <- <-. reflexivity. }
  unfold bind at 1 in H. cbn [ret] in H.
  unfold bind at 1 in H. unfold chroot at 1 in H. rewrite Hj in H. cbn [app] in H.
  destruct (lookup (resolve dest) (tree (process c))) as [[a dat | a es] | e] eqn:Hl.
  - injection H as <- <-. reflexivity.
  - destruct (confined_after_chroot randomNames stdin o _ _ _ H) as [_ Hv].
    cbn [jail process] in Hv. apply Hv, Hq.
  - injection H as <- <-. reflexivity.
Qed.

Lemma resolveFrom_plain (p acc : path) :
  forallb plainName p = true -> resolveFrom acc p = acc ++ p.
Proof.
  revert acc. induction p as [| x p IH]; intros acc; cbn.
  - rewrite app_nil_r. reflexivity.
  - intros H. apply andb_true_iff in H as [Hx Hp]. unfold plainName in Hx.
    apply negb_true_iff in Hx. apply orb_false_iff in Hx as [Hx Hdd].
    rewrite Hx, Hdd, (IH _ Hp), <- app_assoc. reflexivity.
Qed.

Lemma forallb_removelast (f : string -> bool) (l : list string) :
  forallb f l = true -> forallb f (removelast l) = true.
Proof.
  induction l as [| x l IH]; [reflexivity |].
  cbn [forallb]. intros H. apply andb_true_iff in H as [Hx Hl].
  destruct l as [| y l]; [reflexivity |].
  cbn [removelast forallb]. rewrite Hx. apply IH, Hl.
Qed.

Lemma resolveFrom_is_plain (p acc : path) :
  forallb plainName acc = true -> forallb plainName (resolveFrom acc p) = true.
Proof.
  revert acc. induction p as [| x p IH]; intros acc Hacc; cbn; [exact Hacc |].
  destruct (String.eqb x "" || String.eqb x ".") eqn:E1; [apply IH, Hacc |].
  destruct (String.eqb x "..") eqn:E2.
  - apply IH, forallb_removelast, Hacc.
  - apply IH. rewrite forallb_app, Hacc. cbn. unfold plainName.
    rewrite E1, E2. reflexivity.
Qed.

Lemma resolve_resolve (p : list string) : resolve (resolve p) = resolve p.
Proof.
  unfold resolve at 1. rewrite resolveFrom_plain; [reflexivity |].
  apply resolveFrom_is_plain. reflexivity.
Qed.

Lemma ApplyLayer_outside (randomNames : list string) (dest : path)
    (layer : ArchiveReader) (options : option TarOptions) (w w' : proc)
    (r : result Z) :
  ApplyLayer randomNames dest layer options w = (r, w') ->
  forall q, isPrefix (resolve dest) q = false ->
            view q (tree w') = view q (tree w).
Proof.
  intros H q Hq. unfold ApplyLayer in H. cbv zeta in H.
  unfold bind at 1 in H. unfold liftR in H.
  destruct (DecompressStream layer) as [es |].
  2:{ injection H as <- <-. reflexivity. }
  unfold bind, try, Run in H.
  match type of H with
  | context [applyLayer ?rn ?d ?i ?c0] =>
      destruct (applyLayer rn d i c0) as [r1 c1] eqn:E
  end.
  assert (Hv : view q (tree (process c1)) = view q (tree w)).
  { match type of E with
    | applyLayer _ _ _ ?c0 = _ =>
        refine (applyLayer_outside randomNames _ es c0 c1 r1 eq_refl E q _)
    end.
    rewrite resolve_resolve. exact Hq. }
  destruct r1; injection H as <- <-; exact Hv.
Qed.


Section jailed.
Variables (dest : path) (t0 cur0 : node) (eu eg um : Z) (o : option TarOptions).
Hypothesis Hl0 : lookup dest t0 = Ok cur0.

Lemma run_inJail (f : proc -> node -> result node) (cur cur' : node)
    (tm : option path) :
  f (mkProc (plug dest cur t0) eu eg um) cur = Ok cur' ->
  inJail f (jailed dest t0 eu eg um o cur tm)
  = (Ok tt, jailed dest t0 eu eg um o cur' tm).
Proof.
  intros Hf. unfold inJail, jailed. cbn [jail process tree OPT TMPDIR].
  rewrite (update_plug dest _ _ cur (lookup_plug dest t0 cur0 cur Hl0)), Hf.
  unfold withTree. cbn [euid egid umask].
  rewrite (plug_plug dest t0 cur0 cur cur' Hl0). reflexivity.
Qed.

End jailed.

Lemma unlessExists_ok {W} (m : M W unit) (s s1 : W) :
  m s = (Ok tt, s1) -> unlessExists m s = (Ok tt, s1).
Proof. intros H. unfold unlessExists. rewrite H. reflexivity. Qed.

Lemma applyLayer_two_entries (draws : list string) (suffix : string) (dest : path)
    (w : proc) (a : attrs) (X Y : string) (m1 m2 : Z) (opts : TarOptions) :
  resolve dest = dest ->
  lookup dest (tree w) = Ok (Dir a []) ->
  let mk := fun mode => mkAttrs (Z.ldiff mode 0) (euid w) (egid w) in
  let tmp := ("temp-docker-extract" ++ suffix)%string in
  applyLayer (suffix :: draws) dest
    [ mkEntry "etc/hostname" m1 (RegularFile X);
      mkEntry "../escape" m2 (RegularFile Y) ]
    (mkChild w [] (Some opts) None)
  = (Ok (mkApplyLayerResponse
           (0 + Z.of_nat (String.length X) + Z.of_nat (String.length Y))),
     jailed dest (tree w) (euid w) (egid w) 0 (Some opts)
       (Dir a [ ("etc", Dir (mk mode_0755) [("hostname", File (mk m1) X)]);
                ("escape", File (mk m2) Y) ])
       (Some [tmp])).
Proof.
  intros Hres Hl. cbv zeta.
  set (tmp := ("temp-docker-extract" ++ suffix)%string).
  set (J := jailed dest (tree w) (euid w) (egid w) 0 (Some opts)).
  set (mk := fun mode => mkAttrs (Z.ldiff mode 0) (euid w) (egid w)).
  pose (tmpE := (tmp, Dir (mk mode_0700) [])).
  pose (cur1 := Dir a [tmpE]).
  pose (cur2 := Dir a [tmpE; ("etc", Dir (mk mode_0755) [])]).
  pose (cur3 := Dir a [tmpE; ("etc", Dir (mk mode_0755) [("hostname", File (mk m1) X)])]).
  pose (cur4 := Dir a [tmpE; ("etc", Dir (mk mode_0755) [("hostname", File (mk m1) X)]);
                       ("escape", File (mk m2) Y)]).
  assert (Htmp : resolve [tmp] = [tmp]) by reflexivity.
  assert (Hstep : forall f cur cur' tm,
             f (mkProc (plug dest cur (tree w)) (euid w) (egid w) 0) cur = Ok cur' ->
             inJail f (J cur tm) = (Ok tt, J cur' tm)).
  { intros f cur cur' tm. apply (run_inJail dest (tree w) _ _ _ _ _ Hl). }
  unfold applyLayer.
  set (c0 := mkChild w [] (Some opts) None).
  rewrite (bind_ok Getenv_OPT _ c0 c0 (Some opts) eq_refl).
  cbv beta iota.
  rewrite (bind_ok (ret opts) _ c0 c0 opts eq_refl).
  rewrite (bind_ok _ _ _ (mkChild w dest (Some opts) None) tt).
  2:{ unfold chroot, c0. cbn [jail process app OPT TMPDIR]. rewrite Hres, Hl.
      reflexivity. }
  rewrite (bind_ok _ _ _ (J (Dir a []) None) (umask w)).
  2:{ unfold Umask, J, jailed. cbn [jail process OPT TMPDIR tree euid egid umask].
      rewrite (plug_same dest (tree w) _ Hl). reflexivity. }
  rewrite (bind_ok _ _ _ (J cur1 None) [tmp]).
  2:{ unfold TempDir. cbn [tryTempDir app]. fold tmp.
      rewrite (bind_ok _ _ _ (J cur1 None) (Ok tt)); [reflexivity |].
      apply try_run. cbn [Mkdir childOS]. apply Hstep. rewrite Htmp. reflexivity. }
  rewrite (bind_ok _ _ _ (J cur1 (Some [tmp])) tt) by reflexivity.
  rewrite (bind_ok _ _ _ (J cur4 (Some [tmp]))
             (Ok (0 + Z.of_nat (String.length X) + Z.of_nat (String.length Y)))).
  2:{ apply try_run. unfold UnpackLayer. cbn [unpackEntries body entryName entryMode app].
      change (strings.Split "etc/hostname" "/") with ["etc"; "hostname"].
      change (strings.Split "../escape" "/") with [".."; "escape"].
      cbn [removelast].
      rewrite (bind_ok _ _ _ (J cur3 (Some [tmp])) (Z.of_nat (String.length X))).
      2:{ rewrite (bind_ok _ _ _ (J cur2 (Some [tmp])) tt).
          2:{ apply unlessExists_ok. cbn [MkdirAll childOS]. apply Hstep. reflexivity. }
          rewrite (bind_ok _ _ _ (J cur3 (Some [tmp])) tt); [reflexivity |].
          cbn [WriteFile childOS]. apply Hstep. reflexivity. }
      rewrite (bind_ok _ _ _ (J cur4 (Some [tmp])) (Z.of_nat (String.length Y)));
        [reflexivity |].
      rewrite (bind_ok _ _ _ (J cur3 (Some [tmp])) tt).
      2:{ apply unlessExists_ok. cbn [MkdirAll childOS]. apply Hstep. reflexivity. }
      rewrite (bind_ok _ _ _ (J cur4 (Some [tmp])) tt); [reflexivity |].
      cbn [WriteFile childOS]. apply Hstep. reflexivity. }
  rewrite (bind_ok _ _ _
             (J (Dir a [ ("etc", Dir (mk mode_0755) [("hostname", File (mk m1) X)]);
                         ("escape", File (mk m2) Y) ]) (Some [tmp])) (Ok tt));
    [reflexivity |].
  apply try_run. cbn [RemoveAll childOS]. apply Hstep. rewrite Htmp.
  unfold removeAll, cur4, tmpE. cbn [unsnoc lookup assoc update removeAt delEntry filter fst].
  rewrite String.eqb_refl. cbn [negb]. reflexivity.
Qed.

(** C2: whatever the stream, after ApplyLayer every path that does not
    lie under the destination shows what it showed before: its attributes,
    its content, the names in it; and for a destination that is an empty
    directory and the archive of the regular file etc/hostname with
    content X and the entry ../escape, ApplyLayer succeeds, the file
    etc/hostname under the destination has content X, the entry ../escape
    is the file escape under the destination, and the size returned is at
    least the length of X. *)
Theorem ApplyLayer_stays_in_destination (draws : list string) (dest : path)
    (options : option TarOptions) (w : proc) :
  (forall layer r w',
     ApplyLayer draws dest layer options w = (r, w') ->
     forall q, isPrefix (resolve dest) q = false ->
               view q (tree w') = view q (tree w))
  /\ (forall suffix rest a X Y m1 m2,
        draws = suffix :: rest ->
        resolve dest = dest ->
        lookup dest (tree w) = Ok (Dir a []) ->
        exists size w',
          ApplyLayer draws dest
            (Plain [ mkEntry "etc/hostname" m1 (RegularFile X);
                     mkEntry "../escape" m2 (RegularFile Y) ])
            options w = (Ok size, w')
          /\ Z.of_nat (String.length X) <= size
          /\ lookup (dest ++ ["etc"; "hostname"]) (tree w')
             = Ok (File (mkAttrs m1 (euid w) (egid w)) X)
          /\ lookup (dest ++ ["escape"]) (tree w')
             = Ok (File (mkAttrs m2 (euid w) (egid w)) Y)
          /\ view dest (tree w') = Ok (a, None, ["etc"; "escape"])).
Proof.
  split.
  - intros layer r w'. apply ApplyLayer_outside.
  - intros suffix rest a X Y m1 m2 -> Hres Hl.
    unfold ApplyLayer. cbv zeta. rewrite Hres.
    set (es := [ mkEntry "etc/hostname" m1 (RegularFile X);
                 mkEntry "../escape" m2 (RegularFile Y) ]).
    rewrite (bind_ok (liftR (DecompressStream (Plain es))) _ w w es eq_refl).
    set (opts := match ExcludePatterns _ with Some _ => _ | None => _ end).
    pose proof (applyLayer_two_entries rest suffix dest w a X Y m1 m2 opts Hres Hl)
      as Hrun.
    cbv beta zeta in Hrun. rewrite !Z.ldiff_0_r in Hrun.
    eexists. eexists. split.
    + unfold bind, try, Run, es. rewrite Hrun. reflexivity.
    + unfold jailed. cbn [tree withTree process LayerSize].
      split; [lia |].
      rewrite !lookup_app, (lookup_plug dest (tree w) _ _ Hl).
      split; [| split].
      * reflexivity.
      * reflexivity.
      * unfold view. rewrite (lookup_plug dest (tree w) _ _ Hl). reflexivity.
Qed.

Lemma ApplyLayer_stays_in_destination_witness :
  exists size w',
    ApplyLayer ["0"] ["etc"]
      (Plain [ mkEntry "etc/hostname" 420 (RegularFile "box");
               mkEntry "../escape" 420 (RegularFile "out") ])
      None Samples.sampleHost = (Ok size, w')
    /\ 3 <= size
    /\ lookup ["etc"; "etc"; "hostname"] (tree w')
       = Ok (File (mkAttrs 420 0 0) "box")
    /\ lookup ["etc"; "escape"] (tree w') = Ok (File (mkAttrs 420 0 0) "out")
    /\ view [] (tree w') = view [] Samples.sampleTree
    /\ view ["var"] (tree w') = view ["var"] Samples.sampleTree.
Proof.
  pose proof (ApplyLayer_stays_in_destination ["0"] ["etc"] None
                Samples.sampleHost) as [Hout Hin].
  destruct (Hin "0" [] Samples.rootAttrs "box" "out" 420 420
              eq_refl eq_refl eq_refl)
    as (size & w' & Hrun & Hsize & Hfile & Hesc & _).
  exists size, w'. split; [exact Hrun |]. split; [exact Hsize |].
  split; [exact Hfile |]. split; [exact Hesc |].
  split; apply (Hout _ _ _ Hrun); reflexivity.
Defined.

End chrootarchiveFacts.

(** ** The driver *)

Module devmapperFacts.
Import os idtools tracing devmapper.

#[local] Existing Instance tracing.tracedOS.
#[local] Existing Instance devmapper.tracedDeviceSet.
#[local] Existing Instance Samples.sampleOS.
#[local] Existing Instance Samples.sampleDeviceSet.

Section driver.
Context {W : Type} (O : OS W) (D : DeviceSet W).

#[local] Existing Instance O.
#[local] Existing Instance D.

Let TO : OS (traced W) := tracedOS O.
Let TD : DeviceSet (traced W) := tracedDeviceSet D.

#[local] Existing Instance TO.
#[local] Existing Instance TD.

(** C7: when HasDevice answers false, Remove returns no error after that
    one call; when it answers true, Remove calls DeleteDevice and returns
    its error if it fails, else removes home/mnt/<id> with RemoveAll and
    returns that call's error unless it is absent or a not-exist error. *)
Theorem Remove_absent_noop_present_deleted
    (d : Driver) (id : string) (s : traced W) :
  let mp := home d ++ ["mnt"; id] in
  (forall w1, HasDevice id (world s) = (false, w1) ->
     Remove d id s = (Ok tt, mkTraced w1 (calls s ++ [CallHasDevice id])))
  /\ (forall w1 w2 e,
        HasDevice id (world s) = (true, w1) ->
        DeleteDevice id w1 = (Err e, w2) ->
        Remove d id s
        = (Err e, mkTraced w2 (calls s ++ [CallHasDevice id; CallDeleteDevice id])))
  /\ (forall w1 w2 w3 u r,
        HasDevice id (world s) = (true, w1) ->
        DeleteDevice id w1 = (Ok u, w2) ->
        RemoveAll mp w2 = (r, w3) ->
        Remove d id s
        = (match r with
           | Ok _ => Ok tt
           | Err e => if IsNotExist e then Ok tt else Err e
           end,
           mkTraced w3 (calls s ++ [CallHasDevice id; CallDeleteDevice id;
                                    CallRemoveAll mp]))).
Proof.
  cbv zeta. unfold Remove, bind, try, ret, fail. cbn. unfold logged. cbn.
  split; [| split].
  - intros w1 H. rewrite H. reflexivity.
  - intros w1 w2 e H1 H2. rewrite H1. cbn. rewrite H2.
    rewrite <- app_assoc. reflexivity.
  - intros w1 w2 w3 u r H1 H2 H3. rewrite H1. cbn. rewrite H2. cbn.
    rewrite H3. rewrite <- !app_assoc. cbn.
    destruct r as [[] | e]; [reflexivity |].
    destruct (IsNotExist e); reflexivity.
Qed.

(** Splits on the answer of the next call of the run. *)
Ltac next_call :=
  match goal with
  | |- context [match ?x with _ => _ end] =>
      lazymatch x with
      | context [match _ with _ => _ end] => fail
      | _ => destruct x eqn:?
      end
  | |- context [if ?x then _ else _] =>
      lazymatch x with
      | context [match _ with _ => _ end] => fail
      | _ => destruct x eqn:?
      end
  end; cbn.

Ltac mounted_by_hyp :=
  match goal with
  | H : MountDevice _ _ _ ?w = _ |- _ => exists w; rewrite H; reflexivity
  end.

Lemma Get_outcome (d : Driver) (id mountLabel : string) (s : traced W) :
  exists cs,
    calls (snd (Get d id mountLabel s)) = calls s ++ cs
    /\ GetOutcome d id mountLabel
         (fun r => exists w,
            fst (@MountDevice W D id (home d ++ ["mnt"; id]) mountLabel w) = r)
         (fst (Get d id mountLabel s)) cs.
Proof.
  unfold Get, MkdirAllAs, MkdirAs, mkdirAs, bind, try, ret, fail, liftR,
    unlessExists, GetOutcome.
  cbn. unfold logged. cbn.
  repeat next_call;
    repeat match goal with u : unit |- _ => destruct u end;
    repeat rewrite <- app_assoc; cbn;
    (eexists; split; [first [reflexivity | symmetry; apply app_nil_r] |]); cbn;
    try (repeat split; reflexivity);
    try (left; split; reflexivity);
    try (right; left; repeat split; try reflexivity; mounted_by_hyp);
    try (right; right; repeat split; try reflexivity; mounted_by_hyp).
Qed.

Lemma count_app (f : call -> bool) (l l' : list call) :
  count f (l ++ l') = (count f l + count f l')%nat.
Proof. unfold count. rewrite filter_app, length_app. reflexivity. Qed.

(** [Get] is its preparation, the mount, and then [afterMount]. *)
Lemma Get_after_mount (d : Driver) (id mountLabel : string) :
  Get d id mountLabel
  = (ids <- liftR (GetRootUIDGID (uidMaps d) (gidMaps d)) ;;
     let '(uid, gid) := ids in
     unlessExists (MkdirAllAs (home d ++ ["mnt"]) mode_0755 uid gid) ;;;
     unlessExists (MkdirAs (home d ++ ["mnt"; id]) mode_0755 uid gid) ;;;
     MountDevice id (home d ++ ["mnt"; id]) mountLabel ;;;
     afterMount d id uid gid).
Proof. reflexivity. Qed.

Lemma afterMount_outcome (d : Driver) (id : string) (uid gid : Z) (s : traced W) :
  exists cs,
    calls (snd (afterMount d id uid gid s)) = calls s ++ cs
    /\ count isMount cs = 0%nat
    /\ match fst (afterMount d id uid gid s) with
       | Ok rootFs =>
           rootFs = home d ++ ["mnt"; id; "rootfs"] /\ count isUnmount cs = 0%nat
       | Err e =>
           count isUnmount cs = 1%nat /\ lastCall cs = Some (CallUnmountDevice id)
       end.
Proof.
  unfold afterMount, MkdirAllAs, mkdirAs, bind, try, ret, fail, unlessExists.
  cbn. unfold logged. cbn.
  repeat next_call;
    repeat rewrite <- app_assoc; cbn;
    (eexists; split; [first [reflexivity | symmetry; apply app_nil_r] |]); cbn;
    repeat split; reflexivity.
Qed.


End driver.

Lemma Remove_absent_noop_present_deleted_witness :
  Remove Samples.sampleDriver "gone" Samples.sampleDeviceHost
  = (Ok tt,
     mkTraced (world Samples.sampleDeviceHost) [CallHasDevice "gone"])
  /\ fst (Remove Samples.sampleDriver "layer1" Samples.sampleDeviceHost) = Ok tt
  /\ calls (snd (Remove Samples.sampleDriver "layer1" Samples.sampleDeviceHost))
     = [ CallHasDevice "layer1"; CallDeleteDevice "layer1";
         CallRemoveAll ["var"; "lib"; "docker"; "mnt"; "layer1"] ].
Proof.
  pose proof (Remove_absent_noop_present_deleted Samples.sampleOS
                Samples.sampleDeviceSet Samples.sampleDriver "gone"
                Samples.sampleDeviceHost) as Hgone.
  pose proof (Remove_absent_noop_present_deleted Samples.sampleOS
                Samples.sampleDeviceSet Samples.sampleDriver "layer1"
                Samples.sampleDeviceHost) as Hthere.
  cbv zeta in Hgone, Hthere.
  split.
  - apply (proj1 Hgone). reflexivity.
  - rewrite (proj2 (proj2 Hthere) _ _ _ tt (Ok tt) eq_refl eq_refl eq_refl).
    split; reflexivity.
Defined.


(** A Get for a device the set does not know: the mount fails, nothing is
    unmounted. *)
Example Get_unknown_device :
  fst (Get Samples.sampleDriver "gone" "" Samples.sampleDeviceHost)
  = Err (ErrOther "unknown device")
  /\ count isMount (calls (snd (Get Samples.sampleDriver "gone" ""
                                  Samples.sampleDeviceHost))) = 1%nat
  /\ count isUnmount (calls (snd (Get Samples.sampleDriver "gone" ""
                                    Samples.sampleDeviceHost))) = 0%nat.
Proof. repeat split. Qed.

End devmapperFacts.

(** ** Any id-map table *)

Module tableFacts.
Import GoInt idtools GoIntFacts.

(** What a successful scan returns: the offset into the first range that
    covers the id, carried over to the other side. *)
Lemma scanToHost_ok (c h : Z) (ms : list IDMap) :
  scanToHost c ms = Ok h ->
  exists m, In m ms /\ covers m c = true
            /\ h = add (HostID m) (sub c (ContainerID m)).
Proof.
  induction ms as [| m ms IH]; cbn [scanToHost]; [discriminate |].
  destruct ((c >=? ContainerID m) && (c <=? sub (add (ContainerID m) (Size m)) 1))
    eqn:E.
  - intros H. injection H as <-. exists m. repeat split; [left; reflexivity | exact E].
  - intros H. destruct (IH H) as (m' & Hin & Hc & Hh).
    exists m'. repeat split; [right; assumption | assumption | assumption].
Qed.

Lemma scanToContainer_ok (c h : Z) (ms : list IDMap) :
  scanToContainer h ms = Ok c ->
  exists m, In m ms /\ coversHost m h = true
            /\ c = add (ContainerID m) (sub h (HostID m)).
Proof.
  induction ms as [| m ms IH]; cbn [scanToContainer]; [discriminate |].
  destruct ((h >=? HostID m) && (h <=? sub (add (HostID m) (Size m)) 1)) eqn:E.
  - intros H. injection H as <-. exists m. repeat split; [left; reflexivity | exact E].
  - intros H. destruct (IH H) as (m' & Hin & Hc & Hh).
    exists m'. repeat split; [right; assumption | assumption | assumption].
Qed.

Lemma scanToHost_covered (c : Z) (ms : list IDMap) :
  existsb (fun m => covers m c) ms = true -> exists h, scanToHost c ms = Ok h.
Proof.
  induction ms as [| m ms IH]; cbn [existsb scanToHost]; [discriminate |].
  unfold covers at 1.
  destruct ((c >=? ContainerID m) && (c <=? sub (add (ContainerID m) (Size m)) 1)).
  - intros _. eexists. reflexivity.
  - cbn. exact IH.
Qed.

Lemma scanToContainer_covered (h : Z) (ms : list IDMap) :
  existsb (fun m => coversHost m h) ms = true -> exists c, scanToContainer h ms = Ok c.
Proof.
  induction ms as [| m ms IH]; cbn [existsb scanToContainer]; [discriminate |].
  unfold coversHost at 1.
  destruct ((h >=? HostID m) && (h <=? sub (add (HostID m) (Size m)) 1)).
  - intros _. eexists. reflexivity.
  - cbn. exact IH.
Qed.

(** In a table without overlap on the host side the scan stops at the
    one range that covers the host id. *)
Lemma scanToContainer_at (h : Z) (m : IDMap) (ms : list IDMap) :
  (forall m', In m' ms -> coversHost m' h = true -> m' = m) ->
  In m ms -> coversHost m h = true ->
  scanToContainer h ms = Ok (add (ContainerID m) (sub h (HostID m))).
Proof.
  induction ms as [| m0 ms IH]; intros Hu Hin Hc; [contradiction |].
  cbn [scanToContainer].
  destruct ((h >=? HostID m0) && (h <=? sub (add (HostID m0) (Size m0)) 1)) eqn:E.
  - rewrite (Hu m0 (or_introl eq_refl) E). reflexivity.
  - destruct Hin as [-> | Hin].
    + unfold coversHost in Hc. congruence.
    + apply IH; [| assumption | assumption].
      intros m' Hm'. apply Hu. right. assumption.
Qed.

Lemma scanToHost_at (c : Z) (m : IDMap) (ms : list IDMap) :
  (forall m', In m' ms -> covers m' c = true -> m' = m) ->
  In m ms -> covers m c = true ->
  scanToHost c ms = Ok (add (HostID m) (sub c (ContainerID m))).
Proof.
  induction ms as [| m0 ms IH]; intros Hu Hin Hc; [contradiction |].
  cbn [scanToHost].
  destruct ((c >=? ContainerID m0)
            && (c <=? sub (add (ContainerID m0) (Size m0)) 1)) eqn:E.
  - rewrite (Hu m0 (or_introl eq_refl) E). reflexivity.
  - destruct Hin as [-> | Hin].
    + unfold covers in Hc. congruence.
    + apply IH; [| assumption | assumption].
      intros m' Hm'. apply Hu. right. assumption.
Qed.

(** Within a well-formed range the translation is the plain offset and
    lands in the interval of the other side. *)
Lemma toHost_in_range (m : IDMap) (c : Z) :
  wellFormed m -> covers m c = true ->
  add (HostID m) (sub c (ContainerID m)) = HostID m + (c - ContainerID m)
  /\ coversHost m (HostID m + (c - ContainerID m)) = true
  /\ add (ContainerID m) (sub (HostID m + (c - ContainerID m)) (HostID m)) = c.
Proof.
  unfold wellFormed, covers, coversHost.
  intros (H1 & H2 & H3 & H4 & H5 & H6).
  rewrite (add_small (ContainerID m) (Size m)) by assumption.
  rewrite (add_small (HostID m) (Size m)) by assumption.
  rewrite (sub_small (ContainerID m + Size m) 1) by assumption.
  rewrite (sub_small (HostID m + Size m) 1) by assumption.
  intros Hc. apply andb_prop in Hc as [Ha Hb].
  rewrite Z.geb_leb in Ha. apply Z.leb_le in Ha. apply Z.leb_le in Hb.
  assert (I1 : is_int (c - ContainerID m)) by int_bounds.
  rewrite (sub_small c (ContainerID m)) by assumption.
  assert (I2 : is_int (HostID m + (c - ContainerID m))) by int_bounds.
  rewrite (add_small (HostID m) (c - ContainerID m)) by assumption.
  split; [reflexivity |]. split.
  - apply andb_true_intro. rewrite Z.geb_leb. split; apply Z.leb_le; lia.
  - assert (I3 : is_int (HostID m + (c - ContainerID m) - HostID m)) by int_bounds.
    rewrite (sub_small _ (HostID m)) by assumption.
    rewrite add_small by int_bounds. lia.
Qed.

Lemma toContainer_in_range (m : IDMap) (h : Z) :
  wellFormed m -> coversHost m h = true ->
  add (ContainerID m) (sub h (HostID m)) = ContainerID m + (h - HostID m)
  /\ covers m (ContainerID m + (h - HostID m)) = true
  /\ add (HostID m) (sub (ContainerID m + (h - HostID m)) (ContainerID m)) = h.
Proof.
  unfold wellFormed, covers, coversHost.
  intros (H1 & H2 & H3 & H4 & H5 & H6).
  rewrite (add_small (ContainerID m) (Size m)) by assumption.
  rewrite (add_small (HostID m) (Size m)) by assumption.
  rewrite (sub_small (ContainerID m + Size m) 1) by assumption.
  rewrite (sub_small (HostID m + Size m) 1) by assumption.
  intros Hc. apply andb_prop in Hc as [Ha Hb].
  rewrite Z.geb_leb in Ha. apply Z.leb_le in Ha. apply Z.leb_le in Hb.
  assert (I1 : is_int (h - HostID m)) by int_bounds.
  rewrite (sub_small h (HostID m)) by assumption.
  assert (I2 : is_int (ContainerID m + (h - HostID m))) by int_bounds.
  rewrite (add_small (ContainerID m) (h - HostID m)) by assumption.
  split; [reflexivity |]. split.
  - apply andb_true_intro. rewrite Z.geb_leb. split; apply Z.leb_le; lia.
  - assert (I3 : is_int (ContainerID m + (h - HostID m) - ContainerID m)) by int_bounds.
    rewrite (sub_small _ (ContainerID m)) by assumption.
    rewrite add_small by int_bounds. lia.
Qed.

(** X1: on an allocated table a translation succeeds exactly for the ids
    some range covers, and what it returns is the id's offset into a
    range that covers it, added to the start of that range on the other
    side. *)
Theorem Translate_succeeds_iff_covered (id : Z) (ms : list IDMap) :
  ((exists h, TranslateIDToHost id (Some ms) = Ok h)
     <-> covered id (Some ms) = true)
  /\ ((exists c, TranslateIDToContainer id (Some ms) = Ok c)
        <-> coveredHost id (Some ms) = true)
  /\ (forall h, TranslateIDToHost id (Some ms) = Ok h ->
        exists m, In m ms /\ covers m id = true
                  /\ h = add (HostID m) (sub id (ContainerID m)))
  /\ (forall c, TranslateIDToContainer id (Some ms) = Ok c ->
        exists m, In m ms /\ coversHost m id = true
                  /\ c = add (ContainerID m) (sub id (HostID m))).
Proof.
  cbn [TranslateIDToHost TranslateIDToContainer covered coveredHost].
  split; [| split; [| split]].
  - split.
    + intros [h H]. destruct (scanToHost_ok _ _ _ H) as (m & Hin & Hc & _).
      apply existsb_exists. exists m. auto.
    + apply scanToHost_covered.
  - split.
    + intros [c H]. destruct (scanToContainer_ok _ _ _ H) as (m & Hin & Hc & _).
      apply existsb_exists. exists m. auto.
    + apply scanToContainer_covered.
  - intros h. apply scanToHost_ok.
  - intros c. apply scanToContainer_ok.
Qed.

Lemma Translate_succeeds_iff_covered_witness :
  covered 5 (Some [mkIDMap 0 1000 1; mkIDMap 1 1 999]) = true
  /\ exists m, In m [mkIDMap 0 1000 1; mkIDMap 1 1 999] /\ covers m 0 = true
               /\ 1000 = add (HostID m) (sub 0 (ContainerID m)).
Proof.
  split.
  - apply (proj1 (proj1 (Translate_succeeds_iff_covered 5
                           [mkIDMap 0 1000 1; mkIDMap 1 1 999]))).
    exists 5. reflexivity.
  - apply (proj1 (proj2 (proj2 (Translate_succeeds_iff_covered 0
                                  [mkIDMap 0 1000 1; mkIDMap 1 1 999]))) 1000).
    reflexivity.
Defined.

(** X2: in a table of well-formed ranges that do not overlap on the host
    side, a container id that translates to a host id is what that host
    id translates back to; and the same from the host side for ranges
    that do not overlap on the container side. *)
Theorem Translate_roundtrip_any_table (ms : list IDMap) :
  Forall wellFormed ms ->
  (hostDisjoint ms ->
   forall c h, TranslateIDToHost c (Some ms) = Ok h ->
               TranslateIDToContainer h (Some ms) = Ok c)
  /\ (containerDisjoint ms ->
      forall h c, TranslateIDToContainer h (Some ms) = Ok c ->
                  TranslateIDToHost c (Some ms) = Ok h).
Proof.
  intros Hwf. rewrite Forall_forall in Hwf.
  cbn [TranslateIDToHost TranslateIDToContainer]. split.
  - intros Hd c h H.
    destruct (scanToHost_ok _ _ _ H) as (m & Hin & Hc & ->).
    destruct (toHost_in_range m c (Hwf m Hin) Hc) as (E1 & E2 & E3).
    rewrite E1.
    rewrite (scanToContainer_at _ m); [rewrite E3; reflexivity | | assumption | assumption].
    intros m' Hin' Hc'. apply (Hd m' m _ Hin' Hin Hc' E2).
  - intros Hd h c H.
    destruct (scanToContainer_ok _ _ _ H) as (m & Hin & Hc & ->).
    destruct (toContainer_in_range m h (Hwf m Hin) Hc) as (E1 & E2 & E3).
    rewrite E1.
    rewrite (scanToHost_at _ m); [rewrite E3; reflexivity | | assumption | assumption].
    intros m' Hin' Hc'. apply (Hd m' m _ Hin' Hin Hc' E2).
Qed.

(** The tables built for a remap target are of this kind. *)
Lemma createIDMap_wellFormed (id : Z) :
  in_remap_domain id -> Forall wellFormed (ranges (createIDMap id)).
Proof.
  intros H. rewrite idtoolsFacts.createIDMap_ranges by assumption.
  unfold in_remap_domain in H. cbn [ranges].
  repeat constructor; cbn [ContainerID HostID Size]; int_bounds.
Qed.

Lemma createIDMap_disjoint (id : Z) :
  in_remap_domain id ->
  hostDisjoint (ranges (createIDMap id))
  /\ containerDisjoint (ranges (createIDMap id)).
Proof.
  intros H. rewrite idtoolsFacts.createIDMap_ranges by assumption.
  unfold in_remap_domain, hostDisjoint, containerDisjoint in *. cbn [ranges].
  split; intros m1 m2 x H1 H2;
    cbn [In] in H1, H2;
    destruct H1 as [<- | [<- | [<- | []]]];
    destruct H2 as [<- | [<- | [<- | []]]];
    unfold covers, coversHost, MaxInt32 in *; cbn [ContainerID HostID Size];
    int_norm; try reflexivity;
    rewrite !Z.geb_leb; intros A B;
    apply andb_prop in A as [A1 A2]; apply andb_prop in B as [B1 B2];
    apply Z.leb_le in A1, A2, B1, B2; lia.
Qed.

Lemma Translate_roundtrip_any_table_witness :
  TranslateIDToContainer 1000 (Some [mkIDMap 0 1000 1; mkIDMap 1 1 999]) = Ok 0
  /\ TranslateIDToHost 5 (Some [mkIDMap 0 1000 1; mkIDMap 1 1 999]) = Ok 5.
Proof.
  assert (W : Forall wellFormed [mkIDMap 0 1000 1; mkIDMap 1 1 999]).
  { repeat constructor; cbn; unfold is_int, min_int, max_int; lia. }
  assert (D : hostDisjoint [mkIDMap 0 1000 1; mkIDMap 1 1 999]
              /\ containerDisjoint [mkIDMap 0 1000 1; mkIDMap 1 1 999]).
  { split; intros m1 m2 x H1 H2; cbn [In] in H1, H2;
      destruct H1 as [<- | [<- | []]]; destruct H2 as [<- | [<- | []]];
      try reflexivity; unfold covers, coversHost; cbn;
      rewrite !Z.geb_leb; intros A B;
      apply andb_prop in A as [A1 A2]; apply andb_prop in B as [B1 B2];
      apply Z.leb_le in A1, A2, B1, B2; lia. }
  split.
  - apply (proj1 (Translate_roundtrip_any_table _ W) (proj1 D) 0 1000). reflexivity.
  - apply (proj2 (Translate_roundtrip_any_table _ W) (proj2 D) 5 5). reflexivity.
Defined.

(** X3: the root ids GetRootUIDGID reads from the tables
    CreateIDMapsForRoot builds are the ids they were built for; a nil
    table on either side stands for root itself. *)
Theorem GetRootUIDGID_of_root_tables (uid gid : Z) :
  in_remap_domain uid -> in_remap_domain gid ->
  exists uidMap gidMap,
    CreateIDMapsForRoot uid gid = Ok (uidMap, gidMap)
    /\ GetRootUIDGID uidMap gidMap = Ok (uid, gid)
    /\ GetRootUIDGID uidMap None = Ok (uid, 0)
    /\ GetRootUIDGID None gidMap = Ok (0, gid).
Proof.
  intros Hu Hg. exists (createIDMap uid), (createIDMap gid).
  split; [apply idtoolsFacts.CreateIDMapsForRoot_ok; unfold in_remap_domain in *; lia |].
  pose proof (idtoolsFacts.toHost_root uid Hu) as Eu.
  pose proof (idtoolsFacts.toHost_root gid Hg) as Eg.
  unfold GetRootUIDGID.
  destruct (createIDMap uid) as [us |] eqn:Du; [| discriminate Du].
  destruct (createIDMap gid) as [gs |] eqn:Dg; [| discriminate Dg].
  rewrite Eu, Eg. repeat split.
Qed.

Lemma GetRootUIDGID_of_root_tables_witness :
  exists uidMap gidMap,
    CreateIDMapsForRoot 1000 2000 = Ok (uidMap, gidMap)
    /\ GetRootUIDGID uidMap gidMap = Ok (1000, 2000)
    /\ GetRootUIDGID uidMap None = Ok (1000, 0)
    /\ GetRootUIDGID None gidMap = Ok (0, 2000).
Proof.
  apply (GetRootUIDGID_of_root_tables 1000 2000);
    unfold in_remap_domain, max_int; lia.
Defined.

(** X4: a table that is allocated but has no range for container id 0
    makes GetRootUIDGID fail with the translation's error; the uid table
    is read first. *)
Theorem GetRootUIDGID_unmapped_root (uidMap gidMap : slice IDMap) :
  (uidMap <> None -> covered 0 uidMap = false ->
     GetRootUIDGID uidMap gidMap = Err (ErrContainerIDUnmappable 0))
  /\ (forall uid, TranslateIDToHost 0 uidMap = Ok uid ->
        gidMap <> None -> covered 0 gidMap = false ->
        GetRootUIDGID uidMap gidMap = Err (ErrContainerIDUnmappable 0)).
Proof.
  split.
  - intros Hn Hc. unfold GetRootUIDGID.
    destruct uidMap as [ms |]; [| contradiction Hn; reflexivity].
    cbn in *. rewrite (idtoolsFacts.scanToHost_none 0 ms Hc). reflexivity.
  - intros uid Hu Hn Hc. unfold GetRootUIDGID.
    destruct gidMap as [gs |]; [| contradiction Hn; reflexivity].
    cbn in Hc.
    destruct uidMap as [ms |]; [rewrite Hu |];
      cbn [TranslateIDToHost];
      rewrite (idtoolsFacts.scanToHost_none 0 gs Hc); reflexivity.
Qed.

Lemma GetRootUIDGID_unmapped_root_witness :
  GetRootUIDGID (Some []) None = Err (ErrContainerIDUnmappable 0)
  /\ GetRootUIDGID None (Some [mkIDMap 1 1 10]) = Err (ErrContainerIDUnmappable 0).
Proof.
  split.
  - apply (proj1 (GetRootUIDGID_unmapped_root (Some []) None));
      [discriminate | reflexivity].
  - apply (proj2 (GetRootUIDGID_unmapped_root None (Some [mkIDMap 1 1 10])) 0);
      [reflexivity | discriminate | reflexivity].
Defined.

(** X26: a table of well-formed ranges that do not overlap on the host
    side never gives two container ids the same host id, and one whose
    ranges do not overlap on the container side never gives two host ids
    the same container id. *)
Theorem Translate_injective (ms : list IDMap) :
  Forall wellFormed ms ->
  (hostDisjoint ms ->
   forall c1 c2 h,
     TranslateIDToHost c1 (Some ms) = Ok h ->
     TranslateIDToHost c2 (Some ms) = Ok h -> c1 = c2)
  /\ (containerDisjoint ms ->
      forall h1 h2 c,
        TranslateIDToContainer h1 (Some ms) = Ok c ->
        TranslateIDToContainer h2 (Some ms) = Ok c -> h1 = h2).
Proof.
  intros Hwf. rewrite Forall_forall in Hwf.
  cbn [TranslateIDToHost TranslateIDToContainer]. split.
  - intros Hd c1 c2 h H1 H2.
    destruct (scanToHost_ok _ _ _ H1) as (m1 & Hin1 & Hc1 & E1).
    destruct (scanToHost_ok _ _ _ H2) as (m2 & Hin2 & Hc2 & E2).
    destruct (toHost_in_range m1 c1 (Hwf m1 Hin1) Hc1) as (A1 & B1 & _).
    destruct (toHost_in_range m2 c2 (Hwf m2 Hin2) Hc2) as (A2 & B2 & _).
    rewrite A1 in E1. rewrite A2 in E2. rewrite <- E1 in B1. rewrite <- E2 in B2.
    pose proof (Hd m1 m2 h Hin1 Hin2 B1 B2) as ->. lia.
  - intros Hd h1 h2 c H1 H2.
    destruct (scanToContainer_ok _ _ _ H1) as (m1 & Hin1 & Hc1 & E1).
    destruct (scanToContainer_ok _ _ _ H2) as (m2 & Hin2 & Hc2 & E2).
    destruct (toContainer_in_range m1 h1 (Hwf m1 Hin1) Hc1) as (A1 & B1 & _).
    destruct (toContainer_in_range m2 h2 (Hwf m2 Hin2) Hc2) as (A2 & B2 & _).
    rewrite A1 in E1. rewrite A2 in E2. rewrite <- E1 in B1. rewrite <- E2 in B2.
    pose proof (Hd m1 m2 c Hin1 Hin2 B1 B2) as ->. lia.
Qed.

Lemma Translate_injective_witness :
  TranslateIDToHost 0 (createIDMap 1000) <> TranslateIDToHost 1000000 (createIDMap 1000)
  /\ TranslateIDToContainer 1000 (createIDMap 1000)
     <> TranslateIDToContainer 5 (createIDMap 1000).
Proof.
  assert (D : in_remap_domain 1000) by (unfold in_remap_domain, max_int; lia).
  pose proof (Translate_injective (ranges (createIDMap 1000))
                (createIDMap_wellFormed 1000 D)) as [Hh Hc].
  split; intros E.
  - pose proof (Hh (proj1 (createIDMap_disjoint 1000 D)) 0 1000000 1000
                  eq_refl (eq_sym E)) as H.
    discriminate H.
  - pose proof (Hc (proj2 (createIDMap_disjoint 1000 D)) 1000 5 0
                  eq_refl (eq_sym E)) as H.
    discriminate H.
Defined.

(** X27: the ids a root-remap table reaches.  For a remap target from 1
    to MaxInt32 the container ids that have a range are those from 0 to
    MaxInt32 other than the target, and the host ids that have one are
    those from 1 to MaxInt32: no container id reaches host id 0 or a host
    id above MaxInt32. *)
Theorem createIDMap_covers_exactly (id x : Z) :
  1 <= id <= MaxInt32 ->
  (covered x (createIDMap id) = true <-> 0 <= x <= MaxInt32 /\ x <> id)
  /\ (coveredHost x (createIDMap id) = true <-> 1 <= x <= MaxInt32).
Proof.
  intros H.
  assert (D : in_remap_domain id)
    by (unfold in_remap_domain, MaxInt32, max_int in *; lia).
  rewrite idtoolsFacts.createIDMap_ranges by assumption.
  unfold MaxInt32, covered, coveredHost, covers, coversHost in *.
  cbn [existsb ContainerID HostID Size]. int_norm.
  split; split.
  - range_test; cbn; intros; try discriminate; lia.
  - intros [Hx Hne]. range_test; cbn; try reflexivity; lia.
  - range_test; cbn; intros; try discriminate; lia.
  - intros Hx. range_test; cbn; try reflexivity; lia.
Qed.

Lemma createIDMap_covers_exactly_witness :
  covered 5 (createIDMap 1000) = true
  /\ coveredHost 0 (createIDMap 1000) <> true.
Proof.
  assert (H : 1 <= 1000 <= MaxInt32) by (unfold MaxInt32; lia).
  split.
  - apply (proj2 (proj1 (createIDMap_covers_exactly 1000 5 H))).
    unfold MaxInt32. lia.
  - intros E. apply (proj1 (proj2 (createIDMap_covers_exactly 1000 0 H))) in E. lia.
Defined.

End tableFacts.

(** ** The remapped-root option, end to end *)

Module remapOptionFacts.
Import GoInt idtools daemon Samples.

Lemma Split_length (s : string) (sep : ascii) :
  List.length (strings.Split s sep) = S (strings.Count s sep).
Proof.
  induction s as [| c rest IH]; cbn [strings.Split strings.Count]; [reflexivity |].
  destruct (Ascii.eqb c sep); cbn [List.length].
  - rewrite IH. reflexivity.
  - destruct (strings.Split rest sep) as [| piece pieces]; [discriminate IH |].
    cbn [List.length] in *. assumption.
Qed.

Lemma digit_bounds (c : ascii) (d : Z) : strconv.digit c = Some d -> 0 <= d <= 9.
Proof.
  unfold strconv.digit.
  destruct (Z.leb_spec 48 (Z.of_nat (nat_of_ascii c)));
    destruct (Z.leb_spec (Z.of_nat (nat_of_ascii c)) 57); cbn;
    intros E; inversion E; lia.
Qed.

Lemma digits_nonneg (s : string) :
  forall acc n, 0 <= acc -> strconv.digits s acc = Some n -> 0 <= n.
Proof.
  induction s as [| c rest IH]; cbn [strconv.digits]; intros acc n Ha.
  - intros E. inversion E. lia.
  - destruct (strconv.digit c) as [d |] eqn:D; [| discriminate].
    pose proof (digit_bounds c d D). apply IH. lia.
Qed.

(** What [strconv.ParseInt(s, 10, 32)] accepts is a 32-bit signed
    integer. *)
Lemma ParseInt10_range (s : string) (n : Z) :
  strconv.ParseInt10 s 32 = Ok n -> MinInt32 <= n <= MaxInt32.
Proof.
  unfold strconv.ParseInt10. destruct s as [| c rest]; [discriminate |].
  cbv zeta.
  set (body := if (Ascii.eqb c "+" || Ascii.eqb c "-")%bool then rest else String c rest).
  unfold strconv.ParseUint10.
  destruct body as [| c0 body0] eqn:B; [discriminate |].
  destruct (strconv.digits (String c0 body0) 0) as [un |] eqn:D; [| discriminate].
  pose proof (digits_nonneg _ 0 un (Z.le_refl 0) D) as Hun.
  change (2 ^ 32 - 1) with 4294967295. change (2 ^ (32 - 1)) with 2147483648.
  destruct (Z.leb_spec un 4294967295); [| discriminate].
  rewrite Z.geb_leb, Z.gtb_ltb.
  destruct (Ascii.eqb c "-"); cbn [negb andb].
  - destruct (Z.ltb_spec 2147483648 un); [discriminate |].
    intros E. inversion E. unfold MinInt32, MaxInt32. lia.
  - destruct (Z.leb_spec 2147483648 un); [discriminate |].
    intros E. inversion E. unfold MinInt32, MaxInt32. lia.
Qed.

Lemma ParseInt10_in_domain (s : string) (n : Z) :
  strconv.ParseInt10 s 32 = Ok n -> 1 <= n -> in_remap_domain n.
Proof.
  intros H H1. apply ParseInt10_range in H.
  unfold in_remap_domain, MaxInt32, max_int in *. lia.
Qed.

Section parse.

Variable LookupUser : string -> result Z.
Variable LookupGroup : string -> result Z.
Variable GOOS : string.

(** X5: parseRemappedRoot rejects a specification as invalid exactly when
    it holds two or more ':'; the error names the whole specification,
    and no other failure of the function is reported as an invalid
    specification. *)
Theorem parseRemappedRoot_invalid_iff_two_colons (usergrp reported : string) :
  parseRemappedRoot LookupUser LookupGroup usergrp = Err (ErrInvalidSpec reported)
  <-> reported = usergrp /\ (2 <= strings.Count usergrp ":")%nat.
Proof.
  unfold parseRemappedRoot. rewrite Split_length.
  destruct (Nat.ltb_spec 2 (S (strings.Count usergrp ":"))) as [H | H].
  - split.
    + intros E. injection E as <-. split; [reflexivity | lia].
    + intros [-> _]. reflexivity.
  - split; [| intros [_ H2]; lia].
    cbv zeta.
    repeat match goal with
           | |- context [match ?x with _ => _ end] =>
               lazymatch x with
               | context [match _ with _ => _ end] => fail
               | _ => destruct x
               end
           | |- context [if ?x then _ else _] =>
               lazymatch x with
               | context [match _ with _ => _ end] => fail
               | _ => destruct x
               end
           end; discriminate.
Qed.

Local Ltac differ := let E := fresh in intros E; discriminate E.

(** X6: parseRemappedRoot asks the lookups about two names only and its
    lookup errors say which one failed.  A uid lookup error names the
    first part of the option, which is not a number and which LookupUser
    refused with the error carried; a gid lookup error names the last
    part, which is not a number and which LookupGroup refused with the
    error carried, the user part having been resolved before, as a number
    or by its lookup.  The result depends on LookupUser at the first part
    and on LookupGroup at the last part alone: lookups that agree there
    give the same result. *)
Theorem parseRemappedRoot_lookups_local (usergrp name : string) (e : error) :
  let parts := strings.Split usergrp ":" in
  (parseRemappedRoot LookupUser LookupGroup usergrp = Err (ErrUidLookup name e) ->
   name = nth 0 parts ""
   /\ LookupUser name = Err e
   /\ (forall n, strconv.ParseInt10 name 32 <> Ok n))
  /\ (parseRemappedRoot LookupUser LookupGroup usergrp = Err (ErrGidLookup name e) ->
      name = last parts ""
      /\ LookupGroup name = Err e
      /\ (forall n, strconv.ParseInt10 name 32 <> Ok n)
      /\ ((exists uid, strconv.ParseInt10 (nth 0 parts "") 32 = Ok uid)
          \/ (exists uid, LookupUser (nth 0 parts "") = Ok uid)))
  /\ (forall LookupUser' LookupGroup',
        LookupUser' (nth 0 parts "") = LookupUser (nth 0 parts "") ->
        LookupGroup' (last parts "") = LookupGroup (last parts "") ->
        parseRemappedRoot LookupUser' LookupGroup' usergrp
        = parseRemappedRoot LookupUser LookupGroup usergrp).
Proof.
  cbv zeta. unfold parseRemappedRoot.
  destruct (strings.Split usergrp ":") as [| a [| b [| c l]]];
    cbn [List.length Nat.ltb Nat.leb Nat.eqb nth last].
  - split; [| split].
    + destruct (strconv.ParseInt10 "" 32) eqn:P; [differ |].
      destruct (LookupUser "") eqn:U; [differ |].
      intros E. injection E as <- <-.
      repeat split; [assumption | intros n; differ].
    + destruct (strconv.ParseInt10 "" 32) eqn:P; [differ |].
      destruct (LookupUser "") eqn:U; differ.
    + intros LU' LG' -> _. reflexivity.
  - split; [| split].
    + destruct (strconv.ParseInt10 a 32) eqn:P; [differ |].
      destruct (LookupUser a) eqn:U.
      * destruct (LookupGroup a); differ.
      * intros E. injection E as <- <-.
        repeat split; [assumption | intros n; rewrite P; discriminate].
    + destruct (strconv.ParseInt10 a 32) eqn:P; [differ |].
      destruct (LookupUser a) eqn:U; [| differ].
      destruct (LookupGroup a) eqn:G; [differ |].
      intros E. injection E as <- <-.
      repeat split; [assumption | intros n; rewrite P; discriminate |].
      right. eexists. reflexivity.
    + intros LU' LG' -> ->. reflexivity.
  - split; [| split].
    + destruct (strconv.ParseInt10 a 32) eqn:P.
      * destruct (strconv.ParseInt10 b 32); [differ |].
        destruct (LookupGroup b); differ.
      * destruct (LookupUser a) eqn:U.
        -- destruct (strconv.ParseInt10 b 32); [differ |].
           destruct (LookupGroup b); differ.
        -- intros E. injection E as <- <-.
           repeat split; [assumption | intros n; rewrite P; discriminate].
    + assert (R : forall (uid : Z),
                 match strconv.ParseInt10 b 32 with
                 | Ok gid => Ok (uid, gid)
                 | Err _ => match LookupGroup b with
                            | Ok gid => Ok (uid, gid)
                            | Err e0 => Err (ErrGidLookup b e0)
                            end
                 end = Err (ErrGidLookup name e) ->
                 name = b /\ LookupGroup name = Err e
                 /\ (forall n, strconv.ParseInt10 name 32 <> Ok n)).
      { intros uid. destruct (strconv.ParseInt10 b 32) eqn:P; [differ |].
        destruct (LookupGroup b) eqn:G; [differ |].
        intros E. injection E as <- <-.
        repeat split; [assumption | intros n; rewrite P; discriminate]. }
      destruct (strconv.ParseInt10 a 32) eqn:P.
      * intros E. apply R in E. destruct E as (E1 & E2 & E3).
        repeat split; try assumption. left. eexists. reflexivity.
      * destruct (LookupUser a) eqn:U; [| differ].
        intros E. apply R in E. destruct E as (E1 & E2 & E3).
        repeat split; try assumption. right. eexists. reflexivity.
    + intros LU' LG' -> ->. reflexivity.
  - split; [differ | split; [differ |]]. reflexivity.
Qed.

Lemma spec_not_empty (usergrp a : string) (rest : list string) (A : Z) :
  strings.Split usergrp ":" = a :: rest ->
  strconv.ParseInt10 a 32 = Ok A ->
  String.eqb usergrp "" = false.
Proof.
  destruct usergrp; [| reflexivity].
  cbn. intros E. inversion E. subst. discriminate.
Qed.


End parse.

Lemma parseRemappedRoot_invalid_iff_two_colons_witness :
  parseRemappedRoot sampleLookupUser sampleLookupGroup "a:b:c"
  = Err (ErrInvalidSpec "a:b:c")
  /\ parseRemappedRoot sampleLookupUser sampleLookupGroup "a:b"
     <> Err (ErrInvalidSpec "a:b").
Proof.
  split.
  - apply (proj2 (parseRemappedRoot_invalid_iff_two_colons sampleLookupUser
                    sampleLookupGroup "a:b:c" "a:b:c")).
    split; [reflexivity | cbn; lia].
  - intros E.
    apply (proj1 (parseRemappedRoot_invalid_iff_two_colons sampleLookupUser
                    sampleLookupGroup "a:b" "a:b")) in E.
    destruct E as [_ E]. cbn in E. lia.
Defined.

Lemma parseRemappedRoot_lookups_local_witness :
  (sampleLookupUser "nobody" = Err (ErrNoSuchUser "nobody"))
  /\ (groupLookupGroup "wheel" = Err (ErrNoSuchGroup "wheel"))
  /\ parseRemappedRoot (fun _ => Ok 1000) groupLookupGroup "dockremap:docker"
     = parseRemappedRoot passwdLookupUser groupLookupGroup "dockremap:docker".
Proof.
  split; [| split].
  - apply (proj1 (parseRemappedRoot_lookups_local sampleLookupUser sampleLookupGroup
                    "nobody:2000" "nobody" (ErrNoSuchUser "nobody"))).
    reflexivity.
  - apply (proj1 (proj2 (parseRemappedRoot_lookups_local passwdLookupUser
                           groupLookupGroup "dockremap:wheel" "wheel"
                           (ErrNoSuchGroup "wheel")))).
    reflexivity.
  - apply (proj2 (proj2 (parseRemappedRoot_lookups_local passwdLookupUser
                           groupLookupGroup "dockremap:docker" "" ErrWindows)));
      reflexivity.
Defined.


(** ** The two variants of the parse *)

Section variants.
Import config_go.

Variable ParsePasswdFileFilter : (User -> bool) -> list User * option error.
Variable ParseGroupFileFilter : (Group -> bool) -> list Group * option error.
Variable LookupUser : string -> result Z.
Variable LookupGroup : string -> result Z.

Hypothesis lookups :
  lookupsRead ParsePasswdFileFilter ParseGroupFileFilter LookupUser LookupGroup.

Lemma user_cases (name : string) :
  (exists usr rest,
     ParsePasswdFileFilter (fun usr => String.eqb (Name usr) name) = (usr :: rest, None)
     /\ LookupUser name = Ok (Uid usr))
  \/ ((exists e, LookupUser name = Err e)
      /\ forall usr rest,
           ParsePasswdFileFilter (fun usr => String.eqb (Name usr) name)
           <> (usr :: rest, None)).
Proof.
  destruct lookups as [HU _].
  destruct (LookupUser name) as [uid | e] eqn:E.
  - left. apply HU in E as (usr & rest & E1 & E2).
    exists usr, rest. split; [assumption | congruence].
  - right. split; [exists e; reflexivity |].
    intros usr rest E1.
    assert (LookupUser name = Ok (Uid usr)) by (apply HU; eauto).
    congruence.
Qed.

Lemma group_cases (name : string) :
  (exists grp rest,
     ParseGroupFileFilter (fun grp => String.eqb (GName grp) name) = (grp :: rest, None)
     /\ LookupGroup name = Ok (Gid grp))
  \/ ((exists e, LookupGroup name = Err e)
      /\ forall grp rest,
           ParseGroupFileFilter (fun grp => String.eqb (GName grp) name)
           <> (grp :: rest, None)).
Proof.
  destruct lookups as [_ HG].
  destruct (LookupGroup name) as [gid | e] eqn:E.
  - left. apply HG in E as (grp & rest & E1 & E2).
    exists grp, rest. split; [assumption | congruence].
  - right. split; [exists e; reflexivity |].
    intros grp rest E1.
    assert (LookupGroup name = Ok (Gid grp)) by (apply HG; eauto).
    congruence.
Qed.

Ltac by_user name :=
  destruct (user_cases name) as [(usr & urest & -> & ->) | [[eu ->] Hnu]];
  [| destruct (ParsePasswdFileFilter (fun usr => String.eqb (Name usr) name))
       as [[| usr urest] [eu' |]] eqn:?;
     try (exfalso; eapply Hnu; reflexivity)].

Ltac by_group name :=
  destruct (group_cases name) as [(grp & grest & -> & ->) | [[eg ->] Hng]];
  [| destruct (ParseGroupFileFilter (fun grp => String.eqb (GName grp) name))
       as [[| grp grest] [eg' |]] eqn:?;
     try (exfalso; eapply Hng; reflexivity)].

Ltac agree :=
  cbv beta iota zeta; split; intros E;
  first [discriminate E | inversion E; reflexivity].

(** X8: the parse of daemon/config.go, which reads /etc/passwd and
    /etc/group through the filters, and the parse of the experimental
    build, which asks LookupUser and LookupGroup, accept the same
    specifications and resolve them to the same ids, when the lookups read
    the same files. *)
Theorem parseRemappedRoot_variants_agree (usergrp : string) (uid gid : Z) :
  config_go.parseRemappedRoot ParsePasswdFileFilter ParseGroupFileFilter usergrp
  = Parsed uid gid
  <-> daemon.parseRemappedRoot LookupUser LookupGroup usergrp = Ok (uid, gid).
Proof.
  unfold config_go.parseRemappedRoot, daemon.parseRemappedRoot.
  destruct (strings.Split usergrp ":") as [| x [| y [| z l]]];
    cbn [List.length Nat.ltb Nat.leb Nat.eqb nth]; [| | | split; discriminate].
  - destruct (strconv.ParseInt10 "" 32); [agree |]. by_user ""; agree.
  - destruct (strconv.ParseInt10 x 32); [agree |].
    by_user x; try agree. by_group x; agree.
  - destruct (strconv.ParseInt10 x 32); destruct (strconv.ParseInt10 y 32);
      try agree.
    + by_group y; agree.
    + by_user x; agree.
    + by_user x; try agree. by_group y; agree.
Qed.

End variants.

Lemma sample_lookupsRead :
  config_go.lookupsRead
    (fun f => (filter f samplePasswd, None)) (fun f => (filter f sampleGroups, None))
    passwdLookupUser groupLookupGroup.
Proof.
  unfold config_go.lookupsRead, passwdLookupUser, groupLookupGroup, fileLookup.
  split; intros name id; split.
  - destruct (filter _ samplePasswd) as [| usr rest]; [discriminate |].
    intros E. inversion E. eauto.
  - intros (usr & rest & E & <-). apply (f_equal fst) in E.
    cbv beta in E. cbn [fst] in E. rewrite E. reflexivity.
  - destruct (filter _ sampleGroups) as [| grp rest]; [discriminate |].
    intros E. inversion E. eauto.
  - intros (grp & rest & E & <-). apply (f_equal fst) in E.
    cbv beta in E. cbn [fst] in E. rewrite E. reflexivity.
Qed.

Lemma parseRemappedRoot_variants_agree_witness :
  daemon.parseRemappedRoot passwdLookupUser groupLookupGroup "dockremap:docker"
  = Ok (1000, 999).
Proof.
  apply (proj1 (parseRemappedRoot_variants_agree _ _ _ _ sample_lookupsRead
                  "dockremap:docker" 1000 999)).
  reflexivity.
Defined.

End remapOptionFacts.

(** ** Directories handed to an owner *)

Module ownedDirFacts.
Import os memfs idtools layout memfsFacts daemonRootFacts mkdirAsFacts.

Lemma mkdirAll_file_on_path (q r : path) (a a0 : attrs) (data : string) (t : node) :
  lookup q t = Ok (File a0 data) ->
  mkdirAll (q ++ r) a t = Err (Errno ENOTDIR).
Proof.
  intros H. rewrite (mkdirAll_app q r a t _ H). destruct r; reflexivity.
Qed.

Lemma mkdirAll_err_file (p : path) (a : attrs) :
  forall (t : node) (e : error),
    mkdirAll p a t = Err e ->
    exists q r a0 data, p = q ++ r /\ lookup q t = Ok (File a0 data).
Proof.
  induction p as [| x p IH]; intros t e; destruct t as [a0 data | d es].
  - intros _. exists [], [], a0, data. auto.
  - discriminate.
  - intros _. exists [], (x :: p), a0, data. auto.
  - cbn [mkdirAll]. destruct (assoc x es) as [c |] eqn:Ea.
    + destruct (mkdirAll p a c) as [c' |] eqn:Em; [discriminate |]. intros _.
      destruct (IH c _ Em) as (q & r & a1 & data & -> & Hq).
      exists (x :: q), r, a1, data. split; [reflexivity |].
      cbn [lookup]. rewrite Ea. exact Hq.
    + destruct (mkdirAll p a (Dir a [])) as [c' |] eqn:Em; [discriminate |].
      intros _. exfalso.
      destruct (IH _ _ Em) as (q & r & a1 & data & -> & Hq).
      destruct q as [| y q]; cbn in Hq; discriminate.
Qed.

(** What MkdirAllAs does on the file system in memory. *)
Lemma run_MkdirAllAs_proc (p : path) (mode uid gid : Z) (w : proc) :
  MkdirAllAs p mode uid gid w
  = match mkdirAll p (created w mode) (tree w) with
    | Err e => (Err e, w)
    | Ok t1 =>
        match lookup p t1 with
        | Ok n => (Ok tt, withTree w (plug p (chowned uid gid n) t1))
        | Err e => (Err e, withTree w t1)
        end
    end.
Proof.
  unfold MkdirAllAs, mkdirAs, bind, unlessExists.
  cbn [MkdirAll Chown memOS]. unfold onTree.
  destruct (mkdirAll p (created w mode) (tree w)) as [t1 | e] eqn:Em.
  - cbn [tree withTree].
    destruct (lookup p t1) as [n | e] eqn:El.
    + rewrite (update_plug p _ t1 n El). reflexivity.
    + rewrite (update_lookup_err p _ t1 e El). reflexivity.
  - rewrite (mkdirAll_err _ _ _ _ Em). reflexivity.
Qed.

Lemma chownedAttrs (uid gid : Z) (a : attrs) (es : list (string * node)) :
  exists b,
    chowned uid gid (Dir a es) = Dir b es
    /\ a_mode b = a_mode a
    /\ (uid <> -1 -> a_uid b = uid) /\ (gid <> -1 -> a_gid b = gid).
Proof.
  unfold chowned, chownNode. cbn [nodeAttrs]. eexists. split; [reflexivity |].
  cbn [a_mode a_uid a_gid]. split; [reflexivity |].
  split; intros H; apply Z.eqb_neq in H; rewrite H; reflexivity.
Qed.

(** A run of MkdirAllAs that succeeds: the directories are made, then
    the leaf changes owner. *)
Lemma MkdirAllAs_ok (p : path) (mode uid gid : Z) (w w' : proc) :
  MkdirAllAs p mode uid gid w = (Ok tt, w') ->
  exists t1 d es,
    mkdirAll p (created w mode) (tree w) = Ok t1
    /\ lookup p t1 = Ok (Dir d es)
    /\ w' = withTree w (plug p (chowned uid gid (Dir d es)) t1).
Proof.
  rewrite run_MkdirAllAs_proc.
  destruct (mkdirAll p (created w mode) (tree w)) as [t1 | e] eqn:Em; [| discriminate].
  destruct (mkdirAll_leaf p _ _ _ Em) as (d & es & El). rewrite El.
  intros E. injection E as <-. exists t1, d, es. auto.
Qed.

Lemma MkdirAllAs_err (p : path) (mode uid gid : Z) (w w' : proc) (e : error) :
  MkdirAllAs p mode uid gid w = (Err e, w') -> e = Errno ENOTDIR /\ w' = w.
Proof.
  rewrite run_MkdirAllAs_proc.
  destruct (mkdirAll p (created w mode) (tree w)) as [t1 | e1] eqn:Em.
  - destruct (mkdirAll_leaf p _ _ _ Em) as (d & es & El). rewrite El. discriminate.
  - intros E. injection E as <- <-.
    split; [apply (mkdirAll_err _ _ _ _ Em) | reflexivity].
Qed.

(** X9: when MkdirAllAs succeeds the path is a directory, owned by the
    uid and the gid asked for (an id of -1 asks for none). *)
Theorem MkdirAllAs_makes_owned_directory (p : path) (mode uid gid : Z) (w w' : proc) :
  MkdirAllAs p mode uid gid w = (Ok tt, w') ->
  exists a es,
    lookup p (tree w') = Ok (Dir a es)
    /\ (uid <> -1 -> a_uid a = uid)
    /\ (gid <> -1 -> a_gid a = gid)
    /\ (euid w', egid w', umask w') = (euid w, egid w, umask w).
Proof.
  intros H.
  destruct (MkdirAllAs_ok _ _ _ _ _ _ H) as (t1 & d & es & _ & El & ->).
  destruct (chownedAttrs uid gid d es) as (b & Eb & _ & Hu & Hg).
  exists b, es. cbn [tree withTree euid egid umask].
  rewrite (lookup_plug p t1 _ _ El), Eb. auto.
Qed.

Lemma MkdirAllAs_makes_owned_directory_witness :
  exists a es,
    lookup ["srv"; "docker"]
      (tree (snd (MkdirAllAs ["srv"; "docker"] mode_0700 1000 1000 Samples.sampleHost)))
    = Ok (Dir a es)
    /\ (1000 <> -1 -> a_uid a = 1000)
    /\ (1000 <> -1 -> a_gid a = 1000)
    /\ (euid (snd (MkdirAllAs ["srv"; "docker"] mode_0700 1000 1000 Samples.sampleHost)),
        egid (snd (MkdirAllAs ["srv"; "docker"] mode_0700 1000 1000 Samples.sampleHost)),
        umask (snd (MkdirAllAs ["srv"; "docker"] mode_0700 1000 1000 Samples.sampleHost)))
       = (0, 0, 18).
Proof.
  apply (MkdirAllAs_makes_owned_directory ["srv"; "docker"] mode_0700 1000 1000
           Samples.sampleHost).
  reflexivity.
Defined.

(** X10: MkdirAllAs fails exactly when a regular file stands on the path,
    the path itself included; the error is ENOTDIR, nothing is created
    and no owner is changed. *)
Theorem MkdirAllAs_fails_iff_file_on_path (p : path) (mode uid gid : Z) (w : proc) :
  ((exists e w', MkdirAllAs p mode uid gid w = (Err e, w'))
   <-> exists q r a0 data, p = q ++ r /\ lookup q (tree w) = Ok (File a0 data))
  /\ (forall e w', MkdirAllAs p mode uid gid w = (Err e, w') ->
        e = Errno ENOTDIR /\ w' = w).
Proof.
  rewrite run_MkdirAllAs_proc.
  destruct (mkdirAll p (created w mode) (tree w)) as [t1 | e] eqn:Em.
  - destruct (mkdirAll_leaf p _ _ _ Em) as (d & es & El). rewrite El.
    split; [split |].
    + intros (e & w' & E). discriminate.
    + intros (q & r & a0 & data & -> & Hq).
      rewrite (mkdirAll_file_on_path q r _ a0 data _ Hq) in Em. discriminate.
    + intros e w' E. discriminate.
  - split; [split |].
    + intros _. apply (mkdirAll_err_file _ _ _ _ Em).
    + intros _. eauto.
    + intros e' w' E. injection E as <- <-.
      split; [apply (mkdirAll_err _ _ _ _ Em) | reflexivity].
Qed.

Lemma MkdirAllAs_fails_iff_file_on_path_witness :
  (exists q r a0 data,
     ["var"; "lib"; "docker"; "a"; "sub"] = q ++ r
     /\ lookup q Samples.sampleTree = Ok (File a0 data))
  /\ forall e w',
       MkdirAllAs ["var"; "lib"; "docker"; "a"; "sub"] mode_0700 1000 1000
         Samples.sampleHost = (Err e, w') ->
       e = Errno ENOTDIR /\ w' = Samples.sampleHost.
Proof.
  split.
  - apply (proj1 (proj1 (MkdirAllAs_fails_iff_file_on_path
                           ["var"; "lib"; "docker"; "a"; "sub"] mode_0700 1000 1000
                           Samples.sampleHost))).
    eexists _, _. reflexivity.
  - apply (proj2 (MkdirAllAs_fails_iff_file_on_path
                    ["var"; "lib"; "docker"; "a"; "sub"] mode_0700 1000 1000
                    Samples.sampleHost)).
Defined.

(** X11: MkdirAllAs can be repeated: a second call with the same arguments
    after a first that succeeded succeeds and changes nothing. *)
Theorem MkdirAllAs_idempotent (p : path) (mode uid gid : Z) (w w' : proc) :
  MkdirAllAs p mode uid gid w = (Ok tt, w') ->
  MkdirAllAs p mode uid gid w' = (Ok tt, w').
Proof.
  rewrite run_MkdirAllAs_proc.
  destruct (mkdirAll p (created w mode) (tree w)) as [t1 | e] eqn:Em; [| discriminate].
  destruct (mkdirAll_leaf p _ _ _ Em) as (d & es & El). rewrite El.
  intros E. injection E as <-.
  destruct (chowned_dir uid gid d es) as [b Eb].
  unfold MkdirAllAs.
  rewrite (run_mkdirAs_existing p mode uid gid true _ b es).
  - cbn [tree withTree]. rewrite <- Eb, chowned_chowned.
    rewrite (plug_plug p t1 _ _ _ El). reflexivity.
  - cbn [tree withTree]. rewrite (lookup_plug p t1 _ _ El), Eb. reflexivity.
Qed.

Lemma MkdirAllAs_idempotent_witness :
  MkdirAllAs ["srv"; "docker"] mode_0700 1000 1000
    (snd (MkdirAllAs ["srv"; "docker"] mode_0700 1000 1000 Samples.sampleHost))
  = (Ok tt, snd (MkdirAllAs ["srv"; "docker"] mode_0700 1000 1000 Samples.sampleHost)).
Proof.
  apply (MkdirAllAs_idempotent ["srv"; "docker"] mode_0700 1000 1000 Samples.sampleHost).
  reflexivity.
Defined.

Lemma mkdirAll_on_file (p : path) (a a0 : attrs) (data : string) (t : node) :
  lookup p t = Ok (File a0 data) -> mkdirAll p a t = Err (Errno ENOTDIR).
Proof.
  intros H. rewrite <- (app_nil_r p).
  apply (mkdirAll_file_on_path p [] a a0 data t H).
Qed.

(** X12: on a path where a regular file stands, MkdirAs reports success:
    the EEXIST of the mkdir is taken for the directory being there, and
    the file gets the owner asked for.  MkdirAllAs on the same path fails
    with ENOTDIR and changes nothing. *)
Theorem MkdirAs_on_regular_file (p : path) (mode uid gid : Z) (w : proc)
    (a : attrs) (data : string) :
  lookup p (tree w) = Ok (File a data) ->
  MkdirAs p mode uid gid w
  = (Ok tt, withTree w (plug p (chowned uid gid (File a data)) (tree w)))
  /\ MkdirAllAs p mode uid gid w = (Err (Errno ENOTDIR), w).
Proof.
  intros Hl. split.
  - unfold MkdirAs, mkdirAs.
    rewrite (bind_ok _ _ w w tt).
    + cbn [Chown memOS]. apply (run_onTree_update p _ w _ _ Hl). reflexivity.
    + unfold unlessExists. cbn [Mkdir memOS]. unfold onTree.
      rewrite (mkdir_exists p _ (tree w) _ Hl). reflexivity.
  - rewrite run_MkdirAllAs_proc, (mkdirAll_on_file p _ a data _ Hl). reflexivity.
Qed.

Lemma MkdirAs_on_regular_file_witness :
  MkdirAs ["var"; "lib"; "docker"; "a"] mode_0700 1000 1000 Samples.sampleHost
  = (Ok tt,
     withTree Samples.sampleHost
       (plug ["var"; "lib"; "docker"; "a"]
          (File (mkAttrs mode_0755 1000 1000) "A") Samples.sampleTree))
  /\ MkdirAllAs ["var"; "lib"; "docker"; "a"] mode_0700 1000 1000 Samples.sampleHost
     = (Err (Errno ENOTDIR), Samples.sampleHost).
Proof.
  apply (MkdirAs_on_regular_file ["var"; "lib"; "docker"; "a"] mode_0700 1000 1000
           Samples.sampleHost Samples.rootAttrs "A").
  reflexivity.
Defined.

(** X13: MkdirAs makes the last directory of the path only.  Below a
    directory that is missing it fails with ENOENT and changes nothing,
    where MkdirAllAs makes the whole path and hands the leaf to the
    owner. *)
Theorem MkdirAs_needs_parent (d : path) (x : string) (mode uid gid : Z) (w : proc) :
  lookup d (tree w) = Err (Errno ENOENT) ->
  MkdirAs (d ++ [x]) mode uid gid w = (Err (Errno ENOENT), w)
  /\ exists w',
       MkdirAllAs (d ++ [x]) mode uid gid w = (Ok tt, w')
       /\ lookup (d ++ [x]) (tree w') = Ok (chowned uid gid (Dir (created w mode) [])).
Proof.
  intros Hl. split.
  - unfold MkdirAs, mkdirAs, bind, unlessExists. cbn [Mkdir memOS]. unfold onTree.
    rewrite mkdir_snoc, (update_lookup_err d _ _ _ Hl). reflexivity.
  - assert (Hp : lookup (d ++ [x]) (tree w) = Err (Errno ENOENT))
      by (rewrite lookup_app, Hl; reflexivity).
    destruct (mkdirAll_fresh (d ++ [x]) (created w mode) (tree w) Hp)
      as (t1 & Em & El).
    rewrite run_MkdirAllAs_proc, Em, El.
    eexists. split; [reflexivity |]. cbn [tree withTree].
    apply (lookup_plug _ t1 _ _ El).
Qed.

Lemma MkdirAs_needs_parent_witness :
  MkdirAs ["srv"; "docker"] mode_0700 1000 1000 Samples.sampleHost
  = (Err (Errno ENOENT), Samples.sampleHost)
  /\ exists w',
       MkdirAllAs ["srv"; "docker"] mode_0700 1000 1000 Samples.sampleHost = (Ok tt, w')
       /\ lookup ["srv"; "docker"] (tree w')
          = Ok (chowned 1000 1000 (Dir (created Samples.sampleHost mode_0700) [])).
Proof.
  apply (MkdirAs_needs_parent ["srv"] "docker" mode_0700 1000 1000 Samples.sampleHost).
  reflexivity.
Defined.

End ownedDirFacts.

(** ** Moving a directory into its subdirectory *)

Module moveFacts.
Import os memfs directory layout memfsFacts daemonRootFacts mkdirAsFacts.

Lemma assoc_mid (x s : string) (m : node) (pre post : list (string * node)) :
  x <> s -> assoc x (pre ++ (s, m) :: post) = assoc x (pre ++ post).
Proof.
  intros H. rewrite !assoc_app. cbn [assoc].
  apply String.eqb_neq in H. rewrite H. reflexivity.
Qed.

Lemma assoc_at (s : string) (m : node) (pre post : list (string * node)) :
  ~ In s (names pre) -> assoc s (pre ++ (s, m) :: post) = Some m.
Proof.
  intros H. apply assoc_None_names in H. rewrite assoc_app, H.
  cbn [assoc]. rewrite String.eqb_refl. reflexivity.
Qed.

Lemma setEntry_mid (s : string) (n m : node) (pre post : list (string * node)) :
  ~ In s (names pre) ->
  setEntry s n (pre ++ (s, m) :: post) = pre ++ (s, n) :: post.
Proof.
  induction pre as [| [y k] pre IH]; cbn [app setEntry names map fst In]; intros H.
  - rewrite String.eqb_refl. reflexivity.
  - destruct (String.eqb_spec s y) as [-> | Hne]; [tauto |].
    rewrite IH by tauto. reflexivity.
Qed.

Lemma delEntry_app (x : string) (pre post : list (string * node)) :
  delEntry x (pre ++ post) = delEntry x pre ++ delEntry x post.
Proof. apply filter_app. Qed.

Lemma delEntry_mid (x s : string) (m : node) (pre post : list (string * node)) :
  x <> s ->
  delEntry x (pre ++ (s, m) :: post) = delEntry x pre ++ (s, m) :: delEntry x post.
Proof.
  intros H. unfold delEntry. rewrite filter_app. cbn [filter fst].
  apply String.eqb_neq in H. rewrite H. reflexivity.
Qed.

Lemma assoc_split (s : string) (n : node) (es : list (string * node)) :
  assoc s es = Some n ->
  exists pre post, es = pre ++ (s, n) :: post /\ ~ In s (names pre).
Proof.
  induction es as [| [y k] es IH]; cbn [assoc]; [discriminate |].
  destruct (String.eqb_spec s y) as [-> | Hne].
  - intros E. injection E as ->. exists [], es. split; [reflexivity | intros []].
  - intros E. destruct (IH E) as (pre & post & -> & Hp).
    exists ((y, k) :: pre), post. split; [reflexivity |].
    cbn. intros [H | H]; [congruence | contradiction].
Qed.

(** The renames into a subdirectory that stands anywhere among the
    entries. *)
Lemma localMoves_mid (s : string) (a a0 : attrs) (l : list string) :
  forall (pre post acc : list (string * node)),
    NoDup l ->
    (forall x, In x l -> x <> s -> In x (names (pre ++ post))) ->
    ~ In s (names pre) -> ~ In s (names post) ->
    (forall x, In x l -> x <> s -> ~ In x (names acc)) ->
    localMoves s l (Dir a (pre ++ (s, Dir a0 acc) :: post))
    = Ok (Dir a
            (filter (fun e => negb (existsb (String.eqb (fst e)) l)) pre
             ++ (s, Dir a0 (acc ++ moved s l (pre ++ post)))
             :: filter (fun e => negb (existsb (String.eqb (fst e)) l)) post)).
Proof.
  induction l as [| x l IH]; intros pre post acc Hnd Hin Hpre Hpost Hacc.
  - cbn. rewrite app_nil_r.
    assert (F : forall es : list (string * node), filter (fun _ => true) es = es)
      by (induction es as [| e es IHes]; cbn; congruence).
    rewrite !F. reflexivity.
  - cbn [localMoves]. inversion Hnd as [| ? ? Hx Hl]; subst.
    destruct (String.eqb x s) eqn:E.
    + apply String.eqb_eq in E. subst x.
      rewrite IH; auto with datatypes.
      rewrite !filter_skip_absent by assumption.
      unfold moved. cbn. rewrite String.eqb_refl. reflexivity.
    + apply String.eqb_neq in E.
      assert (Hxin : In x (names (pre ++ post))) by auto with datatypes.
      destruct (assoc x (pre ++ post)) as [n |] eqn:En;
        [| apply assoc_None_names in En; contradiction].
      assert (Hxacc : assoc x acc = None)
        by (apply assoc_None_names; auto with datatypes).
      unfold rename. cbn [unsnoc lookup path_eqb isPrefix].
      rewrite (assoc_mid x s _ pre post E), En.
      replace (String.eqb x s) with false by (symmetry; apply String.eqb_neq; exact E).
      cbn [andb update]. rewrite (assoc_at s _ pre post Hpre).
      cbn [placeAt]. rewrite Hxacc.
      rewrite setEntry_mid by assumption.
      cbn [removeAt]. rewrite delEntry_mid by assumption.
      rewrite IH.
      * rewrite !filter_delEntry. rewrite <- delEntry_app.
        rewrite moved_delEntry by assumption.
        unfold moved at 2. cbn [flat_map].
        replace (String.eqb x s) with false
          by (symmetry; apply String.eqb_neq; exact E).
        rewrite En. cbn [app]. rewrite <- app_assoc. reflexivity.
      * assumption.
      * intros y Hy Hys. rewrite <- delEntry_app. apply names_delEntry.
        split; [auto with datatypes |]. intros ->. contradiction.
      * intros H. apply names_delEntry in H. tauto.
      * intros H. apply names_delEntry in H. tauto.
      * intros y Hy Hys H. unfold names in H. rewrite map_app in H.
        apply in_app_or in H as [H | H].
        -- apply (Hacc y); auto with datatypes.
        -- cbn in H. destruct H as [-> | []]. contradiction.
Qed.

Lemma run_moveEntries_proc (p : path) (s : string) (infos : list FileInfo) :
  forall (w : proc) (c c' : node),
    lookup p (tree w) = Ok c ->
    localMoves s (map Name infos) c = Ok c' ->
    moveEntries p s infos w = (Ok tt, withTree w (plug p c' (tree w))).
Proof.
  induction infos as [| info infos IH]; intros w c c' Hl Hm.
  - cbn in *. injection Hm as <-. rewrite (plug_same p _ c Hl), withTree_same.
    reflexivity.
  - cbn [map localMoves] in Hm. cbn [moveEntries]. unfold bind.
    destruct (String.eqb (Name info) s) eqn:E; cbn [negb].
    + unfold ret. apply (IH w c c' Hl Hm).
    + cbn [Rename memOS]. unfold onTree.
      rewrite (rename_into_subdir p (Name info) s (tree w) c Hl).
      destruct (rename [Name info] [s; Name info] c) as [c1 |]; [| discriminate].
      rewrite (IH (withTree w (plug p c1 (tree w))) c1 c').
      * cbn [tree withTree]. rewrite (plug_plug p (tree w) c c1 c' Hl). reflexivity.
      * cbn [tree withTree]. apply (lookup_plug p (tree w) c c1 Hl).
      * exact Hm.
Qed.

Lemma listing_perm (es : list (string * node)) : Permutation (listing es) (names es).
Proof. apply listing_names. Qed.

(** X14: MoveDirToSubdir into a subdirectory that is there.  Every other
    entry of the directory ends up in the subdirectory, under its name
    and with all it holds; what the subdirectory held stays; the directory
    keeps its attributes and holds the subdirectory only; nothing outside
    the directory changes. *)
Theorem MoveDirToSubdir_into_subdirectory (p : path) (s : string) (w : proc)
    (a a0 : attrs) (es acc : list (string * node)) :
  lookup p (tree w) = Ok (Dir a es) ->
  assoc s es = Some (Dir a0 acc) ->
  NoDup (names es) ->
  (forall x, In x (names es) -> x <> s -> ~ In x (names acc)) ->
  exists w',
    MoveDirToSubdir p s w = (Ok tt, w')
    /\ view p (tree w') = Ok (a, None, [s])
    /\ (forall x q, In x (names es) -> x <> s ->
          lookup (p ++ s :: x :: q) (tree w') = lookup (p ++ x :: q) (tree w))
    /\ (forall x q, In x (names acc) ->
          lookup (p ++ s :: x :: q) (tree w') = lookup (p ++ s :: x :: q) (tree w))
    /\ (forall q, isPrefix p q = false -> view q (tree w') = view q (tree w)).
Proof.
  intros Hl Hs Hnd Hacc.
  destruct (assoc_split s _ es Hs) as (pre & post & Ees & Hpre).
  assert (Hpost : ~ In s (names post)).
  { rewrite Ees in Hnd. unfold names in Hnd. rewrite map_app in Hnd.
    apply NoDup_remove_2 in Hnd. intros H. apply Hnd.
    apply in_or_app. right. exact H. }
  assert (Hnames : forall x, In x (names es) <-> x = s \/ In x (names (pre ++ post))).
  { intros x. rewrite Ees. unfold names. rewrite !map_app. cbn [map fst].
    rewrite !in_app_iff. cbn [In]. intuition congruence. }
  set (l := listing es).
  assert (Hp : Permutation l (names es)) by apply listing_perm.
  assert (Hndl : NoDup l) by (apply (Permutation_NoDup (Permutation_sym Hp) Hnd)).
  assert (Hm : localMoves s l (Dir a es)
               = Ok (Dir a [(s, Dir a0 (acc ++ moved s l (pre ++ post)))])).
  { rewrite Ees at 1. rewrite (localMoves_mid s a a0 l pre post acc Hndl).
    - rewrite !filter_all_listed; [reflexivity | |];
        intros x Hx; apply (Permutation_in x (Permutation_sym Hp));
        apply Hnames; right; unfold names; rewrite map_app; apply in_or_app; auto.
    - intros x Hx Hne. apply (Permutation_in x Hp), Hnames in Hx.
      destruct Hx; [contradiction | assumption].
    - assumption.
    - assumption.
    - intros x Hx Hne. apply Hacc; [apply (Permutation_in x Hp Hx) | assumption]. }
  exists (withTree w (plug p (Dir a [(s, Dir a0 (acc ++ moved s l (pre ++ post)))]) (tree w))).
  split.
  { unfold MoveDirToSubdir.
    rewrite (bind_ok _ _ w w (sortByName (map (fun e => infoOf (fst e) (snd e)) es))).
    - apply (run_moveEntries_proc p s _ w (Dir a es) _ Hl Hm).
    - cbn [ReadDir memOS]. unfold query, readDir. rewrite Hl. reflexivity. }
  cbn [tree withTree].
  split; [unfold view; rewrite (lookup_plug p _ _ _ Hl); reflexivity |].
  split; [| split].
  - intros x q Hx Hne.
    rewrite !lookup_app, (lookup_plug p _ _ _ Hl), Hl.
    cbn [lookup assoc]. rewrite String.eqb_refl. rewrite assoc_app.
    assert (Ha : assoc x acc = None) by (apply assoc_None_names; auto).
    rewrite Ha, assoc_moved, Ees, (assoc_mid x s _ pre post Hne);
      [reflexivity | assumption |].
    intros _. split; [apply (Permutation_in x (Permutation_sym Hp) Hx) | assumption].
  - intros x q Hx.
    rewrite !lookup_app, (lookup_plug p _ _ _ Hl), Hl.
    cbn [lookup assoc]. rewrite String.eqb_refl, Hs, assoc_app.
    destruct (assoc x acc) as [n |] eqn:Ea; [reflexivity |].
    apply assoc_None_names in Ea. contradiction.
  - intros q Hq. apply (view_plug p q _ _ _ Hl Hq).
Qed.

Lemma MoveDirToSubdir_into_subdirectory_witness :
  exists w',
    MoveDirToSubdir ["var"; "lib"; "docker"] "0.0" Samples.startedHost = (Ok tt, w')
    /\ view ["var"; "lib"; "docker"] (tree w') = Ok (Samples.rootAttrs, None, ["0.0"])
    /\ lookup ["var"; "lib"; "docker"; "0.0"; "a"] (tree w')
       = Ok (File Samples.rootAttrs "A")
    /\ lookup ["var"; "lib"; "docker"; "0.0"; "b"; "x"] (tree w')
       = Ok (File Samples.rootAttrs "hi")
    /\ lookup ["var"; "lib"; "docker"; "0.0"; "old"] (tree w')
       = Ok (File Samples.rootAttrs "O")
    /\ view ["etc"] (tree w') = Ok (Samples.rootAttrs, None, []).
Proof.
  destruct (MoveDirToSubdir_into_subdirectory ["var"; "lib"; "docker"] "0.0"
              Samples.startedHost Samples.rootAttrs (mkAttrs mode_0700 0 0)
              [ ("b", Dir Samples.rootAttrs [("x", File Samples.rootAttrs "hi")]);
                ("0.0", Dir (mkAttrs mode_0700 0 0) [("old", File Samples.rootAttrs "O")]);
                ("a", File Samples.rootAttrs "A") ]
              [("old", File Samples.rootAttrs "O")] eq_refl eq_refl)
    as (w' & E & V & Hmoved & Hkept & Hout).
  - repeat constructor; cbn; intuition discriminate.
  - intros x Hx Hne [<- | []]. cbn in Hx. intuition discriminate.
  - exists w'. split; [exact E |]. split; [exact V |].
    split; [| split; [| split]].
    + refine (eq_trans (Hmoved "a" [] _ _) _);
        [cbn; tauto | discriminate | reflexivity].
    + refine (eq_trans (Hmoved "b" ["x"] _ _) _);
        [cbn; tauto | discriminate | reflexivity].
    + refine (eq_trans (Hkept "old" [] _) _); [cbn; tauto | reflexivity].
    + refine (eq_trans (Hout ["etc"] _) _); reflexivity.
Defined.

(** X15: MoveDirToSubdir does not make the subdirectory.  When it is
    missing and the directory holds something, the first rename fails
    with ENOENT and nothing has moved; an empty directory is left as it
    is; and a path that cannot be read as a directory gives the error of
    reading it and changes nothing: ENOTDIR when it leads to a regular
    file, the error of the walk when it leads nowhere. *)
Theorem MoveDirToSubdir_needs_subdirectory (p : path) (s : string) (w : proc) :
  (forall a es,
     lookup p (tree w) = Ok (Dir a es) -> assoc s es = None -> es <> [] ->
     MoveDirToSubdir p s w = (Err (Errno ENOENT), w))
  /\ (forall a, lookup p (tree w) = Ok (Dir a []) ->
        MoveDirToSubdir p s w = (Ok tt, w))
  /\ (forall e, lookup p (tree w) = Err e -> MoveDirToSubdir p s w = (Err e, w))
  /\ (forall a data, lookup p (tree w) = Ok (File a data) ->
        MoveDirToSubdir p s w = (Err (Errno ENOTDIR), w)).
Proof.
  split; [| split; [| split]].
  - intros a es Hl Hs Hne. unfold MoveDirToSubdir.
    rewrite (bind_ok _ _ w w (sortByName (map (fun e => infoOf (fst e) (snd e)) es)))
      by (cbn [ReadDir memOS]; unfold query, readDir; rewrite Hl; reflexivity).
    pose proof (listing_perm es) as Hp. unfold listing in Hp.
    destruct (sortByName (map (fun e => infoOf (fst e) (snd e)) es)) as [| i rest].
    + apply Permutation_nil in Hp. destruct es; [contradiction | discriminate].
    + assert (Hi : In (Name i) (names es))
        by (apply (Permutation_in _ Hp); left; reflexivity).
      assert (Hx : Name i <> s).
      { intros E. rewrite <- E in Hs. apply assoc_None_names in Hs. contradiction. }
      cbn [moveEntries]. unfold bind.
      apply String.eqb_neq in Hx. rewrite Hx. cbn [negb Rename memOS].
      unfold onTree.
      rewrite (rename_into_subdir p (Name i) s (tree w) _ Hl).
      unfold rename. cbn [unsnoc lookup path_eqb isPrefix].
      destruct (assoc (Name i) es) as [n |] eqn:En;
        [| apply assoc_None_names in En; contradiction].
      rewrite Hx. cbn [andb update]. rewrite Hs. reflexivity.
  - intros a Hl. unfold MoveDirToSubdir.
    rewrite (bind_ok _ _ w w [])
      by (cbn [ReadDir memOS]; unfold query, readDir; rewrite Hl; reflexivity).
    reflexivity.
  - intros e Hl. unfold MoveDirToSubdir, bind.
    cbn [ReadDir memOS]. unfold query, readDir. rewrite Hl. reflexivity.
  - intros a data Hl. unfold MoveDirToSubdir, bind.
    cbn [ReadDir memOS]. unfold query, readDir. rewrite Hl. reflexivity.
Qed.

Lemma MoveDirToSubdir_needs_subdirectory_witness :
  MoveDirToSubdir ["var"; "lib"; "docker"] "0.0" Samples.sampleHost
  = (Err (Errno ENOENT), Samples.sampleHost)
  /\ MoveDirToSubdir ["etc"] "0.0" Samples.sampleHost = (Ok tt, Samples.sampleHost)
  /\ MoveDirToSubdir ["srv"] "0.0" Samples.sampleHost
     = (Err (Errno ENOENT), Samples.sampleHost)
  /\ MoveDirToSubdir ["var"; "lib"; "docker"; "a"] "0.0" Samples.sampleHost
     = (Err (Errno ENOTDIR), Samples.sampleHost)
  /\ MoveDirToSubdir ["var"; "lib"; "docker"; "a"; "c"] "0.0" Samples.sampleHost
     = (Err (Errno ENOTDIR), Samples.sampleHost).
Proof.
  split; [| split; [| split; [| split]]].
  - apply (proj1 (MoveDirToSubdir_needs_subdirectory ["var"; "lib"; "docker"] "0.0"
                    Samples.sampleHost) (mkAttrs mode_0700 0 0) Samples.flatRoot);
      [reflexivity | reflexivity | discriminate].
  - apply (proj1 (proj2 (MoveDirToSubdir_needs_subdirectory ["etc"] "0.0"
                           Samples.sampleHost)) Samples.rootAttrs).
    reflexivity.
  - apply (proj1 (proj2 (proj2 (MoveDirToSubdir_needs_subdirectory ["srv"] "0.0"
                                  Samples.sampleHost)))).
    reflexivity.
  - apply (proj2 (proj2 (proj2 (MoveDirToSubdir_needs_subdirectory
                                  ["var"; "lib"; "docker"; "a"] "0.0"
                                  Samples.sampleHost))) Samples.rootAttrs "A").
    reflexivity.
  - apply (proj1 (proj2 (proj2 (MoveDirToSubdir_needs_subdirectory
                                  ["var"; "lib"; "docker"; "a"; "c"] "0.0"
                                  Samples.sampleHost)))).
    reflexivity.
Defined.

End moveFacts.

(** ** The daemon root on a later start *)

Module rootRestartFacts.
Import os memfs idtools daemon layout memfsFacts daemonRootFacts mkdirAsFacts.

#[local] Existing Instance daemonOS.

(** The namespaced root made in a directory where no regular file has
    its name. *)
Lemma withNsRoot_dir (ns : string) (a0 d : attrs) (uid gid : Z)
    (es : list (string * node)) :
  (forall a data, assoc ns es <> Some (File a data)) ->
  exists es' a1 es1,
    withNsRoot ns a0 uid gid (Dir d es) = Ok (Dir d es')
    /\ assoc ns es' = Some (chowned uid gid (Dir a1 es1))
    /\ (forall x, x <> ns -> assoc x es' = assoc x es)
    /\ (forall n, assoc ns es = Some n -> n = Dir a1 es1).
Proof.
  intros Hf. unfold withNsRoot. cbn [mkdirAll].
  destruct (assoc ns es) as [[a data | a1 es1] |] eqn:Ea.
  - contradiction (Hf a data). reflexivity.
  - rewrite (setEntry_same ns _ es Ea). cbn [lookup]. rewrite Ea.
    unfold plug. cbn [update]. rewrite Ea.
    exists (setEntry ns (chowned uid gid (Dir a1 es1)) es), a1, es1.
    split; [reflexivity |].
    split; [apply (assoc_setEntry_same ns _ _ es Ea) |].
    split; [intros x Hx; apply assoc_setEntry_other; congruence |].
    intros n E. congruence.
  - cbn [lookup]. rewrite assoc_app, Ea. cbn [assoc]. rewrite String.eqb_refl.
    unfold plug. cbn [update]. rewrite assoc_app, Ea. cbn [assoc].
    rewrite String.eqb_refl.
    apply assoc_None_names in Ea. rewrite (setEntry_app_last ns _ _ es Ea).
    exists (es ++ [(ns, chowned uid gid (Dir a0 []))]), a0, [].
    split; [reflexivity |].
    split; [rewrite assoc_app; apply assoc_None_names in Ea; rewrite Ea; cbn;
            rewrite String.eqb_refl; reflexivity |].
    split; [| intros n E; apply assoc_None_names in Ea; congruence].
    intros x Hx. rewrite assoc_app. destruct (assoc x es); [reflexivity |].
    cbn. apply String.eqb_neq in Hx. rewrite Hx. reflexivity.
Qed.

(** X16: the daemon started again on a root that holds "0.0".  Nothing is
    migrated: the root directory keeps its attributes, every entry of it
    other than the namespaced root stays as it is, "0.0" included unless
    it is the namespaced root itself; the namespaced root is a directory
    owned by the remapped root, with what it held before, and
    [config.Root] names it. *)
Theorem setupDaemonRoot_on_migrated_root (cfg : Config) (w : proc) (rootDir : path)
    (uid gid : Z) (d : attrs) (es : list (string * node)) (n0 : node) :
  let ns := nsName cfg uid gid in
  lookup rootDir (tree w) = Ok (Dir d es) ->
  assoc "0.0" es = Some n0 ->
  (forall a data, assoc ns es <> Some (File a data)) ->
  exists s',
    setupDaemonRoot rootDir uid gid (mkDaemonState cfg w) = (Ok tt, s')
    /\ Root (config s') = rootDir ++ [ns]
    /\ (exists b held,
          lookup (rootDir ++ [ns]) (tree (host s')) = Ok (Dir b held)
          /\ (uid <> -1 -> a_uid b = uid) /\ (gid <> -1 -> a_gid b = gid)
          /\ (forall n, assoc ns es = Some n ->
                exists a1, n = Dir a1 held /\ a_mode b = a_mode a1))
    /\ (exists listed, view rootDir (tree (host s')) = Ok (d, None, listed))
    /\ (forall x q, x <> ns ->
          lookup (rootDir ++ x :: q) (tree (host s'))
          = lookup (rootDir ++ x :: q) (tree w))
    /\ (forall q, isPrefix rootDir q = false ->
          view q (tree (host s')) = view q (tree w)).
Proof.
  intros ns Hl H0 Hf.
  destruct (withNsRoot_dir ns (created w mode_0700) d uid gid es Hf)
    as (es' & a1 & es1 & Hns & Hat & Hother & Hold).
  eexists. split; [apply (run_existing cfg w rootDir uid gid d es n0 _ Hl H0 Hns) |].
  cbn [config host Root tree withTree].
  split; [reflexivity |].
  destruct (ownedDirFacts.chownedAttrs uid gid a1 es1) as (b & Eb & Hmode & Hu & Hg).
  split; [| split; [| split]].
  - exists b, es1. rewrite lookup_app, (lookup_plug rootDir _ _ _ Hl).
    cbn [lookup]. rewrite Hat, Eb.
    repeat split; try assumption.
    intros n E. exists a1. split; [apply (Hold n E) | assumption].
  - exists (names es'). unfold view. rewrite (lookup_plug rootDir _ _ _ Hl).
    reflexivity.
  - intros x q Hx. rewrite !lookup_app, (lookup_plug rootDir _ _ _ Hl), Hl.
    cbn [lookup]. rewrite (Hother x Hx). reflexivity.
  - intros q Hq. apply (view_plug rootDir q _ _ _ Hl Hq).
Qed.

Lemma setupDaemonRoot_on_migrated_root_witness :
  exists s',
    setupDaemonRoot ["var"; "lib"; "docker"] 1000 1000
      (mkDaemonState Samples.remapped Samples.migratedHost) = (Ok tt, s')
    /\ Root (config s') = ["var"; "lib"; "docker"; "1000.1000"]
    /\ lookup ["var"; "lib"; "docker"; "0.0"; "a"] (tree (host s'))
       = Ok (File Samples.rootAttrs "A").
Proof.
  destruct (setupDaemonRoot_on_migrated_root Samples.remapped Samples.migratedHost
              ["var"; "lib"; "docker"] 1000 1000 Samples.rootAttrs
              [("0.0", Dir (mkAttrs mode_0700 0 0) Samples.flatRoot)]
              (Dir (mkAttrs mode_0700 0 0) Samples.flatRoot) eq_refl eq_refl)
    as (s' & E & R & _ & _ & Hother & _).
  - intros a data H. vm_compute in H. discriminate H.
  - exists s'. split; [exact E |]. split; [exact R |].
    refine (eq_trans (Hother "0.0" ["a"] _) _); [discriminate | reflexivity].
Defined.

Lemma mkdirAs_zoom {W : Type} {O : OS W} (p : path) (mode uid gid : Z)
    (mkAll : bool) (s : daemonState W) :
  @mkdirAs (daemonState W) daemonOS p mode uid gid mkAll s
  = (fst (@mkdirAs W O p mode uid gid mkAll (host s)),
     mkDaemonState (config s) (snd (@mkdirAs W O p mode uid gid mkAll (host s)))).
Proof.
  unfold mkdirAs, bind, unlessExists.
  cbn [Mkdir MkdirAll Chown daemonOS zoomOS]. unfold zoom.
  destruct mkAll.
  - destruct (MkdirAll p mode (host s)) as [[u | e] w1]; cbn [host config].
    + destruct (Chown p uid gid w1) as [r w2]. reflexivity.
    + destruct (negb (IsExist e)); cbn [host config]; [reflexivity |].
      destruct (Chown p uid gid w1) as [r w2]. reflexivity.
  - destruct (Mkdir p mode (host s)) as [[u | e] w1]; cbn [host config].
    + destruct (Chown p uid gid w1) as [r w2]. reflexivity.
    + destruct (negb (IsExist e)); cbn [host config]; [reflexivity |].
      destruct (Chown p uid gid w1) as [r w2]. reflexivity.
Qed.

(** X17: a regular file where the daemon root should be.  setupDaemonRoot
    fails with the error of making the namespaced root, ENOTDIR; the file
    system is as it was, but [config.Root] has been set to the namespaced
    root all the same. *)
Theorem setupDaemonRoot_root_is_a_file (cfg : Config) (w : proc) (rootDir : path)
    (uid gid : Z) (a : attrs) (data : string) :
  lookup rootDir (tree w) = Ok (File a data) ->
  setupDaemonRoot rootDir uid gid (mkDaemonState cfg w)
  = (Err (ErrCreateDaemonRoot (Errno ENOTDIR)),
     mkDaemonState
       (mkConfig (rootDir ++ [nsName cfg uid gid]) (ExecDriver cfg) (RemappedRoot cfg))
       w).
Proof.
  intros Hl.
  cbv beta zeta delta [setupDaemonRoot].
  rewrite (bind_ok _ _ _ (mkDaemonState cfg w)
             (Ok (infoOf (lastName rootDir) (File a data)))).
  2:{ apply try_run. rewrite run_Stat. unfold stat. rewrite Hl. reflexivity. }
  cbv beta iota.
  rewrite (bind_ok _ _ (mkDaemonState cfg w) (mkDaemonState cfg w) tt).
  2:{ rewrite (bind_ok _ _ _ (mkDaemonState cfg w) (Err (Errno ENOTDIR))).
      - reflexivity.
      - apply try_run. rewrite run_Stat. unfold stat.
        rewrite lookup_app, Hl. reflexivity. }
  rewrite (bind_ok _ _ _ (mkDaemonState cfg w) cfg) by reflexivity.
  fold (nsName cfg uid gid).
  rewrite (bind_ok _ _ _
             (mkDaemonState
                (mkConfig (rootDir ++ [nsName cfg uid gid]) (ExecDriver cfg)
                   (RemappedRoot cfg)) w) tt) by reflexivity.
  unfold wrapErr, MkdirAllAs. rewrite mkdirAs_zoom. cbn [host config].
  fold (@MkdirAllAs proc memOS (rootDir ++ [nsName cfg uid gid]) mode_0700 uid gid w).
  rewrite ownedDirFacts.run_MkdirAllAs_proc.
  rewrite (ownedDirFacts.mkdirAll_file_on_path rootDir _ _ a data _ Hl).
  reflexivity.
Qed.

Lemma setupDaemonRoot_root_is_a_file_witness :
  setupDaemonRoot ["var"; "lib"; "docker"; "a"] 0 0
    (mkDaemonState Samples.unmapped Samples.sampleHost)
  = (Err (ErrCreateDaemonRoot (Errno ENOTDIR)),
     mkDaemonState (mkConfig ["var"; "lib"; "docker"; "a"; "0.0"] "native" "")
       Samples.sampleHost).
Proof.
  apply (setupDaemonRoot_root_is_a_file Samples.unmapped Samples.sampleHost
           ["var"; "lib"; "docker"; "a"] 0 0 Samples.rootAttrs "A").
  reflexivity.
Defined.

End rootRestartFacts.

(** ** The names of the namespaced roots *)

Module nsNameFacts.
Import daemon layout.

Lemma to_int_written (n : Z) :
  NilZero.int_of_string (NilZero.string_of_int (Z.to_int n)) = Some (Z.to_int n).
Proof.
  apply NilZero.isi; destruct n; cbn; intros E; try discriminate;
    injection E as E; apply DecimalPos.Unsigned.to_uint_nonnil in E; exact E.
Qed.

(** [%d] writes different numbers differently. *)
Lemma itoa_inj (n m : Z) : itoa n = itoa m -> n = m.
Proof.
  unfold itoa. intros H. apply DecimalZ.to_int_inj.
  pose proof (to_int_written n) as En. rewrite H, to_int_written in En.
  congruence.
Qed.

Lemma uint_no_dot (d : Decimal.uint) :
  ~ In "."%char (list_ascii_of_string (NilEmpty.string_of_uint d)).
Proof.
  induction d; cbn; intros H; try (destruct H as [H | H]; [discriminate | auto]).
  exact H.
Qed.

Lemma itoa_no_dot (n : Z) : ~ In "."%char (list_ascii_of_string (itoa n)).
Proof.
  unfold itoa, NilZero.string_of_int, NilZero.string_of_uint.
  destruct (Z.to_int n) as [d | d]; destruct d;
    try (cbn; intros [H | H]; [discriminate | revert H]);
    try (cbn; intros [H | H]; [discriminate | revert H]);
    try apply uint_no_dot; try (intros []).
Qed.

Lemma split_at_dot (s1 : string) :
  forall t1 s2 t2 : string,
    ~ In "."%char (list_ascii_of_string s1) ->
    ~ In "."%char (list_ascii_of_string t1) ->
    (s1 ++ "." ++ s2)%string = (t1 ++ "." ++ t2)%string ->
    s1 = t1 /\ s2 = t2.
Proof.
  induction s1 as [| c s1 IH]; intros [| c' t1] s2 t2 H1 H2; cbn in *; intros E.
  - injection E as ->. auto.
  - injection E as <- _. tauto.
  - injection E as -> _. tauto.
  - injection E as -> E. destruct (IH t1 s2 t2) as [-> ->]; auto.
Qed.

(** X18: the name of the namespaced root tells the identities apart: with
    a remap configured, two pairs of ids give the same name only if they
    are the same pair, and the name is "0.0", the root of the daemon that
    does not remap, for the pair (0, 0) only. *)
Theorem nsName_separates_identities (cfg : Config) (uid gid uid' gid' : Z) :
  RemappedRoot cfg <> "" ->
  (nsName cfg uid gid = nsName cfg uid' gid' -> uid = uid' /\ gid = gid')
  /\ (nsName cfg uid gid = "0.0" -> uid = 0 /\ gid = 0).
Proof.
  intros H. unfold nsName.
  apply String.eqb_neq in H. rewrite H. cbn [negb].
  assert (Hinj : forall u g u' g',
             (itoa u ++ "." ++ itoa g)%string = (itoa u' ++ "." ++ itoa g')%string ->
             u = u' /\ g = g').
  { intros u g u' g' E.
    apply split_at_dot in E as [E1 E2]; try apply itoa_no_dot.
    split; apply itoa_inj; assumption. }
  split; [apply Hinj |].
  intros E. apply (Hinj uid gid 0 0). exact E.
Qed.

Lemma nsName_separates_identities_witness :
  nsName Samples.remapped 1000 2000 <> nsName Samples.remapped 2000 1000
  /\ nsName Samples.remapped 1000 1000 <> "0.0".
Proof.
  assert (H : RemappedRoot Samples.remapped <> "") by discriminate.
  split; intros E.
  - apply (proj1 (nsName_separates_identities Samples.remapped 1000 2000 2000 1000 H))
      in E.
    destruct E; discriminate.
  - apply (proj2 (nsName_separates_identities Samples.remapped 1000 1000 0 0 H)) in E.
    destruct E; discriminate.
Defined.

End nsNameFacts.

(** ** The size of a directory tree *)

Module sizeFacts.
Import GoInt GoIntFacts directory.

Lemma wrap_add_l (a b : Z) : wrap (wrap a + b) = wrap (a + b).
Proof.
  unfold wrap.
  replace ((a + 2 ^ 63) mod 2 ^ 64 - 2 ^ 63 + b + 2 ^ 63)
    with ((a + 2 ^ 63) mod 2 ^ 64 + b) by ring.
  replace (a + b + 2 ^ 63) with (a + 2 ^ 63 + b) by ring.
  rewrite Zplus_mod_idemp_l. reflexivity.
Qed.

Lemma add_swap (s a b : Z) : add (add s a) b = add (add s b) a.
Proof.
  unfold add. rewrite !wrap_add_l. f_equal. ring.
Qed.

Lemma seen_iff (i : Z) (data : list Z) :
  existsb (Z.eqb i) data = true <-> In i data.
Proof.
  rewrite existsb_exists. split.
  - intros (x & Hx & E). apply Z.eqb_eq in E. subst. assumption.
  - intros H. exists i. split; [assumption | apply Z.eqb_refl].
Qed.

Lemma seen_same (i : Z) (data data' : list Z) :
  (forall j, In j data <-> In j data') ->
  existsb (Z.eqb i) data = existsb (Z.eqb i) data'.
Proof.
  intros H. apply eq_true_iff_eq. rewrite !seen_iff. apply H.
Qed.

Lemma sameCount_refl (st : list Z * Z) : sameCount st st.
Proof. split; [tauto | reflexivity]. Qed.

Lemma sameCount_trans (a b c : list Z * Z) :
  sameCount a b -> sameCount b c -> sameCount a c.
Proof.
  intros [H1 E1] [H2 E2]. split; [| congruence].
  intros i. rewrite H1. apply H2.
Qed.

Lemma sizeStep_same (st st' : list Z * Z) (v : option walked) :
  sameCount st st' -> sameCount (sizeStep st v) (sizeStep st' v).
Proof.
  destruct st as [data size], st' as [data' size']. intros [H E]. cbn in H, E. subst.
  unfold sizeStep. destruct v as [f |]; [| split; assumption || reflexivity].
  destruct (wIsDir f || (wSize f =? 0)); [split; assumption || reflexivity |].
  rewrite (seen_same (wIno f) data data' H).
  destruct (existsb (Z.eqb (wIno f)) data'); [split; assumption || reflexivity |].
  split; [| reflexivity]. intros i. cbn. rewrite H. tauto.
Qed.

Lemma fold_same (vs : list (option walked)) :
  forall st st', sameCount st st' ->
                 sameCount (fold_left sizeStep vs st) (fold_left sizeStep vs st').
Proof.
  induction vs as [| v vs IH]; intros st st' H; [exact H |].
  cbn [fold_left]. apply IH, sizeStep_same, H.
Qed.

(** Two visits can be made in either order when hard links agree on the
    size. *)
Lemma sizeStep_swap (st : list Z * Z) (u v : option walked) :
  (forall f g, u = Some f -> v = Some g ->
     countable u = true -> countable v = true ->
     wIno f = wIno g -> wSize f = wSize g) ->
  sameCount (sizeStep (sizeStep st u) v) (sizeStep (sizeStep st v) u).
Proof.
  assert (N : forall st', sizeStep st' None = st') by (intros [? ?]; reflexivity).
  destruct st as [data size]. intros Hc.
  destruct u as [f |]; [| rewrite !N; apply sameCount_refl].
  destruct v as [g |]; [| rewrite !N; apply sameCount_refl].
  specialize (Hc f g eq_refl eq_refl). unfold countable in Hc.
  unfold sizeStep.
  destruct (wIsDir f || (wSize f =? 0)) eqn:Cf;
    destruct (wIsDir g || (wSize g =? 0)) eqn:Cg;
    destruct (existsb (Z.eqb (wIno f)) data) eqn:Sf;
    destruct (existsb (Z.eqb (wIno g)) data) eqn:Sg;
    cbv beta iota zeta; rewrite ?Cf, ?Cg, ?Sf, ?Sg;
    cbn [existsb]; rewrite ?Sf, ?Sg, ?orb_true_r, ?orb_false_r;
    try apply sameCount_refl.
  specialize (Hc eq_refl eq_refl).
  rewrite (Z.eqb_sym (wIno g) (wIno f)).
  destruct (Z.eqb_spec (wIno f) (wIno g)) as [Ei | Ni].
  - rewrite (Hc Ei). split; [| reflexivity].
    intros i. cbn. rewrite Ei. tauto.
  - split; [| apply add_swap].
    intros i. cbn. tauto.
Qed.

Lemma fold_perm (vs vs' : list (option walked)) :
  Permutation vs vs' ->
  linksAgree vs ->
  forall st, sameCount (fold_left sizeStep vs st) (fold_left sizeStep vs' st).
Proof.
  induction 1 as [| v l l' Hp IH | u v l | l l' l'' H1 IH1 H2 IH2]; intros Ha st.
  - apply sameCount_refl.
  - cbn [fold_left]. apply IH.
    intros f g Hf Hg. apply Ha; right; assumption.
  - cbn [fold_left]. apply fold_same, sizeStep_swap.
    intros f g -> ->. apply Ha; cbn; auto.
  - apply (sameCount_trans _ (fold_left sizeStep l' st)); [apply IH1, Ha |].
    apply IH2. intros f g Hf Hg.
    apply Ha; apply (Permutation_in _ (Permutation_sym H1)); assumption.
Qed.

(** X19: the size of a tree does not depend on the order in which the walk
    comes by its files, as long as the names of one inode agree on its
    size. *)
Theorem Size_independent_of_walk_order (visits visits' : list (option walked))
    (walkErr : option error) :
  Permutation visits visits' ->
  linksAgree visits ->
  Size visits walkErr = Size visits' walkErr.
Proof.
  intros Hp Ha. unfold Size. f_equal.
  apply (fold_perm visits visits' Hp Ha ([], 0)).
Qed.

Lemma Size_independent_of_walk_order_witness :
  Size [Some (mkWalked 10 false 7); None; Some (mkWalked 4096 true 2);
        Some (mkWalked 10 false 7); Some (mkWalked 5 false 8)] None
  = Size (rev [Some (mkWalked 10 false 7); None; Some (mkWalked 4096 true 2);
               Some (mkWalked 10 false 7); Some (mkWalked 5 false 8)]) None.
Proof.
  apply Size_independent_of_walk_order.
  - apply Permutation_rev.
  - intros f g Hf Hg Cf Cg Hi. cbn in Hf, Hg.
    repeat (destruct Hf as [Hf | Hf]; try discriminate Hf; try contradiction Hf;
            try (injection Hf as <-));
      repeat (destruct Hg as [Hg | Hg]; try discriminate Hg; try contradiction Hg;
              try (injection Hg as <-));
      cbn in *; try reflexivity; discriminate.
Defined.

(** The sum of the sizes, as the integers they are. *)
Lemma fold_counts (fs : list walked) :
  forall data size,
    NoDup (map wIno fs) ->
    (forall f, In f fs -> ~ In (wIno f) data) ->
    (forall f, In f fs -> wIsDir f = false /\ 0 < wSize f) ->
    0 <= size ->
    size + fold_right (fun f acc => wSize f + acc) 0 fs <= max_int ->
    snd (fold_left sizeStep (map Some fs) (data, size))
    = size + fold_right (fun f acc => wSize f + acc) 0 fs.
Proof.
  induction fs as [| f fs IH]; intros data size Hnd Hnew Hreg Hs Hmax.
  - cbn. lia.
  - cbn [map fold_left fold_right] in *.
    inversion Hnd as [| ? ? Hf Hnd']; subst.
    destruct (Hreg f (or_introl eq_refl)) as [Hd Hpos].
    assert (Hsum : 0 <= fold_right (fun f acc => wSize f + acc) 0 fs).
    { clear - Hreg. induction fs as [| g fs IH]; cbn; [lia |].
      destruct (Hreg g (or_intror (or_introl eq_refl))) as [_ Hg].
      assert (0 <= fold_right (fun f acc => wSize f + acc) 0 fs).
      { apply IH. intros h [<- | Hh]; apply Hreg; cbn; auto. }
      lia. }
    unfold sizeStep at 2. rewrite Hd. cbn [orb].
    destruct (Z.eqb_spec (wSize f) 0) as [E | _]; [lia |].
    destruct (existsb (Z.eqb (wIno f)) data) eqn:Es.
    + apply seen_iff in Es. contradiction (Hnew f (or_introl eq_refl)).
    + rewrite add_small by (unfold is_int, min_int, max_int in *; lia).
      rewrite IH; try assumption; try lia.
      * intros g Hg [E | Hin].
        -- apply Hf. rewrite E. apply in_map. assumption.
        -- apply (Hnew g (or_intror Hg) Hin).
      * intros g Hg. apply Hreg. right. assumption.
Qed.

(** X20: without hard links, directories and empty files, Size is the sum
    of the sizes of the files the walk comes by, when that sum is an
    int64. *)
Theorem Size_sums_regular_files (fs : list walked) (walkErr : option error) :
  NoDup (map wIno fs) ->
  (forall f, In f fs -> wIsDir f = false /\ 0 < wSize f) ->
  fold_right (fun f acc => wSize f + acc) 0 fs <= max_int ->
  Size (map Some fs) walkErr
  = (fold_right (fun f acc => wSize f + acc) 0 fs, walkErr).
Proof.
  intros Hnd Hreg Hmax. unfold Size. f_equal.
  rewrite (fold_counts fs [] 0); auto; try lia.
Qed.

Lemma Size_sums_regular_files_witness :
  Size [Some (mkWalked 10 false 7); Some (mkWalked 5 false 8)] None = (15, None).
Proof.
  apply (Size_sums_regular_files [mkWalked 10 false 7; mkWalked 5 false 8] None).
  - repeat constructor; cbn; intuition discriminate.
  - intros f [<- | [<- | []]]; cbn; split; (reflexivity || lia).
  - cbn. unfold max_int. lia.
Defined.

Lemma fold_app_step (vs : list (option walked)) (v : option walked) (st : list Z * Z) :
  fold_left sizeStep (vs ++ [v]) st = sizeStep (fold_left sizeStep vs st) v.
Proof. rewrite fold_left_app. reflexivity. Qed.

(** The inode of a visit that counts is among the inodes counted once
    the walk has come by it. *)
Lemma fold_seen (vs : list (option walked)) (f : walked) :
  forall st,
    (In (wIno f) (fst st)
     \/ (In (Some f) vs /\ countable (Some f) = true)) ->
    In (wIno f) (fst (fold_left sizeStep vs st)).
Proof.
  induction vs as [| v vs IH]; intros st H.
  - cbn. destruct H as [H | [[] _]]. exact H.
  - cbn [fold_left]. apply IH.
    destruct H as [H | [[-> | H] Hc]].
    + left. destruct st as [data size]. unfold sizeStep.
      destruct v as [g |]; [| exact H].
      destruct (wIsDir g || (wSize g =? 0)); [exact H |].
      destruct (existsb (Z.eqb (wIno g)) data); [exact H | right; exact H].
    + left. destruct st as [data size]. unfold sizeStep.
      unfold countable in Hc. apply negb_true_iff in Hc. rewrite Hc.
      destruct (existsb (Z.eqb (wIno f)) data) eqn:Es.
      * apply seen_iff in Es. exact Es.
      * left. reflexivity.
    + right. split; assumption.
Qed.

(** X21: what Size leaves out.  A path the walk could not examine, a
    directory, an empty file, and a further name of a file that has
    been counted add nothing, whatever size that name reports. *)
Theorem Size_counts_each_inode_once (visits : list (option walked))
    (v : option walked) (walkErr : option error) :
  (countable v = false ->
     Size (visits ++ [v]) walkErr = Size visits walkErr)
  /\ (forall f g,
        v = Some g -> In (Some f) visits -> countable (Some f) = true ->
        wIno g = wIno f ->
        Size (visits ++ [v]) walkErr = Size visits walkErr).
Proof.
  unfold Size. split.
  - intros Hc. rewrite fold_app_step.
    destruct (fold_left sizeStep visits ([], 0)) as [data size].
    destruct v as [g |]; [| reflexivity].
    unfold countable in Hc. apply negb_false_iff in Hc.
    unfold sizeStep. rewrite Hc. reflexivity.
  - intros f g -> Hin Hc Hi. rewrite fold_app_step.
    pose proof (fold_seen visits f ([], 0) (or_intror (conj Hin Hc))) as Hs.
    destruct (fold_left sizeStep visits ([], 0)) as [data size].
    unfold sizeStep. destruct (wIsDir g || (wSize g =? 0)); [reflexivity |].
    cbn [fst] in Hs. rewrite <- Hi in Hs. apply seen_iff in Hs. rewrite Hs.
    reflexivity.
Qed.

Lemma Size_counts_each_inode_once_witness :
  Size ([Some (mkWalked 10 false 7)] ++ [Some (mkWalked 4096 true 2)]) None
  = Size [Some (mkWalked 10 false 7)] None
  /\ Size ([Some (mkWalked 10 false 7)] ++ [Some (mkWalked 10 false 7)]) None
     = Size [Some (mkWalked 10 false 7)] None.
Proof.
  split.
  - apply (proj1 (Size_counts_each_inode_once [Some (mkWalked 10 false 7)]
                    (Some (mkWalked 4096 true 2)) None)).
    reflexivity.
  - apply (proj2 (Size_counts_each_inode_once [Some (mkWalked 10 false 7)]
                    (Some (mkWalked 10 false 7)) None)
             (mkWalked 10 false 7) (mkWalked 10 false 7));
      [reflexivity | left; reflexivity | reflexivity | reflexivity].
Defined.

End sizeFacts.

(** ** The mountpoints of the driver *)

Module mountpointFacts.
Import os memfs idtools devmapper layout memfsFacts daemonRootFacts mkdirAsFacts
  ownedDirFacts.

Lemma bind_inv {W A B : Type} (m : M W A) (k : A -> M W B) (s s' : W) (b : B) :
  bind m k s = (Ok b, s') ->
  exists a s1, m s = (Ok a, s1) /\ k a s1 = (Ok b, s').
Proof.
  unfold bind. destruct (m s) as [[a | e] s1]; [eauto | discriminate].
Qed.

Lemma lookup_snoc_dir (p : path) (x : string) (t n : node) :
  lookup (p ++ [x]) t = Ok n ->
  exists d es, lookup p t = Ok (Dir d es) /\ assoc x es = Some n.
Proof.
  rewrite lookup_app. destruct (lookup p t) as [[a data | d es] |]; cbn [lookup];
    try discriminate.
  destruct (assoc x es) as [c |] eqn:E; [| discriminate].
  intros H. injection H as ->. eauto.
Qed.

Section host.

(** A host that has the file system in memory as a part of its state
    [W], and a device set that may do to the state what it likes. *)
Context {W : Type} (files : W -> proc) (withFiles : W -> proc -> W).
Hypothesis files_withFiles : forall s f, files (withFiles s f) = f.
Hypothesis withFiles_withFiles :
  forall s f g, withFiles (withFiles s f) g = withFiles s g.
Context (D : DeviceSet W).

#[local] Existing Instance D.
Let HO : OS W := zoomOS files withFiles memOS.
#[local] Existing Instance HO.

Lemma mkdirAs_on_host (p : path) (mode uid gid : Z) (mkAll : bool) (s : W) :
  mkdirAs p mode uid gid mkAll s
  = (fst (mkdirAs p mode uid gid mkAll (files s)),
     withFiles s (snd (mkdirAs p mode uid gid mkAll (files s)))).
Proof.
  unfold mkdirAs, bind, unlessExists.
  cbn [Mkdir MkdirAll Chown HO zoomOS memOS]. unfold zoom.
  destruct mkAll.
  - destruct (onTree (mkdirAll p (created (files s) mode)) (files s))
      as [[u | e] w1] eqn:E1.
    + rewrite files_withFiles.
      destruct (onTree (update p (chownNode uid gid)) w1) as [r w2] eqn:E2.
      rewrite withFiles_withFiles. reflexivity.
    + destruct (negb (IsExist e)); [reflexivity |].
      rewrite files_withFiles.
      destruct (onTree (update p (chownNode uid gid)) w1) as [r w2] eqn:E2.
      rewrite withFiles_withFiles. reflexivity.
  - destruct (onTree (mkdir p (created (files s) mode)) (files s))
      as [[u | e] w1] eqn:E1.
    + rewrite files_withFiles.
      destruct (onTree (update p (chownNode uid gid)) w1) as [r w2] eqn:E2.
      rewrite withFiles_withFiles. reflexivity.
    + destruct (negb (IsExist e)); [reflexivity |].
      rewrite files_withFiles.
      destruct (onTree (update p (chownNode uid gid)) w1) as [r w2] eqn:E2.
      rewrite withFiles_withFiles. reflexivity.
Qed.

(** The steps of Get after the mount, when they succeed. *)
Lemma afterMount_on_host (d : Driver) (id : string) (uid gid : Z) (s s' : W)
    (rootFs : path) :
  afterMount d id uid gid s = (Ok rootFs, s') ->
  rootFs = (home d ++ ["mnt"; id]) ++ ["rootfs"]
  /\ exists a es n,
       lookup rootFs (tree (files s')) = Ok (Dir a es)
       /\ (uid <> -1 -> a_uid a = uid)
       /\ (gid <> -1 -> a_gid a = gid)
       /\ lookup ((home d ++ ["mnt"; id]) ++ ["id"]) (tree (files s')) = Ok n.
Proof.
  unfold afterMount.
  set (mp := home d ++ ["mnt"; id]).
  unfold bind at 1. unfold try at 1. unfold MkdirAllAs.
  rewrite mkdirAs_on_host.
  destruct (mkdirAs (mp ++ ["rootfs"]) mode_0755 uid gid true (files s))
    as [[[] | e] w1] eqn:E1; cbn [fst snd].
  2:{ apply MkdirAllAs_err in E1 as [-> _]. cbn [IsExist negb].
      unfold bind, try, fail.
      destruct (UnmountDevice id (withFiles s w1)) as [r0 s0]. discriminate. }
  destruct (MkdirAllAs_ok _ _ _ _ _ _ E1) as (t1 & d1 & es & _ & El1 & ->).
  destruct (chownedAttrs uid gid d1 es) as (a & Ea & _ & Hu & Hg).
  assert (Hroot : lookup (mp ++ ["rootfs"])
                    (tree (withTree (files s)
                             (plug (mp ++ ["rootfs"]) (chowned uid gid (Dir d1 es)) t1)))
                  = Ok (Dir a es))
    by (cbn [tree withTree]; rewrite (lookup_plug _ t1 _ _ El1), Ea; reflexivity).
  set (w1 := withTree (files s)
               (plug (mp ++ ["rootfs"]) (chowned uid gid (Dir d1 es)) t1)) in *.
  destruct (lookup_snoc_dir mp "rootfs" _ _ Hroot) as (dm & em & Hmp & Hr).
  unfold bind at 1. unfold ret at 1.
  unfold bind at 1. unfold bind at 1. unfold try at 1.
  cbn [Stat HO zoomOS memOS]. unfold zoom, query at 1. unfold stat.
  rewrite files_withFiles.
  assert (Hid : lookup (mp ++ ["id"]) (tree w1)
                = match assoc "id" em with
                  | Some n => Ok n
                  | None => Err (Errno ENOENT)
                  end).
  { rewrite lookup_app, Hmp. cbn [lookup]. destruct (assoc "id" em); reflexivity. }
  rewrite Hid.
  destruct (assoc "id" em) as [n |] eqn:Ei.
  - unfold ret. intros E. injection E as <- <-.
    split; [reflexivity |]. rewrite files_withFiles.
    exists a, es, n. rewrite Hroot, Hid. auto.
  - cbn [IsNotExist]. unfold bind at 1. unfold try at 1.
    cbn [WriteFile HO zoomOS memOS]. unfold zoom, onTree.
    rewrite files_withFiles.
    unfold writeFile. rewrite unsnoc_snoc.
    rewrite (update_plug mp _ _ _ Hmp). cbn [writeAt]. rewrite Ei.
    unfold ret. intros E. injection E as <- <-.
    split; [reflexivity |]. rewrite withFiles_withFiles, files_withFiles.
    cbn [tree withTree].
    exists a, es, (File (created w1 mode_0600) id).
    rewrite !lookup_app, (lookup_plug mp _ _ _ Hmp). cbn [lookup].
    rewrite !assoc_app, Hr, Ei. cbn [assoc]. rewrite String.eqb_refl. auto.
Qed.

(** X22: what Get leaves behind when it succeeds: below the mountpoint of
    the device the directory rootfs, owned by the host ids container root
    maps to, and the file id; the path it returns is that of rootfs. *)
Theorem Get_leaves_owned_rootfs (d : Driver) (id mountLabel : string) (s s' : W)
    (rootFs : path) :
  Get d id mountLabel s = (Ok rootFs, s') ->
  exists uid gid a es n,
    GetRootUIDGID (uidMaps d) (gidMaps d) = Ok (uid, gid)
    /\ rootFs = home d ++ ["mnt"; id; "rootfs"]
    /\ lookup rootFs (tree (files s')) = Ok (Dir a es)
    /\ (uid <> -1 -> a_uid a = uid)
    /\ (gid <> -1 -> a_gid a = gid)
    /\ lookup (home d ++ ["mnt"; id; "id"]) (tree (files s')) = Ok n.
Proof.
  intros H.
  assert (Get_then : Get d id mountLabel
            = (ids <- liftR (GetRootUIDGID (uidMaps d) (gidMaps d)) ;;
               let '(uid, gid) := ids in
               unlessExists (MkdirAllAs (home d ++ ["mnt"]) mode_0755 uid gid) ;;;
               unlessExists (MkdirAs (home d ++ ["mnt"; id]) mode_0755 uid gid) ;;;
               MountDevice id (home d ++ ["mnt"; id]) mountLabel ;;;
               afterMount d id uid gid)) by reflexivity.
  rewrite Get_then in H. clear Get_then.
  apply bind_inv in H as ([uid gid] & s0 & H0 & H).
  unfold liftR in H0. injection H0 as H0 <-.
  apply bind_inv in H as (u1 & s1 & _ & H).
  apply bind_inv in H as (u2 & s2 & _ & H).
  apply bind_inv in H as (u3 & s3 & _ & H).
  apply afterMount_on_host in H as (-> & a & es & n & Hr & Hu & Hg & Hi).
  exists uid, gid, a, es, n.
  replace (home d ++ ["mnt"; id; "rootfs"]) with ((home d ++ ["mnt"; id]) ++ ["rootfs"])
    by (rewrite <- app_assoc; reflexivity).
  replace (home d ++ ["mnt"; id; "id"]) with ((home d ++ ["mnt"; id]) ++ ["id"])
    by (rewrite <- app_assoc; reflexivity).
  auto 10.
Qed.

Lemma delEntry_absent (x : string) (es : list (string * node)) :
  assoc x es = None -> delEntry x es = es.
Proof.
  unfold delEntry. induction es as [| [y n] es IH]; cbn [assoc filter fst];
    [reflexivity |].
  destruct (String.eqb x y); [discriminate |].
  cbn [negb]. intros H. rewrite (IH H). reflexivity.
Qed.

(** X23: Remove of a device the set knows and deletes, for an id that is
    one element of a path and on a host where the directory of the
    mountpoints is there: it succeeds, the mountpoint of the device is
    gone with all it held, the directory of the mountpoints keeps its
    attributes and its other entries, the mountpoints of the other
    devices are as they were, and so is all that is not below the
    directory of the mountpoints; the state is otherwise as the deletion
    of the device left it. *)
Theorem Remove_clears_mountpoint (d : Driver) (id : string) (s s1 s2 : W) (u : unit)
    (dm : attrs) (em : list (string * node)) :
  isElement id = true ->
  HasDevice id s = (true, s1) ->
  DeleteDevice id s1 = (Ok u, s2) ->
  lookup (home d ++ ["mnt"]) (tree (files s2)) = Ok (Dir dm em) ->
  exists t,
    Remove d id s = (Ok tt, withFiles s2 (withTree (files s2) t))
    /\ (forall q, lookup (home d ++ "mnt" :: id :: q) t = Err (Errno ENOENT))
    /\ lookup (home d ++ ["mnt"]) t = Ok (Dir dm (delEntry id em))
    /\ (forall other q, other <> id ->
          lookup (home d ++ "mnt" :: other :: q) t
          = lookup (home d ++ "mnt" :: other :: q) (tree (files s2)))
    /\ (forall q, isPrefix (home d ++ ["mnt"]) q = false ->
          view q t = view q (tree (files s2))).
Proof.
  intros _ Hh Hd Hm.
  set (mnt := home d ++ ["mnt"]) in *.
  assert (Emp : home d ++ ["mnt"; id] = mnt ++ [id])
    by (unfold mnt; rewrite <- app_assoc; reflexivity).
  assert (Eo : forall other q, home d ++ "mnt" :: other :: q = mnt ++ other :: q)
    by (intros; unfold mnt; rewrite <- app_assoc; reflexivity).
  assert (Hrun : removeAll (mnt ++ [id]) (tree (files s2))
                 = Ok (plug mnt (Dir dm (delEntry id em)) (tree (files s2)))).
  { unfold removeAll. rewrite unsnoc_snoc, lookup_app, Hm. cbn [lookup].
    destruct (assoc id em) as [n |] eqn:Ei.
    - rewrite (update_plug mnt _ _ _ Hm). reflexivity.
    - rewrite (delEntry_absent id em Ei), (plug_same mnt _ _ Hm). reflexivity. }
  exists (plug mnt (Dir dm (delEntry id em)) (tree (files s2))).
  split; [| split; [| split; [| split]]].
  - unfold Remove, bind. rewrite Hh. cbn [negb]. rewrite Hd.
    unfold try. cbn [RemoveAll HO zoomOS memOS]. unfold zoom, onTree.
    rewrite Emp, Hrun. reflexivity.
  - intros q. rewrite Eo, lookup_app, (lookup_plug mnt _ _ _ Hm).
    cbn [lookup].
    assert (Hn : assoc id (delEntry id em) = None).
    { apply assoc_None_names. intros H. apply names_delEntry in H. tauto. }
    rewrite Hn. reflexivity.
  - apply (lookup_plug mnt _ _ _ Hm).
  - intros other q Hne. rewrite !Eo, !lookup_app, (lookup_plug mnt _ _ _ Hm), Hm.
    cbn [lookup]. rewrite assoc_delEntry_other by congruence. reflexivity.
  - intros q Hq. apply (view_plug mnt q _ _ _ Hm Hq).
Qed.

End host.

Lemma Get_leaves_owned_rootfs_witness :
  exists uid gid a es n,
    GetRootUIDGID None None = Ok (uid, gid)
    /\ ["var"; "lib"; "docker"; "mnt"; "layer1"; "rootfs"]
       = ["var"; "lib"; "docker"] ++ ["mnt"; "layer1"; "rootfs"]
    /\ lookup ["var"; "lib"; "docker"; "mnt"; "layer1"; "rootfs"]
         (tree (Samples.files
                  (snd (@Get _ Samples.sampleOS Samples.sampleDeviceSet
                          Samples.sampleDriver "layer1" ""
                          (Samples.mkDeviceHost Samples.sampleHost ["layer1"] [])))))
       = Ok (Dir a es)
    /\ (uid <> -1 -> a_uid a = uid)
    /\ (gid <> -1 -> a_gid a = gid)
    /\ lookup (["var"; "lib"; "docker"] ++ ["mnt"; "layer1"; "id"])
         (tree (Samples.files
                  (snd (@Get _ Samples.sampleOS Samples.sampleDeviceSet
                          Samples.sampleDriver "layer1" ""
                          (Samples.mkDeviceHost Samples.sampleHost ["layer1"] [])))))
       = Ok n.
Proof.
  apply (Get_leaves_owned_rootfs Samples.files
           (fun h f => Samples.mkDeviceHost f (Samples.devices h) (Samples.mounts h))
           (fun s f => eq_refl) (fun s f g => eq_refl)
           Samples.sampleDeviceSet Samples.sampleDriver "layer1" ""
           (Samples.mkDeviceHost Samples.sampleHost ["layer1"] [])).
  reflexivity.
Defined.

Lemma Remove_clears_mountpoint_witness :
  exists t,
    @Remove _ Samples.sampleOS Samples.sampleDeviceSet Samples.sampleDriver "layer1"
      Samples.usedHost
    = (Ok tt,
       Samples.mkDeviceHost (withTree (Samples.files Samples.usedHost) t) ["layer2"] [])
    /\ lookup ["var"; "lib"; "docker"; "mnt"; "layer1"] t = Err (Errno ENOENT)
    /\ lookup ["var"; "lib"; "docker"; "mnt"; "layer1"; "rootfs"] t = Err (Errno ENOENT)
    /\ lookup ["var"; "lib"; "docker"; "mnt"] t
       = Ok (Dir Samples.rootAttrs [("layer2", Samples.mountpoint "layer2")])
    /\ lookup ["var"; "lib"; "docker"; "mnt"; "layer2"; "id"] t
       = Ok (File (mkAttrs mode_0600 0 0) "layer2")
    /\ view ["var"; "lib"; "docker"; "a"] t = Ok (Samples.rootAttrs, Some "A", []).
Proof.
  destruct (Remove_clears_mountpoint Samples.files
              (fun h f => Samples.mkDeviceHost f (Samples.devices h) (Samples.mounts h))
              Samples.sampleDeviceSet Samples.sampleDriver "layer1"
              Samples.usedHost Samples.usedHost
              (Samples.mkDeviceHost (Samples.files Samples.usedHost) ["layer2"] [])
              tt Samples.rootAttrs
              [ ("layer1", Samples.mountpoint "layer1");
                ("layer2", Samples.mountpoint "layer2") ]
              eq_refl eq_refl eq_refl eq_refl)
    as (t & E & Hgone & Hmnt & Hother & Hout).
  exists t. split; [exact E |].
  split; [exact (Hgone []) |].
  split; [exact (Hgone ["rootfs"]) |].
  split; [exact Hmnt |].
  split.
  - refine (eq_trans (Hother "layer2" ["id"] _) _); [discriminate | reflexivity].
  - refine (eq_trans (Hout ["var"; "lib"; "docker"; "a"] _) _); reflexivity.
Defined.

End mountpointFacts.

(** ** Layers that are refused, and the scratch directory *)

Module layerFacts.
Import os memfs chrootarchive memfsFacts daemonRootFacts mkdirAsFacts chrootarchiveFacts.

(** X24: a layer ApplyLayer cannot start on.  A stream that does not
    decompress is refused with the error of the decompression, as it is;
    a destination that cannot be entered is refused by the child, and the
    error comes back wrapped; in both cases the file system is as it
    was. *)
Theorem ApplyLayer_refused_leaves_host (draws : list string) (dest : path)
    (layer : ArchiveReader) (options : option TarOptions) (w : proc) :
  (forall e, DecompressStream layer = Err e ->
     ApplyLayer draws dest layer options w = (Err e, w))
  /\ (forall es e,
        DecompressStream layer = Ok es ->
        lookup (resolve dest) (tree w) = Err e ->
        ApplyLayer draws dest layer options w = (Err (ErrApplyLayer e "" ""), w))
  /\ (forall es a data,
        DecompressStream layer = Ok es ->
        lookup (resolve dest) (tree w) = Ok (File a data) ->
        ApplyLayer draws dest layer options w
        = (Err (ErrApplyLayer (Errno ENOTDIR) "" ""), w)).
Proof.
  split; [| split].
  - intros e He. unfold ApplyLayer, bind, liftR. rewrite He. reflexivity.
  - intros es e He Hl. unfold ApplyLayer, bind, liftR. rewrite He.
    unfold try, Run, applyLayer, bind, Getenv_OPT. cbn [OPT].
    unfold ret at 1. unfold chroot. cbn [jail process app].
    rewrite resolve_resolve, Hl. unfold fail. rewrite withTree_same. reflexivity.
  - intros es a data He Hl. unfold ApplyLayer, bind, liftR. rewrite He.
    unfold try, Run, applyLayer, bind, Getenv_OPT. cbn [OPT].
    unfold ret at 1. unfold chroot. cbn [jail process app].
    rewrite resolve_resolve, Hl. unfold fail. rewrite withTree_same. reflexivity.
Qed.

Lemma ApplyLayer_refused_leaves_host_witness :
  ApplyLayer ["0"] ["etc"] Garbled None Samples.sampleHost
  = (Err (ErrOther "unsupported archive stream"), Samples.sampleHost)
  /\ ApplyLayer ["0"] ["srv"] (Plain []) None Samples.sampleHost
     = (Err (ErrApplyLayer (Errno ENOENT) "" ""), Samples.sampleHost)
  /\ ApplyLayer ["0"] ["var"; "lib"; "docker"; "a"] (Plain []) None Samples.sampleHost
     = (Err (ErrApplyLayer (Errno ENOTDIR) "" ""), Samples.sampleHost).
Proof.
  split; [| split].
  - apply (proj1 (ApplyLayer_refused_leaves_host ["0"] ["etc"] Garbled None
                    Samples.sampleHost)).
    reflexivity.
  - apply (proj1 (proj2 (ApplyLayer_refused_leaves_host ["0"] ["srv"] (Plain []) None
                           Samples.sampleHost)) []);
      reflexivity.
  - apply (proj2 (proj2 (ApplyLayer_refused_leaves_host ["0"]
                           ["var"; "lib"; "docker"; "a"] (Plain []) None
                           Samples.sampleHost)) [] Samples.rootAttrs "A");
      reflexivity.
Defined.

(** *** The scratch directory *)

Lemma update_keeps_dir (p : path) (f : node -> result node) :
  (forall n n', isDir n = true -> f n = Ok n' -> isDir n' = true) ->
  forall t t', isDir t = true -> update p f t = Ok t' -> isDir t' = true.
Proof.
  intros Hf. destruct p as [| x q]; intros t t' Ht; cbn [update]; [apply Hf, Ht |].
  destruct t as [| a es]; [discriminate |].
  destruct (assoc x es) as [c |]; [| discriminate].
  destruct (update q f c); [| discriminate].
  intros E. injection E as <-. reflexivity.
Qed.

Lemma mkdirAll_keeps_dir (p : path) (a : attrs) (t t' : node) :
  isDir t = true -> mkdirAll p a t = Ok t' -> isDir t' = true.
Proof.
  destruct t as [| d es]; [discriminate |]. intros _ H.
  destruct (mkdirAll_top p a d es t' H) as [es' ->]. reflexivity.
Qed.

Lemma writeFile_keeps_dir (p : path) (a : attrs) (data : string) (t t' : node) :
  isDir t = true -> writeFile p a data t = Ok t' -> isDir t' = true.
Proof.
  unfold writeFile. destruct (unsnoc p) as [[d x] |]; [| discriminate].
  apply update_keeps_dir. intros n n' Hn. destruct n as [| dn es]; [discriminate |].
  cbn [writeAt]. destruct (assoc x es) as [[old ? | ? ?] |]; try discriminate;
    intros E; injection E as <-; reflexivity.
Qed.

Lemma keepsJail_ret {A} (a : A) : keepsJail (ret a).
Proof. intros c r c' H. injection H as <- <-. auto. Qed.

Lemma keepsJail_bind {A B} (m : M child A) (k : A -> M child B) :
  keepsJail m -> (forall a, keepsJail (k a)) -> keepsJail (bind m k).
Proof.
  intros Hm Hk c r c' H. unfold bind in H.
  destruct (m c) as [[a | e] c1] eqn:E.
  - destruct (Hm c _ c1 E) as [Hj Hd]. destruct (Hk a c1 r c' H) as [Hj' Hd'].
    split; [congruence | auto].
  - injection H as <- <-. apply (Hm c _ c1 E).
Qed.

Lemma keepsJail_unlessExists (m : M child unit) :
  keepsJail m -> keepsJail (unlessExists m).
Proof.
  intros Hm c r c' H. unfold unlessExists in H.
  destruct (m c) as [[u | e] c1] eqn:E.
  - injection H as <- <-. apply (Hm c _ c1 E).
  - destruct (negb (IsExist e)); injection H as <- <-; apply (Hm c _ c1 E).
Qed.

Lemma keepsJail_inJail (f : proc -> node -> result node) :
  (forall w n n', isDir n = true -> f w n = Ok n' -> isDir n' = true) ->
  keepsJail (inJail f).
Proof.
  intros Hf c r c' H. unfold inJail in H.
  destruct (update (jail c) (f (process c)) (tree (process c))) as [t' |] eqn:E.
  - injection H as <- <-. unfold jailIsDir. cbn [jail process tree withTree].
    split; [reflexivity |].
    intros (a & es & Hl).
    rewrite (update_plug _ _ _ _ Hl) in E.
    destruct (f (process c) (Dir a es)) as [n' |] eqn:En; [| discriminate].
    injection E as <-. rewrite (lookup_plug _ _ _ n' Hl).
    pose proof (Hf (process c) (Dir a es) n' eq_refl En) as Hd.
    destruct n' as [| a' es']; [discriminate |]. eauto.
  - injection H as <- <-. auto.
Qed.

Lemma keepsJail_unpackEntries (dest : path) (es : list entry) :
  forall size, keepsJail (unpackEntries dest es size).
Proof.
  induction es as [| e es IH]; intros size; cbn [unpackEntries].
  - apply keepsJail_ret.
  - apply keepsJail_bind; [| intros n; apply IH].
    destruct (body e).
    + apply keepsJail_bind; [| intros _].
      * apply keepsJail_unlessExists. cbn [MkdirAll childOS].
        apply keepsJail_inJail. intros w n n'. apply mkdirAll_keeps_dir.
      * apply keepsJail_bind; [| intros _; apply keepsJail_ret].
        cbn [WriteFile childOS].
        apply keepsJail_inJail. intros w n n'. apply writeFile_keeps_dir.
    + apply keepsJail_bind; [| intros _; apply keepsJail_ret].
      apply keepsJail_unlessExists. cbn [MkdirAll childOS].
      apply keepsJail_inJail. intros w n n'. apply mkdirAll_keeps_dir.
Qed.

(** The child, from a destination that is a directory without the name
    the scratch directory gets. *)
Lemma applyLayer_scratch (suffix : string) (rest : list string) (dest : path)
    (stdin : list entry) (w : proc) (o : TarOptions) (a : attrs)
    (es : list (string * node)) (r : result applyLayerResponse) (c' : child) :
  let tmp := ("temp-docker-extract" ++ suffix)%string in
  resolve dest = dest ->
  lookup dest (tree w) = Ok (Dir a es) ->
  assoc tmp es = None ->
  applyLayer (suffix :: rest) dest stdin (mkChild w [] (Some o) None) = (r, c') ->
  lookup (dest ++ [tmp]) (tree (process c')) = Err (Errno ENOENT).
Proof.
  intros tmp Hres Hl Ha.
  set (J := jailed dest (tree w) (euid w) (egid w) 0 (Some o)).
  set (mk := fun mode => mkAttrs (Z.ldiff mode 0) (euid w) (egid w)).
  pose (cur1 := Dir a (es ++ [(tmp, Dir (mk mode_0700) [])])).
  assert (Htmp : resolve [tmp] = [tmp]) by reflexivity.
  assert (Hstep : forall f cur cur' tm,
             f (mkProc (plug dest cur (tree w)) (euid w) (egid w) 0) cur = Ok cur' ->
             inJail f (J cur tm) = (Ok tt, J cur' tm)).
  { intros f cur cur' tm. apply (run_inJail dest (tree w) _ _ _ _ _ Hl). }
  unfold applyLayer.
  set (c0 := mkChild w [] (Some o) None).
  rewrite (bind_ok Getenv_OPT _ c0 c0 (Some o) eq_refl).
  cbv beta iota.
  rewrite (bind_ok (ret o) _ c0 c0 o eq_refl).
  rewrite (bind_ok _ _ _ (mkChild w dest (Some o) None) tt).
  2:{ unfold chroot, c0. cbn [jail process app OPT TMPDIR]. rewrite Hres, Hl.
      reflexivity. }
  rewrite (bind_ok _ _ _ (J (Dir a es) None) (umask w)).
  2:{ unfold Umask, J, jailed. cbn [jail process OPT TMPDIR tree euid egid umask].
      rewrite (plug_same dest (tree w) _ Hl). reflexivity. }
  rewrite (bind_ok _ _ _ (J cur1 None) [tmp]).
  2:{ unfold TempDir. cbn [tryTempDir app]. fold tmp.
      rewrite (bind_ok _ _ _ (J cur1 None) (Ok tt)); [reflexivity |].
      apply try_run. cbn [Mkdir childOS]. apply Hstep. rewrite Htmp.
      unfold mkdir. cbn [unsnoc update mkdirAt]. rewrite Ha. reflexivity. }
  rewrite (bind_ok _ _ _ (J cur1 (Some [tmp])) tt) by reflexivity.
  unfold bind at 1. unfold try at 1. unfold UnpackLayer.
  destruct (unpackEntries [] stdin 0 (J cur1 (Some [tmp]))) as [r1 c4] eqn:Eu.
  destruct (keepsJail_unpackEntries [] stdin 0 _ _ _ Eu) as [Hj Hd].
  destruct Hd as (a4 & es4 & Hl4).
  { exists a, (es ++ [(tmp, Dir (mk mode_0700) [])]).
    unfold J, jailed. cbn [jail process tree]. apply (lookup_plug dest _ _ _ Hl). }
  assert (Hj4 : jail c4 = dest) by (rewrite Hj; reflexivity).
  rewrite Hj4 in Hl4.
  unfold bind at 1. unfold try at 1.
  cbn [RemoveAll childOS]. unfold inJail. rewrite Hj4, Htmp.
  rewrite (update_plug dest _ _ _ Hl4).
  assert (Hrm : exists n',
             removeAll [tmp] (Dir a4 es4) = Ok n'
             /\ lookup [tmp] n' = Err (Errno ENOENT)).
  { unfold removeAll. cbn [unsnoc lookup].
    destruct (assoc tmp es4) as [k |] eqn:Ek.
    - cbn [update removeAt]. eexists. split; [reflexivity |].
      cbn [lookup].
      assert (Hn : assoc tmp (delEntry tmp es4) = None).
      { apply assoc_None_names. intros H. apply names_delEntry in H. tauto. }
      rewrite Hn. reflexivity.
    - eexists. split; [reflexivity |]. cbn [lookup]. rewrite Ek. reflexivity. }
  destruct Hrm as (n' & -> & Hn').
  intros H.
  assert (Hc' : tree (process c') = plug dest n' (tree (process c4))).
  { destruct r1; cbn in H; injection H as _ <-; reflexivity. }
  rewrite Hc', lookup_app, (lookup_plug dest _ _ _ Hl4). exact Hn'.
Qed.

(** X25: the scratch directory of the child does not outlive it.  In a
    destination that is a directory, the name the child makes its
    scratch directory under is not there after ApplyLayer, whether the
    layer was unpacked or not, also when the layer itself had an entry of
    that name. *)
Theorem ApplyLayer_removes_scratch_directory (suffix : string) (rest : list string)
    (dest : path) (layer : ArchiveReader) (options : option TarOptions)
    (w w' : proc) (a : attrs) (es : list (string * node)) (r : result Z) :
  let tmp := ("temp-docker-extract" ++ suffix)%string in
  lookup (resolve dest) (tree w) = Ok (Dir a es) ->
  assoc tmp es = None ->
  ApplyLayer (suffix :: rest) dest layer options w = (r, w') ->
  lookup (resolve dest ++ [tmp]) (tree w') = Err (Errno ENOENT).
Proof.
  intros tmp Hl Ha. unfold ApplyLayer, bind, liftR.
  destruct (DecompressStream layer) as [es0 | e].
  - unfold try, Run.
    destruct (applyLayer (suffix :: rest) (resolve dest) es0 _) as [r0 c'] eqn:E.
    apply (applyLayer_scratch suffix rest (resolve dest) es0 w _ a es r0 c'
             (resolve_resolve dest) Hl Ha) in E.
    intros H.
    assert (Hw : tree w' = tree (process c'))
      by (destruct r0; cbn in H; injection H as _ <-; reflexivity).
    rewrite Hw. exact E.
  - intros H. injection H as _ <-.
    rewrite lookup_app, Hl. cbn [lookup]. fold tmp. rewrite Ha. reflexivity.
Qed.

Lemma ApplyLayer_removes_scratch_directory_witness :
  lookup ["etc"; "temp-docker-extract0"]
    (tree (snd (ApplyLayer ["0"] ["etc"]
                  (Plain [mkEntry "temp-docker-extract0/x" 420 (RegularFile "y")])
                  None Samples.sampleHost)))
  = Err (Errno ENOENT).
Proof.
  apply (ApplyLayer_removes_scratch_directory "0" [] ["etc"]
           (Plain [mkEntry "temp-docker-extract0/x" 420 (RegularFile "y")])
           None Samples.sampleHost _ Samples.rootAttrs []
           (fst (ApplyLayer ["0"] ["etc"]
                   (Plain [mkEntry "temp-docker-extract0/x" 420 (RegularFile "y")])
                   None Samples.sampleHost)));
    reflexivity.
Defined.

End layerFacts.

(** ** What the calls leave alone *)

Module apartFacts.
Import os memfs idtools directory daemon layout memfsFacts daemonRootFacts mkdirAsFacts.

#[local] Existing Instance daemonOS.

Lemma apart_cons (x y : string) (p q : path) :
  apart (x :: p) (y :: q) -> x <> y \/ (x = y /\ apart p q).
Proof.
  unfold apart. cbn [isPrefix]. intros [H1 H2].
  destruct (String.eqb_spec x y) as [-> | Hne]; [| left; assumption].
  right. rewrite String.eqb_refl in H2. cbn in H1, H2. auto.
Qed.

Lemma apart_nil_l (q : path) : ~ apart [] q.
Proof. intros [H _]. discriminate H. Qed.

Lemma apart_nil_r (p : path) : ~ apart p [].
Proof. intros [_ H]. discriminate H. Qed.

Lemma apart_app (p r q : path) : apart p q -> apart (p ++ r) q.
Proof.
  revert q. induction p as [| x p IH]; intros q H; [contradiction (apart_nil_l q H) |].
  destruct q as [| y q]; [contradiction (apart_nil_r _ H) |].
  apply apart_cons in H as [Hne | [-> H]].
  - unfold apart. cbn [app isPrefix].
    apply String.eqb_neq in Hne. rewrite Hne.
    rewrite String.eqb_sym, Hne. auto.
  - destruct (IH q H) as [H1 H2]. unfold apart. cbn [app isPrefix].
    rewrite String.eqb_refl. auto.
Qed.

(** What is apart from a path is not changed by a change at the path. *)
Lemma update_apart (p : path) (f : node -> result node) :
  forall (q : path) (t t' : node),
    update p f t = Ok t' -> apart p q -> lookup q t' = lookup q t.
Proof.
  induction p as [| x p IH]; intros q t t' Hu Ha; [contradiction (apart_nil_l q Ha) |].
  destruct q as [| y q]; [contradiction (apart_nil_r _ Ha) |].
  cbn [update] in Hu. destruct t as [| a es]; [discriminate |].
  destruct (assoc x es) as [c |] eqn:Ec; [| discriminate].
  destruct (update p f c) as [c' |] eqn:Eu; [| discriminate].
  injection Hu as <-. cbn [lookup].
  apply apart_cons in Ha as [Hne | [<- Ha]].
  - rewrite assoc_setEntry_other by assumption. reflexivity.
  - rewrite (assoc_setEntry_same x c' c es Ec), Ec. apply (IH q c c' Eu Ha).
Qed.

Lemma mkdirAll_apart (p : path) (a : attrs) :
  forall (q : path) (t t' : node),
    mkdirAll p a t = Ok t' -> apart p q -> lookup q t' = lookup q t.
Proof.
  induction p as [| x p IH]; intros q t t' Hm Ha; [contradiction (apart_nil_l q Ha) |].
  destruct q as [| y q]; [contradiction (apart_nil_r _ Ha) |].
  destruct t as [| d es]; [discriminate |]. cbn [mkdirAll] in Hm.
  destruct (assoc x es) as [c |] eqn:Ec.
  - destruct (mkdirAll p a c) as [c' |] eqn:Em; [| discriminate].
    injection Hm as <-. cbn [lookup].
    apply apart_cons in Ha as [Hne | [<- Ha]].
    + rewrite assoc_setEntry_other by assumption. reflexivity.
    + rewrite (assoc_setEntry_same x c' c es Ec), Ec. apply (IH q c c' Em Ha).
  - destruct (mkdirAll p a (Dir a [])) as [c' |] eqn:Em; [| discriminate].
    injection Hm as <-. cbn [lookup]. rewrite assoc_app.
    apply apart_cons in Ha as [Hne | [<- Ha]].
    + destruct (assoc y es); [reflexivity |]. cbn [assoc].
      apply not_eq_sym, String.eqb_neq in Hne. rewrite Hne. reflexivity.
    + rewrite Ec. cbn [assoc]. rewrite String.eqb_refl.
      rewrite (IH q _ c' Em Ha).
      destruct q as [| z q]; [contradiction (apart_nil_r _ Ha) | reflexivity].
Qed.

(** The same for a new entry of a directory: its siblings stay. *)
Lemma mkdir_apart (p : path) (a : attrs) (q : path) (t t' : node) :
  mkdir p a t = Ok t' -> apart p q -> lookup q t' = lookup q t.
Proof.
  unfold mkdir. destruct (unsnoc p) as [[d x] |] eqn:Eus; [| discriminate].
  assert (Ep : p = d ++ [x]).
  { clear - Eus. revert d Eus. induction p as [| y p IH]; intros d; [discriminate |].
    cbn [unsnoc]. destruct p as [| z p].
    - intros E. injection E as <- <-. reflexivity.
    - destruct (unsnoc (z :: p)) as [[d' l] |]; [| discriminate].
      intros E. injection E as <- <-. cbn [app]. f_equal. apply IH. reflexivity. }
  subst p. intros Hu Ha.
  destruct (isPrefix d q) eqn:Edq.
  - destruct (isPrefix_true d q Edq) as [r ->].
    destruct Ha as [Ha1 Ha2]. rewrite isPrefix_app in Ha1, Ha2.
    destruct r as [| y r]; [discriminate Ha2 |].
    cbn [isPrefix] in Ha1. rewrite andb_true_r in Ha1.
    destruct (lookup d t) as [c | e] eqn:El;
      [| rewrite (update_lookup_err d _ t e El) in Hu; discriminate].
    rewrite (update_plug d _ t c El) in Hu.
    destruct (mkdirAt x a c) as [c' |] eqn:Em; [| discriminate].
    injection Hu as <-.
    rewrite !lookup_app, (lookup_plug d t c c' El), El.
    destruct c as [| d0 es]; [discriminate |]. cbn [mkdirAt] in Em.
    destruct (assoc x es); [discriminate |]. injection Em as <-.
    cbn [lookup]. rewrite assoc_app.
    destruct (assoc y es); [reflexivity |]. cbn [assoc].
    rewrite String.eqb_sym, Ha1. reflexivity.
  - apply (update_apart d _ q t t' Hu). split; [assumption |].
    destruct (isPrefix q d) eqn:Eqd; [| reflexivity].
    destruct (isPrefix_true q d Eqd) as [r ->].
    destruct Ha as [_ Ha2]. rewrite <- app_assoc in Ha2.
    rewrite <- (app_nil_r q) in Ha2 at 1. rewrite isPrefix_app in Ha2.
    discriminate Ha2.
Qed.

(** X29: MkdirAs and MkdirAllAs change nothing that is apart from the
    path they are given: a path that does not lead through it, and that
    it does not lead through, leads to what it led to before, whether the
    call succeeds or fails. *)
Theorem mkdirAs_touches_only_its_path (p : path) (mode uid gid : Z) (mkAll : bool)
    (w w' : proc) (r : result unit) (q : path) :
  mkdirAs p mode uid gid mkAll w = (r, w') ->
  apart p q ->
  lookup q (tree w') = lookup q (tree w).
Proof.
  intros H Ha. unfold mkdirAs, bind, unlessExists in H.
  cbn [Mkdir MkdirAll Chown memOS] in H. unfold onTree in H.
  assert (Hchown : forall w1 r1 w2,
             match update p (chownNode uid gid) (tree w1) with
             | Ok t' => (Ok tt, withTree w1 t')
             | Err e => (Err e, w1)
             end = (r1, w2) ->
             lookup q (tree w2) = lookup q (tree w1)).
  { intros w1 r1 w2 E.
    destruct (update p (chownNode uid gid) (tree w1)) as [t' |] eqn:Eu;
      injection E as _ <-; [| reflexivity].
    cbn [tree withTree]. apply (update_apart p _ q _ _ Eu Ha). }
  destruct mkAll.
  - destruct (mkdirAll p (created w mode) (tree w)) as [t1 | e] eqn:Em.
    + rewrite (Hchown _ _ _ H). cbn [tree withTree].
      apply (mkdirAll_apart p _ q _ _ Em Ha).
    + destruct (negb (IsExist e)); [injection H as _ <-; reflexivity |].
      apply (Hchown _ _ _ H).
  - destruct (mkdir p (created w mode) (tree w)) as [t1 | e] eqn:Em.
    + rewrite (Hchown _ _ _ H). cbn [tree withTree].
      apply (mkdir_apart p _ q _ _ Em Ha).
    + destruct (negb (IsExist e)); [injection H as _ <-; reflexivity |].
      apply (Hchown _ _ _ H).
Qed.

Lemma mkdirAs_touches_only_its_path_witness :
  lookup ["var"; "lib"; "docker"; "a"]
    (tree (snd (MkdirAllAs ["var"; "lib"; "docker"; "1000.1000"] mode_0700 1000 1000
                  Samples.sampleHost)))
  = lookup ["var"; "lib"; "docker"; "a"] Samples.sampleTree.
Proof.
  apply (mkdirAs_touches_only_its_path ["var"; "lib"; "docker"; "1000.1000"]
           mode_0700 1000 1000 true Samples.sampleHost _
           (fst (MkdirAllAs ["var"; "lib"; "docker"; "1000.1000"] mode_0700 1000 1000
                   Samples.sampleHost))).
  - reflexivity.
  - split; reflexivity.
Defined.

(** *** The daemon root *)

Lemma leavesApart_ret {A} (p : path) (a : A) : leavesApart p (ret a).
Proof. intros s r s' H q _. injection H as _ <-. reflexivity. Qed.

Lemma leavesApart_bind {A B} (p : path) (m : M (daemonState proc) A)
    (k : A -> M (daemonState proc) B) :
  leavesApart p m -> (forall a, leavesApart p (k a)) -> leavesApart p (bind m k).
Proof.
  intros Hm Hk s r s' H q Hq. unfold bind in H.
  destruct (m s) as [[a | e] s1] eqn:E.
  - rewrite (Hk a s1 r s' H q Hq). apply (Hm s _ s1 E q Hq).
  - injection H as _ <-. apply (Hm s _ s1 E q Hq).
Qed.

Lemma leavesApart_try {A} (p : path) (m : M (daemonState proc) A) :
  leavesApart p m -> leavesApart p (try m).
Proof.
  intros Hm s r s' H q Hq. unfold try in H.
  destruct (m s) as [r1 s1] eqn:E. injection H as _ <-. apply (Hm s _ s1 E q Hq).
Qed.

Lemma leavesApart_wrapErr {A} (p : path) (f : error -> error)
    (m : M (daemonState proc) A) :
  leavesApart p m -> leavesApart p (wrapErr f m).
Proof.
  intros Hm s r s' H q Hq. unfold wrapErr in H.
  destruct (m s) as [[a | e] s1] eqn:E; injection H as _ <-;
    apply (Hm s _ s1 E q Hq).
Qed.

(** A call that changes the tree by [f], or leaves it when [f] fails. *)
Lemma leavesApart_onTree (p : path) (f : proc -> node -> result node) :
  (forall w t', f w (tree w) = Ok t' ->
     forall q, apart p q -> lookup q t' = lookup q (tree w)) ->
  leavesApart p
    (zoom host (fun s w => mkDaemonState (config s) w) (fun w => onTree (f w) w)).
Proof.
  intros Hf s r s' H q Hq. unfold zoom, onTree in H.
  destruct (f (host s) (tree (host s))) as [t' |] eqn:E;
    cbv beta iota zeta in H; injection H as _ <-;
    cbn [host tree withTree]; [| reflexivity].
  apply (Hf (host s) t' E q Hq).
Qed.

Lemma leavesApart_query {A} (p : path) (f : node -> result A) :
  leavesApart p (zoom host (fun s w => mkDaemonState (config s) w) (query f)).
Proof.
  intros s r s' H q Hq. unfold zoom, query in H. injection H as _ <-. reflexivity.
Qed.

Lemma leavesApart_Mkdir (p r : path) (mode : Z) :
  leavesApart p (Mkdir (p ++ r) mode).
Proof.
  apply (leavesApart_onTree p (fun w => mkdir (p ++ r) (created w mode))).
  intros w t' E q Hq. apply (mkdir_apart _ _ q _ _ E (apart_app p r q Hq)).
Qed.

Lemma leavesApart_MkdirAll (p r : path) (mode : Z) :
  leavesApart p (MkdirAll (p ++ r) mode).
Proof.
  apply (leavesApart_onTree p (fun w => mkdirAll (p ++ r) (created w mode))).
  intros w t' E q Hq. apply (mkdirAll_apart _ _ q _ _ E (apart_app p r q Hq)).
Qed.

Lemma leavesApart_update (p r : path) (f : node -> result node) :
  leavesApart p
    (zoom host (fun s w => mkDaemonState (config s) w) (onTree (update (p ++ r) f))).
Proof.
  apply (leavesApart_onTree p (fun _ => update (p ++ r) f)).
  intros w t' E q Hq. apply (update_apart _ _ q _ _ E (apart_app p r q Hq)).
Qed.

Lemma rename_apart (p : path) (x s : string) (q : path) (t t' : node) :
  rename (p ++ [x]) (p ++ [s; x]) t = Ok t' -> apart p q ->
  lookup q t' = lookup q t.
Proof.
  unfold rename.
  change (p ++ [s; x]) with (p ++ [s] ++ [x]) at 1.
  rewrite app_assoc, !unsnoc_snoc.
  destruct (lookup (p ++ [x]) t) as [src |]; [| discriminate].
  rewrite path_eqb_snoc.
  destruct (isPrefix (p ++ [x]) (p ++ [s; x])); [discriminate |].
  destruct (update (p ++ [s]) (placeAt x src) t) as [t1 |] eqn:E1; [| discriminate].
  intros E2 Hq.
  rewrite (update_apart p _ q _ _ E2 Hq).
  apply (update_apart _ _ q _ _ E1 (apart_app p [s] q Hq)).
Qed.

Lemma leavesApart_moveEntries (p : path) (s : string) (infos : list FileInfo) :
  leavesApart p (moveEntries p s infos).
Proof.
  induction infos as [| info infos IH]; cbn [moveEntries].
  - apply leavesApart_ret.
  - apply leavesApart_bind; [| intros _; exact IH].
    destruct (negb (String.eqb (Name info) s)); [| apply leavesApart_ret].
    apply (leavesApart_onTree p
             (fun _ => rename (p ++ [Name info]) (p ++ [s; Name info]))).
    intros w t' E q Hq. apply (rename_apart p _ s q _ _ E Hq).
Qed.

Lemma leavesApart_MkdirAllAs (p r : path) (mode uid gid : Z) :
  leavesApart p (MkdirAllAs (p ++ r) mode uid gid).
Proof.
  unfold MkdirAllAs, mkdirAs. apply leavesApart_bind.
  - intros s0 r0 s' H q Hq. unfold unlessExists in H.
    destruct (MkdirAll (p ++ r) mode s0) as [[u | e] s1] eqn:E.
    + injection H as _ <-. apply (leavesApart_MkdirAll p r mode s0 _ s1 E q Hq).
    + destruct (negb (IsExist e)); injection H as _ <-;
        apply (leavesApart_MkdirAll p r mode s0 _ s1 E q Hq).
  - intros _. apply leavesApart_update.
Qed.

(** X28: setupDaemonRoot keeps to the daemon root.  Whatever is on the
    host and however the call ends, a path that does not lead through
    the daemon root, and that the daemon root does not lead through,
    leads to what it led to before. *)
Theorem setupDaemonRoot_keeps_to_the_root (cfg : Config) (w : proc) (rootDir : path)
    (uid gid : Z) (r : result unit) (s' : daemonState proc) (q : path) :
  setupDaemonRoot rootDir uid gid (mkDaemonState cfg w) = (r, s') ->
  apart rootDir q ->
  lookup q (tree (host s')) = lookup q (tree w).
Proof.
  intros H Hq.
  apply (fun L : leavesApart rootDir (setupDaemonRoot rootDir uid gid) =>
           L (mkDaemonState cfg w) r s' H q Hq).
  cbv beta zeta delta [setupDaemonRoot].
  apply leavesApart_bind;
    [apply leavesApart_try; apply (leavesApart_query rootDir (stat rootDir)) |].
  intros st. apply leavesApart_bind.
  - destruct st as [info | e].
    + apply leavesApart_bind;
        [apply leavesApart_try;
         apply (leavesApart_query rootDir (stat (rootDir ++ ["0.0"]))) |].
      intros [info0 | e]; [apply leavesApart_ret |].
      destruct (IsNotExist e); [| apply leavesApart_ret].
      apply leavesApart_bind; [apply leavesApart_wrapErr, leavesApart_Mkdir |].
      intros _. apply leavesApart_bind.
      * apply leavesApart_wrapErr. unfold MoveDirToSubdir.
        apply leavesApart_bind;
          [apply (leavesApart_query rootDir (readDir rootDir)) |].
        intros infos. apply leavesApart_moveEntries.
      * intros _. rewrite <- (app_nil_r rootDir) at 2.
        apply (leavesApart_update rootDir [] (chmodNode mode_0755)).
    + destruct (IsNotExist e); [| apply leavesApart_ret].
      apply leavesApart_bind.
      * rewrite <- (app_nil_r rootDir) at 2. apply leavesApart_MkdirAll.
      * intros _. apply leavesApart_Mkdir.
  - intros _. apply leavesApart_bind.
    + intros s0 r0 s1 E q0 _. injection E as _ <-. reflexivity.
    + intros cfg0. apply leavesApart_bind.
      * intros s0 r0 s1 E q0 _. injection E as _ <-. reflexivity.
      * intros _. apply leavesApart_wrapErr, leavesApart_MkdirAllAs.
Qed.

Lemma setupDaemonRoot_keeps_to_the_root_witness :
  lookup ["etc"]
    (tree (host (snd (setupDaemonRoot ["var"; "lib"; "docker"] 1000 1000
                        (mkDaemonState Samples.remapped Samples.sampleHost)))))
  = lookup ["etc"] Samples.sampleTree.
Proof.
  apply (setupDaemonRoot_keeps_to_the_root Samples.remapped Samples.sampleHost
           ["var"; "lib"; "docker"] 1000 1000
           (fst (setupDaemonRoot ["var"; "lib"; "docker"] 1000 1000
                   (mkDaemonState Samples.remapped Samples.sampleHost)))).
  - reflexivity.
  - split; reflexivity.
Defined.

End apartFacts.
